(** * Backend.AI client CLI: admin groups, admin sessions, manager

    A shallow embedding of the command handlers of
    [ai/backend/client/cli/admin/groups.py],
    [ai/backend/client/cli/admin/sessions.py] and
    [ai/backend/client/cli/manager.py].

    Python values are a small universe of JSON-like data, dictionaries keep
    their insertion order, floats are binary64 numbers carried by their exact
    dyadic value, and a command is a function from the world it runs in (the
    scripted replies of the API server, the answers of the operator, the
    local state file) to the events it produces and the way it ends.

    A character of a string is a code point below 256.  The limits of the
    interpreter (memory, depth of recursion) are not part of the model. *)

From Stdlib Require Import ZArith String List Ascii Bool Lia DecimalString.
From Stdlib Require Import Permutation.
Import ListNotations.
Open Scope string_scope.
Open Scope Z_scope.

(** ** Binary64 floats *)

Module Float.

(** A finite Python float. [FNum s m e] is [(-1)^s * m * 2^e]; the canonical
    form has [m] odd.  Zero keeps its sign. *)
Inductive pyfloat :=
| FZero (neg : bool)
| FNum (neg : bool) (m : positive) (e : Z).

(** [f == 0.0] *)
Definition is_zero (f : pyfloat) : bool :=
  match f with FZero _ => true | FNum _ _ _ => false end.

(** Strip the trailing zero bits of a mantissa. *)
Fixpoint canon (m : positive) (e : Z) : positive * Z :=
  match m with
  | xO m' => canon m' (e + 1)
  | _ => (m, e)
  end.

(** [a / b] rounded to the nearest integer, ties to even ([0 <= a], [0 < b]). *)
Definition div_half_even (a b : Z) : Z :=
  let q := a / b in
  let r := a mod b in
  if 2 * r <? b then q
  else if b <? 2 * r then q + 1
  else if Z.even q then q else q + 1.

(** [floor (log2 (a / b))] for positive [a] and [b]. *)
Definition ilog2_ratio (a b : Z) : Z :=
  let k := Z.log2 a - Z.log2 b in
  let below := if 0 <=? k then a <? b * 2 ^ k else a * 2 ^ (- k) <? b in
  if below then k - 1 else k.

(** The binary64 number nearest to [a / b] (ties to even), with the sign
    [neg]; [None] when the rounded value does not fit (overflow).  Numbers
    below [2^-1022] are rounded on the subnormal grid of step [2^-1074]. *)
Definition nearest (neg : bool) (a b : Z) : option pyfloat :=
  if a =? 0 then Some (FZero neg)
  else
    let e := Z.max (ilog2_ratio a b - 52) (-1074) in
    let q := if 0 <=? e then div_half_even a (b * 2 ^ e)
             else div_half_even (a * 2 ^ (- e)) b in
    if 2 ^ (1024 - e) <=? q then None
    else match q with
         | Zpos p => let '(m, e') := canon p e in Some (FNum neg m e')
         | _ => Some (FZero neg)
         end.

(** The exact value of [m * 2^e] as a fraction. *)
Definition frac (m : positive) (e : Z) : Z * Z :=
  if 0 <=? e then (Zpos m * 2 ^ e, 1) else (Zpos m, 2 ^ (- e)).

(** [float(n)] for an integer. *)
Definition of_int (n : Z) : option pyfloat :=
  nearest (n <? 0) (Z.abs n) 1.

(** [n / d] for two integers, [d] positive: Python rounds the exact
    quotient once. *)
Definition int_truediv (n : Z) (d : positive) : option pyfloat :=
  nearest (n <? 0) (Z.abs n) (Zpos d).

(** [x / d] for a float [x] and a positive integer [d]: the integer is
    converted to a float first, then the quotient is rounded. *)
Definition float_truediv (x : pyfloat) (d : positive) : option pyfloat :=
  match of_int (Zpos d) with
  | Some (FNum _ m' e') =>
      match x with
      | FZero s => Some (FZero s)
      | FNum s m e =>
          let '(a, b) := frac m e in
          let '(a', b') := frac m' e' in
          nearest s (a * b') (b * a')
      end
  | _ => None
  end.

(** [round(x, 1)]: the exact value of [x] is rounded to one decimal, ties to
    even, and the decimal is converted back to the nearest float. *)
Definition round1 (x : pyfloat) : option pyfloat :=
  match x with
  | FZero s => Some (FZero s)
  | FNum s m e =>
      let '(a, b) := frac m e in
      nearest s (div_half_even (10 * a) b) 10
  end.

(** *** [repr] of a float: the shortest decimal that reads back as it *)

(** The largest [j] with [b * 10^j <= a], counted up from [k] ([b <= a]). *)
Fixpoint log10_up (fuel : nat) (a b k : Z) : Z :=
  match fuel with
  | O => k
  | S f => if b * 10 <=? a then log10_up f a (b * 10) (k + 1) else k
  end.

(** Minus the smallest [j] with [b <= a * 10^j], counted down from [k]. *)
Fixpoint log10_down (fuel : nat) (a b k : Z) : Z :=
  match fuel with
  | O => k
  | S f => if a <? b then log10_down f (a * 10) b (k - 1) else k
  end.

(** [floor (log10 (a / b))] for positive [a] and [b]. *)
Definition ilog10_ratio (a b : Z) : Z :=
  let fuel := Z.to_nat (Z.log2 a + Z.log2 b + 2) in
  if b <=? a then log10_up fuel a b 0 else log10_down fuel a b 0.

(** Does the decimal [c * 10^-s] read back as [m * 2^e]? *)
Definition reads_back (c s : Z) (m : positive) (e : Z) : bool :=
  let r := if 0 <=? s then nearest false c (10 ^ s)
           else nearest false (c * 10 ^ (- s)) 1 in
  match r with
  | Some (FNum _ m' e') => Pos.eqb m m' && Z.eqb e e'
  | _ => false
  end.

(** The [n]-digit candidates around [a / b], where [k = floor (log10 (a/b))]:
    the result is the integer [c] of the closest candidate [c * 10^-(n-1-k)]
    that reads back, if one does. *)
Definition candidate (a b k : Z) (m : positive) (e : Z) (n : Z) : option (Z * Z) :=
  let s := n - 1 - k in
  let num := if 0 <=? s then a * 10 ^ s else a in
  let den := if 0 <=? s then b else b * 10 ^ (- s) in
  let lo := num / den in
  let r := num mod den in
  if r =? 0 then (if reads_back lo s m e then Some (lo, s) else None)
  else
    let hi := lo + 1 in
    let lo_pref := if 2 * r <? den then true
                   else if den <? 2 * r then false else Z.even lo in
    match reads_back lo s m e, reads_back hi s m e with
    | true, true => Some (if lo_pref then lo else hi, s)
    | true, false => Some (lo, s)
    | false, true => Some (hi, s)
    | false, false => None
    end.

(** The first candidate that reads back, from [n] digits on; 17 digits
    always do. *)
Fixpoint shortest (fuel : nat) (a b k : Z) (m : positive) (e : Z) (n : Z) : Z * Z :=
  match fuel with
  | O => (0, 0)
  | S f => match candidate a b k m e n with
           | Some cs => cs
           | None => shortest f a b k m e (n + 1)
           end
  end.

(** Drop the leading zeros of a reversed digit string, keeping one digit. *)
Fixpoint strip_zeros_rev (ds : list ascii) : list ascii :=
  match ds with
  | "0"%char :: ds' => match ds' with [] => ds | _ => strip_zeros_rev ds' end
  | _ => ds
  end.

Definition strip_trailing_zeros (s : string) : string :=
  string_of_list_ascii (rev (strip_zeros_rev (rev (list_ascii_of_string s)))).

Fixpoint zeros (n : nat) : string :=
  match n with O => "" | S n' => String "0" (zeros n') end.

(** [str(z)] for an integer. *)
Definition dec (z : Z) : string := NilZero.string_of_int (Z.to_int z).

(** Lay out the digits [ds] with the decimal point after [decpt] digits, as
    [repr] does: positional when [-4 < decpt <= 16], exponent form
    otherwise. *)
Definition layout (ds : string) (decpt : Z) : string :=
  let n := Z.of_nat (String.length ds) in
  if (-4 <? decpt) && (decpt <=? 16) then
    if decpt <=? 0 then "0." ++ zeros (Z.to_nat (- decpt)) ++ ds
    else if n <=? decpt then ds ++ zeros (Z.to_nat (decpt - n)) ++ ".0"
    else substring 0 (Z.to_nat decpt) ds ++ "." ++
         substring (Z.to_nat decpt) (Z.to_nat (n - decpt)) ds
  else
    let x := decpt - 1 in
    let mant := if n <=? 1 then ds
                else substring 0 1 ds ++ "." ++ substring 1 (Z.to_nat (n - 1)) ds in
    let xs := dec (Z.abs x) in
    mant ++ "e" ++ (if x <? 0 then "-" else "+") ++
    (if Z.abs x <? 10 then "0" ++ xs else xs).

(** [repr(f)], which is also [str(f)]. *)
Definition repr (f : pyfloat) : string :=
  match f with
  | FZero s => if s then "-0.0" else "0.0"
  | FNum s m0 e0 =>
      let '(m, e) := canon m0 e0 in
      let '(a, b) := frac m e in
      let k := ilog10_ratio a b in
      let '(c, sc) := shortest 17 a b k m e 1 in
      let all := dec c in
      let decpt := Z.of_nat (String.length all) - sc in
      (if s then "-" else "") ++ layout (strip_trailing_zeros all) decpt
  end.

End Float.

(** ** Python values and the builtins the commands use *)

Module Py.

Export Float.

#[local] Set Warnings "-register-all".

(** Values as they come out of a JSON response.  A dictionary is the list of
    its items in insertion order (keys are strings and occur once). *)
Inductive pyval :=
| VNone
| VBool (b : bool)
| VInt (n : Z)
| VFloat (f : pyfloat)
| VStr (s : string)
| VList (items : list pyval)
| VDict (items : list (string * pyval)).

(** The exceptions the commands can meet; all are subclasses of
    [Exception]. *)
Inductive exn :=
| TransportError (msg : string)
| KeyError (key : pyval)
| IndexError
| TypeError
| AttributeError
| OverflowError
| IOError
| JSONDecodeError
| UnicodeDecodeError.

(** The result of a builtin: a value or a raised exception. *)
Inductive res (A : Type) :=
| Ok (a : A)
| Err (e : exn).
Arguments Ok {A} a.
Arguments Err {A} e.

(** An optional string argument as a value: [None] when absent. *)
Definition of_opt_str (o : option string) : pyval :=
  match o with Some s => VStr s | None => VNone end.

(** *** Dictionaries *)

Fixpoint dict_get (k : string) (d : list (string * pyval)) : option pyval :=
  match d with
  | [] => None
  | (k', v) :: d' => if String.eqb k k' then Some v else dict_get k d'
  end.

Definition dict_mem (k : string) (d : list (string * pyval)) : bool :=
  existsb (fun kv => String.eqb k (fst kv)) d.

(** [d[k] = v]: an existing key keeps its place, a new one goes last. *)
Fixpoint dict_set (k : string) (v : pyval) (d : list (string * pyval))
  : list (string * pyval) :=
  match d with
  | [] => [(k, v)]
  | (k', v') :: d' =>
      if String.eqb k k' then (k, v) :: d' else (k', v') :: dict_set k v d'
  end.

Definition dict_keys (d : list (string * pyval)) : list string := map fst d.
Definition dict_values (d : list (string * pyval)) : list pyval := map snd d.

(** *** Strings *)

(** [pat in s] *)
Fixpoint is_infix (pat s : string) : bool :=
  prefix pat s ||
  match s with
  | EmptyString => false
  | String _ s' => is_infix pat s'
  end.

(** The characters of [s], as a loop over a string visits them. *)
Fixpoint chars (s : string) : list pyval :=
  match s with
  | EmptyString => []
  | String c s' => VStr (String c EmptyString) :: chars s'
  end.

(** [s.replace(pat, rep)] for a non-empty [pat]: every occurrence, scanning
    from the left; [skip] counts the characters of a match still to drop. *)
Fixpoint replace_from (skip : nat) (pat rep s : string) : string :=
  match s with
  | EmptyString => EmptyString
  | String c s' =>
      match skip with
      | S n => replace_from n pat rep s'
      | O => if prefix pat s
             then rep ++ replace_from (Nat.pred (String.length pat)) pat rep s'
             else String c (replace_from O pat rep s')
      end
  end.

Definition replace (pat rep s : string) : string := replace_from O pat rep s.

(** *** Truth, identity and comparison *)

(** [bool(v)] *)
Definition truthy (v : pyval) : bool :=
  match v with
  | VNone => false
  | VBool b => b
  | VInt n => negb (n =? 0)
  | VFloat f => negb (is_zero f)
  | VStr s => negb (String.eqb s "")
  | VList l => match l with [] => false | _ => true end
  | VDict d => match d with [] => false | _ => true end
  end.

(** [v is None] *)
Definition is_none (v : pyval) : bool :=
  match v with VNone => true | _ => false end.

(** [v == 0] *)
Definition eq_zero (v : pyval) : bool :=
  match v with
  | VInt n => n =? 0
  | VBool b => negb b
  | VFloat f => is_zero f
  | _ => false
  end.

(** *** Containers *)

(** [v[k]] for a string key. *)
Definition getitem (v : pyval) (k : string) : res pyval :=
  match v with
  | VDict d => match dict_get k d with
               | Some x => Ok x
               | None => Err (KeyError (VStr k))
               end
  | _ => Err TypeError
  end.

(** [v[k] = x] for a string key; the updated object. *)
Definition setitem (v : pyval) (k : string) (x : pyval) : res pyval :=
  match v with
  | VDict d => Ok (VDict (dict_set k x d))
  | _ => Err TypeError
  end.

(** [v[0]] *)
Definition first (v : pyval) : res pyval :=
  match v with
  | VList l => match l with x :: _ => Ok x | [] => Err IndexError end
  | VStr s => match s with
              | String c _ => Ok (VStr (String c EmptyString))
              | EmptyString => Err IndexError
              end
  | VDict _ => Err (KeyError (VInt 0))
  | _ => Err TypeError
  end.

(** [len(v)] *)
Definition len (v : pyval) : res Z :=
  match v with
  | VList l => Ok (Z.of_nat (List.length l))
  | VDict d => Ok (Z.of_nat (List.length d))
  | VStr s => Ok (Z.of_nat (String.length s))
  | _ => Err TypeError
  end.

(** [k in v] for a string [k]. *)
Definition contains (k : string) (v : pyval) : res bool :=
  match v with
  | VDict d => Ok (dict_mem k d)
  | VList l => Ok (existsb (fun x => match x with
                                     | VStr s => String.eqb k s
                                     | _ => false
                                     end) l)
  | VStr s => Ok (is_infix k s)
  | _ => Err TypeError
  end.

(** [v.values()] *)
Definition values (v : pyval) : res (list pyval) :=
  match v with
  | VDict d => Ok (dict_values d)
  | _ => Err AttributeError
  end.

(** The elements a [for] loop over [v] visits. *)
Definition iter (v : pyval) : res (list pyval) :=
  match v with
  | VList l => Ok l
  | VDict d => Ok (map VStr (dict_keys d))
  | VStr s => Ok (chars s)
  | _ => Err TypeError
  end.

(** *** Arithmetic *)

Definition of_float_opt (o : option pyfloat) : res pyval :=
  match o with Some f => Ok (VFloat f) | None => Err OverflowError end.

(** [v / d] for a positive integer [d]. *)
Definition truediv (v : pyval) (d : positive) : res pyval :=
  match v with
  | VInt n => of_float_opt (int_truediv n d)
  | VBool b => of_float_opt (int_truediv (if b then 1 else 0) d)
  | VFloat f => of_float_opt (float_truediv f d)
  | _ => Err TypeError
  end.

(** [round(v, 1)] *)
Definition round_1 (v : pyval) : res pyval :=
  match v with
  | VInt n => Ok (VInt n)
  | VBool b => Ok (VInt (if b then 1 else 0))
  | VFloat f => of_float_opt (round1 f)
  | _ => Err TypeError
  end.

(** *** [str] and [repr] *)

Definition dquote : ascii := ascii_of_nat 34.

Definition hex_digit (n : N) : ascii :=
  match n with
  | 10%N => "a" | 11%N => "b" | 12%N => "c"
  | 13%N => "d" | 14%N => "e" | 15%N => "f"
  | _ => ascii_of_N (48 + n)
  end%char.

(** [c.isprintable()] for a character below 256: all but the two ranges of
    control characters, the no-break space and the soft hyphen. *)
Definition printable (c : ascii) : bool :=
  let n := N_of_ascii c in
  negb ((n <? 32) || ((127 <=? n) && (n <=? 160)) || (n =? 173))%N.

(** One character inside [repr] of a string: the backslash and the quote in
    use are escaped, tab, newline and return have their letters, and every
    other character that is not printable is written as [\xNN]. *)
Definition escape_char (quote c : ascii) : string :=
  let n := N_of_ascii c in
  if Ascii.eqb c "\" then "\\"
  else if Ascii.eqb c quote then String "\" (String c "")
  else if (n =? 9)%N then "\t"
  else if (n =? 10)%N then "\n"
  else if (n =? 13)%N then "\r"
  else if negb (printable c)
       then String "\" (String "x" (String (hex_digit (n / 16))
                                      (String (hex_digit (n mod 16)) "")))
  else String c "".

Fixpoint escape (quote : ascii) (s : string) : string :=
  match s with
  | EmptyString => EmptyString
  | String c s' => escape_char quote c ++ escape quote s'
  end.

(** [repr] of a string: single quotes, unless the text has a single quote
    and no double quote. *)
Definition str_repr (s : string) : string :=
  let q := if is_infix "'" s && negb (is_infix (String dquote "") s)
           then dquote else "'"%char in
  String q (escape q s) ++ String q "".

Fixpoint repr (v : pyval) : string :=
  match v with
  | VNone => "None"
  | VBool b => if b then "True" else "False"
  | VInt n => dec n
  | VFloat f => Float.repr f
  | VStr s => str_repr s
  | VList l => "[" ++ String.concat ", " (map repr l) ++ "]"
  | VDict d =>
      "{" ++ String.concat ", "
               (map (fun kv => str_repr (fst kv) ++ ": " ++ repr (snd kv)) d)
          ++ "}"
  end.

Definition str (v : pyval) : string :=
  match v with
  | VStr s => s
  | _ => repr v
  end.

End Py.

(** ** The world of a command and the command monad *)

Module Cli.

Export Py.

(** The calls on the API session's sub-clients. *)
Inductive api_call :=
| GroupDetail (gid : string) (fields : list string)
| GroupList (domain_name : string) (fields : list string)
| GroupCreate (domain_name name description : string) (is_active : bool)
| GroupUpdate (gid : string) (name description : option string)
              (is_active : option bool)
| GroupDelete (gid : string)
| GroupAddUsers (gid : string) (user_uuids : list string)
| GroupRemoveUsers (gid : string) (user_uuids : list string)
| AdminQuery (q : string) (v : pyval)
| ManagerStatus
| ManagerFreeze (force_kill : bool)
| ManagerUpdateAnnouncement (enabled : bool) (message : option string).

(** What a command does that can be observed from outside. *)
Inductive event :=
| SessionOpen
| SessionClose
| Call (c : api_call)
| Print (s : string)
| PrintStderr (s : string)
| PrintTable (rows : list (list pyval)) (headers : list string)
| PrintError (e : exn)
| PrintFail (s : string)
| PrintDone (s : string)
| PrintInfo (s : string)
| PrintWait (s : string)
| Sleep (seconds : Z)
| AskYn
| Edit (text : string)
| ReadState
| TruncateState
| WriteState (content : pyval).

(** The local [announcement.json], by what reading it gives: [open] fails
    ([Missing]: no such file, or one that cannot be opened), the bytes are
    not text in the encoding that [json] detects ([Undecodable]), the text
    is not JSON ([Unparseable]: also an empty file, or the beginning of a
    JSON text), or the file holds the JSON of [content]. *)
Inductive state_file :=
| Missing
| Undecodable
| Unparseable
| Json (content : pyval).

(** What writing the state file does: it goes through, [open(path, 'w')]
    fails and the file is left as it was, or the file is opened, which
    empties it, and the write into it fails. *)
Inductive write_result :=
| Writes
| OpenFails
| WriteFails.

(** The environment: [server] holds the replies of the API server to the
    calls to come, one per call, a reply being a value or a raised
    exception; a call on an empty script fails as a server that cannot be
    reached. *)
Record world := World {
  server : list (res pyval);
  yn_answer : bool;
  editor : option string;
  announcement_json : state_file;
  state_write : write_result
}.

(** How a piece of code ends: it returns, [sys.exit] unwinds the process, or
    an exception propagates. *)
Inductive outcome (A : Type) :=
| Return (a : A)
| Exit (code : Z)
| Raise (e : exn).
Arguments Return {A} a.
Arguments Exit {A} code.
Arguments Raise {A} e.

(** What running a piece of code in a world gives: the events in order,
    the world left behind and the way the code ended. *)
Record run (A : Type) := Run {
  events : list event;
  final : world;
  result : outcome A
}.
Arguments Run {A} events final result.
Arguments events {A} r.
Arguments final {A} r.
Arguments result {A} r.

Definition M (A : Type) : Type := world -> run A.

Definition ret {A} (a : A) : M A := fun w => Run [] w (Return a).

(** Sequencing: [k] runs only when [m] returns; an exit or an exception
    of [m] ends the whole. *)
Definition bind {A B} (m : M A) (k : A -> M B) : M B :=
  fun w =>
    match m w with
    | Run t w1 (Return a) =>
        match k a w1 with
        | Run t' w2 o => Run (t ++ t')%list w2 o
        end
    | Run t w1 (Exit c) => Run t w1 (Exit c)
    | Run t w1 (Raise e) => Run t w1 (Raise e)
    end.

Declare Scope cli_scope.
Delimit Scope cli_scope with cli.
Notation "x <- m ;; k" := (bind m (fun x => k))
  (at level 61, m at next level, right associativity) : cli_scope.
Notation "m ;; k" := (bind m (fun _ => k))
  (at level 61, right associativity) : cli_scope.
Open Scope cli_scope.

(** Produce one event. *)
Definition emit (e : event) : M unit := fun w => Run [e] w (Return tt).

(** [sys.exit(code)] *)
Definition exit {A} (code : Z) : M A := fun w => Run [] w (Exit code).

Definition raise {A} (e : exn) : M A := fun w => Run [] w (Raise e).

(** A builtin inside a command: its exception propagates. *)
Definition lift {A} (r : res A) : M A :=
  match r with Ok a => ret a | Err e => raise e end.

Definition when (b : bool) (m : M unit) : M unit := if b then m else ret tt.

(** [try: m except Exception as e: h e]; [SystemExit] is not an
    [Exception] and passes through. *)
Definition try_except {A} (m : M A) (h : exn -> M A) : M A :=
  fun w =>
    match m w with
    | Run t w1 (Raise e) =>
        match h e w1 with
        | Run t' w2 o => Run (t ++ t')%list w2 o
        end
    | r => r
    end.

(** [with Session() as session: body]: the session is closed on every way
    out of the body. *)
Definition with_session {A} (body : M A) : M A :=
  fun w =>
    match body w with
    | Run t w1 o => Run (SessionOpen :: t ++ [SessionClose])%list w1 o
    end.

(** One call on the session: the next scripted reply. *)
Definition call (c : api_call) : M pyval :=
  fun w =>
    match server w with
    | [] => Run [Call c] w (Raise (TransportError "no reply"))
    | reply :: rest =>
        let w' := World rest (yn_answer w) (editor w)
                        (announcement_json w) (state_write w) in
        Run [Call c] w' (match reply with
                         | Ok v => Return v
                         | Err e => Raise e
                         end)
    end.

(** [print_error(e); sys.exit(1)], the handler of every command. *)
Definition fail_with {A} (e : exn) : M A :=
  emit (PrintError e) ;; exit 1.

(** [ask_yn()] *)
Definition ask_yn : M bool :=
  fun w => Run [AskYn] w (Return (yn_answer w)).

(** [click.edit(text)] *)
Definition edit (text : string) : M (option string) :=
  fun w => Run [Edit text] w (Return (editor w)).

(** [with open(path, 'rb') as f: json.load(f)] *)
Definition load_state : M pyval :=
  fun w =>
    Run [ReadState] w
        (match announcement_json w with
         | Missing => Raise IOError
         | Undecodable => Raise UnicodeDecodeError
         | Unparseable => Raise JSONDecodeError
         | Json v => Return v
         end).

(** The world in which the state file is [file]. *)
Definition holding (file : state_file) (w : world) : world :=
  World (server w) (yn_answer w) (editor w) file (state_write w).

(** [open(path, 'w')]: the file is emptied as it is opened. *)
Definition open_state_w : M unit :=
  fun w =>
    match state_write w with
    | OpenFails => Run [] w (Raise IOError)
    | _ => Run [TruncateState] (holding Unparseable w) (Return tt)
    end.

(** [json.dump(state, f)] and the closing of [f]: the text reaches the file,
    or the write fails and the file stays without a JSON text. *)
Definition write_state (state : pyval) : M unit :=
  fun w =>
    match state_write w with
    | Writes => Run [WriteState state] (holding (Json state) w) (Return tt)
    | _ => Run [] w (Raise IOError)
    end.

(** [with open(path, 'w') as f: json.dump(state, f)] *)
Definition dump_state (state : pyval) : M unit :=
  open_state_w ;; write_state state.

Fixpoint fold_m {A S} (f : S -> A -> M S) (l : list A) (s : S) : M S :=
  match l with
  | [] => ret s
  | x :: l' => s' <- f s x ;; fold_m f l' s'
  end.

Fixpoint map_m {A B} (f : A -> M B) (l : list A) : M (list B) :=
  match l with
  | [] => ret []
  | x :: l' => y <- f x ;; ys <- map_m f l' ;; ret (y :: ys)
  end.

Fixpoint filter_m {A} (f : A -> M bool) (l : list A) : M (list A) :=
  match l with
  | [] => ret []
  | x :: l' => b <- f x ;; xs <- filter_m f l' ;; ret (if b then x :: xs else xs)
  end.

(** The exit status the shell sees: an uncaught exception ends the
    interpreter with status 1. *)
Definition exit_code {A} (o : outcome A) : Z :=
  match o with
  | Return _ => 0
  | Exit c => c
  | Raise _ => 1
  end.

(** The API calls among the events. *)
Definition calls (t : list event) : list api_call :=
  flat_map (fun e => match e with Call c => [c] | _ => [] end) t.

End Cli.

(** ** [cli/admin/groups.py] *)

Module Groups.

Export Cli.

(** The [(label, key)] pairs of [group] and [groups]. *)
Definition fields : list (string * string) :=
  [ ("ID", "id");
    ("Name", "name");
    ("Description", "description");
    ("Active?", "is_active");
    ("Created At", "created_at");
    ("Domain Name", "domain_name") ].

(** [group GID] *)
Definition group (gid : string) : M unit :=
  with_session (
    resp <- try_except (call (GroupDetail gid (map snd fields))) fail_with ;;
    if is_none resp then
      emit (Print "There is no such group.") ;; exit 1
    else
      rows <- fold_m (fun rows '(name, key) =>
                        present <- lift (contains key resp) ;;
                        if present : bool then
                          v <- lift (getitem resp key) ;;
                          ret (rows ++ [[VStr name; v]])%list
                        else ret rows)
                     fields [] ;;
      emit (PrintTable rows ["Field"; "Value"])).

(** [groups [-d DOMAIN_NAME]], the callback of the command group;
    [invoked_subcommand] is [ctx.invoked_subcommand]. *)
Definition groups (invoked_subcommand : option string)
                  (domain_name : option string) : M unit :=
  match invoked_subcommand with
  | Some _ => ret tt
  | None =>
      match domain_name with
      | None =>
          emit (Print ("Domain name should be given with " ++ String dquote "-d"
                       ++ String dquote " option. "
                       ++ "If you want to see help for groups command, append "
                       ++ String dquote "-h" ++ String dquote " option.")) ;;
          exit 1
      | Some domain_name =>
          with_session (
            resp <- try_except
                      (call (GroupList domain_name (map snd fields))) fail_with ;;
            n <- lift (len resp) ;;
            if n <? 1 then
              emit (Print "There is no group.")
            else
              row0 <- lift (first resp) ;;
              fields' <- filter_m (fun field => lift (contains (snd field) row0))
                                  fields ;;
              items <- lift (iter resp) ;;
              rows <- map_m (fun item => lift (values item)) items ;;
              emit (PrintTable rows (map fst fields')))
      end
  end.

(** [groups add DOMAIN_NAME NAME [-d DESCRIPTION] [-i]] *)
Definition add (domain_name name description : string) (inactive : bool)
  : M unit :=
  with_session (
    data <- try_except
              (call (GroupCreate domain_name name description (negb inactive)))
              fail_with ;;
    ok <- lift (getitem data "ok") ;;
    if negb (truthy ok) then
      msg <- lift (getitem data "msg") ;;
      emit (PrintFail ("Group creation has failed: " ++ str msg)) ;;
      exit 1
    else
      item <- lift (getitem data "group") ;;
      item_name <- lift (getitem item "name") ;;
      item_domain <- lift (getitem item "domain_name") ;;
      emit (Print ("Group name " ++ str item_name ++ " is created in domain "
                   ++ str item_domain ++ "."))).

(** [groups update GROUP_ID [-n NAME] [-d DESCRIPTION] [--is-active BOOL]] *)
Definition update (gid : string) (name description : option string)
                  (is_active : option bool) : M unit :=
  with_session (
    data <- try_except (call (GroupUpdate gid name description is_active))
                       fail_with ;;
    ok <- lift (getitem data "ok") ;;
    if negb (truthy ok) then
      msg <- lift (getitem data "msg") ;;
      emit (PrintFail ("Group update has failed: " ++ str msg)) ;;
      exit 1
    else
      emit (Print ("Group " ++ str (of_opt_str name) ++ " is updated."))).

(** [groups delete GROUP_ID] *)
Definition delete (gid : string) : M unit :=
  with_session (
    data <- try_except (call (GroupDelete gid)) fail_with ;;
    ok <- lift (getitem data "ok") ;;
    if negb (truthy ok) then
      msg <- lift (getitem data "msg") ;;
      emit (PrintFail ("Group deletion has failed: " ++ str msg)) ;;
      exit 1
    else
      emit (Print ("Group is deleted: " ++ gid ++ "."))).

(** [groups add-users GROUP_ID USER_UUIDS...] *)
Definition add_users (gid : string) (user_uuids : list string) : M unit :=
  with_session (
    data <- try_except (call (GroupAddUsers gid user_uuids)) fail_with ;;
    ok <- lift (getitem data "ok") ;;
    if negb (truthy ok) then
      msg <- lift (getitem data "msg") ;;
      emit (PrintFail ("Error on adding users to group: " ++ str msg)) ;;
      exit 1
    else
      emit (Print "Users are added to the group")).

(** [groups remove-users GROUP_ID USER_UUIDS...] *)
Definition remove_users (gid : string) (user_uuids : list string) : M unit :=
  with_session (
    data <- try_except (call (GroupRemoveUsers gid user_uuids)) fail_with ;;
    ok <- lift (getitem data "ok") ;;
    if negb (truthy ok) then
      msg <- lift (getitem data "msg") ;;
      emit (PrintFail ("Error on removing users to group: " ++ str msg)) ;;
      exit 1
    else
      emit (Print "Users are removed from the group")).

End Groups.

(** ** [cli/admin/sessions.py] *)

Module Sessions.

Export Cli.

(** The parsed arguments of [sessions]. *)
Record sessions_args := {
  status : string;
  access_key : option string
}.

(** The [choices] of [--status]. *)
Definition status_choices : list string :=
  [ "PREPARING"; "BUILDING"; "RUNNING"; "RESTARTING"; "RESIZING";
    "SUSPENDED"; "TERMINATING"; "TERMINATED"; "ERROR"; "ALL" ].

(** [sessions.add_argument('--status', default='RUNNING', choices=...)] and
    [sessions.add_argument('--access-key', default=None)]: the namespace the
    parser builds from what the command line gives; a value outside the
    choices is a usage error. *)
Definition parse_args (status_opt access_key_opt : option string)
  : option sessions_args :=
  match status_opt with
  | None => Some {| status := "RUNNING"; access_key := access_key_opt |}
  | Some s =>
      if existsb (String.eqb s) status_choices
      then Some {| status := s; access_key := access_key_opt |}
      else None
  end.

(** The [(label, key)] pairs of [sessions]. *)
Definition sessions_fields : list (string * string) :=
  [ ("Session ID", "sess_id");
    ("Lang/runtime", "lang");
    ("Tag", "tag");
    ("Created At", "created_at");
    ("Terminated At", "terminated_at");
    ("Status", "status");
    ("CPU Cores", "cpu_slot");
    ("CPU Used (ns)", "cpu_used");
    ("Total Memory (MiB)", "mem_slot");
    ("Used Memory (MiB)", "mem_cur_bytes");
    ("GPU Cores", "gpu_slot") ].

(** The query text [q] of [sessions]. *)
Definition sessions_query (args : sessions_args) : string :=
  let q := match access_key args with
           | None => "query($status:String) {"
                     ++ "  compute_sessions(status:$status) { $fields }"
                     ++ "}"
           | Some _ => "query($ak:String, $status:String) {"
                       ++ "  compute_sessions(access_key:$ak, status:$status) { $fields }"
                       ++ "}"
           end in
  replace "$fields" (String.concat " " (map snd sessions_fields)) q.

(** The variables [v] of [sessions]. *)
Definition sessions_variables (args : sessions_args) : pyval :=
  VDict [ ("status", if negb (String.eqb (status args) "ALL")
                     then VStr (status args) else VNone);
          ("ak", of_opt_str (access_key args)) ].

(** The body of the loop of [sessions]:
    [item['mem_cur_bytes'] = round(item['mem_cur_bytes'] / 2 ** 20, 1)];
    the item after the assignment. *)
Definition convert_item (item : pyval) : M pyval :=
  cur <- lift (getitem item "mem_cur_bytes") ;;
  mib <- lift (truediv cur (2 ^ 20)) ;;
  rounded <- lift (round_1 mib) ;;
  lift (setitem item "mem_cur_bytes" rounded).

(** [sessions [--status S] [--access-key K]] *)
Definition sessions (args : sessions_args) : M unit :=
  let q := sessions_query args in
  let v := sessions_variables args in
  with_session (
    resp <- try_except (call (AdminQuery q v)) fail_with ;;
    cs <- lift (getitem resp "compute_sessions") ;;
    n <- lift (len cs) ;;
    if n =? 0 then
      emit (Print "There are no compute sessions currently running.")
    else
      items <- lift (iter cs) ;;
      items' <- map_m convert_item items ;;
      rows <- map_m (fun item => lift (values item)) items' ;;
      emit (PrintTable rows (map fst sessions_fields))).

(** The [(label, key)] pairs of [session]. *)
Definition session_fields : list (string * string) :=
  [ ("Session ID", "sess_id");
    ("Role", "role");
    ("Lang/runtime", "lang");
    ("Tag", "tag");
    ("Created At", "created_at");
    ("Terminated At", "terminated_at");
    ("Agent", "agent");
    ("Status", "status");
    ("Status Info", "status_info");
    ("CPU Cores", "cpu_slot");
    ("CPU Used (ns)", "cpu_used");
    ("Total Memory (MiB)", "mem_slot");
    ("Used Memory (MiB)", "mem_cur_bytes");
    ("Max Used Memory (MiB)", "mem_max_bytes");
    ("GPU Cores", "gpu_slot");
    ("Number of Queries", "num_queries");
    ("Network RX Bytes", "net_rx_bytes");
    ("Network TX Bytes", "net_tx_bytes");
    ("IO Read Bytes", "io_read_bytes");
    ("IO Write Bytes", "io_write_bytes");
    ("IO Max Scratch Size", "io_max_scratch_size");
    ("IO Current Scratch Size", "io_cur_scratch_size") ].

(** The query text [q] of [session]. *)
Definition session_query : string :=
  replace "$fields" (String.concat " " (map snd session_fields))
          ("query($sess_id:String) {"
           ++ "  compute_session(sess_id:$sess_id) { $fields }"
           ++ "}").

Definition newline : string := String (ascii_of_nat 10) "".

(** The body of the loop of [session]: line [i] of the detail. *)
Definition session_line (i : nat) (value : pyval) : M unit :=
  match nth_error session_fields i with
  | None => raise IndexError
  | Some (label, key) =>
      value' <- (if existsb (String.eqb key) ["mem_cur_bytes"; "mem_max_bytes"]
                 then mib <- lift (truediv value (2 ^ 20)) ;; lift (round_1 mib)
                 else ret value) ;;
      emit (Print (label ++ ": " ++ str value'))
  end.

(** [for i, value in enumerate(vals)], from index [i] on. *)
Fixpoint session_lines (i : nat) (vals : list pyval) : M unit :=
  match vals with
  | [] => ret tt
  | value :: vals' => session_line i value ;; session_lines (S i) vals'
  end.

(** [session NAME] *)
Definition session (sess_id_or_alias : string) : M unit :=
  let v := VDict [("sess_id", VStr sess_id_or_alias)] in
  with_session (
    resp <- try_except (call (AdminQuery session_query v)) fail_with ;;
    cs <- lift (getitem resp "compute_session") ;;
    sess_id <- lift (getitem cs "sess_id") ;;
    if is_none sess_id then
      emit (Print "There is no such running compute session.")
    else
      emit (Print ("Session detail:" ++ newline ++ "---------------")) ;;
      vals <- lift (values cs) ;;
      session_lines 0 vals).

End Sessions.

(** ** [cli/manager.py] *)

Module Manager.

Export Cli.

(** The [while True] loop of [freeze --wait].  Every turn takes one reply
    off the server's script, so [fuel] turns are enough when [fuel] exceeds
    the length of the script. *)
Fixpoint wait_loop (fuel : nat) : M unit :=
  match fuel with
  | O => raise (TransportError "no reply")
  | S fuel' =>
      resp <- call ManagerStatus ;;
      active_sessions_num <- lift (getitem resp "active_sessions") ;;
      if eq_zero active_sessions_num then ret tt
      else
        emit (PrintWait ("Waiting for all sessions terminated... ("
                         ++ str active_sessions_num ++ " left)")) ;;
        emit (Sleep 3) ;;
        wait_loop fuel'
  end.

(** [manager freeze [--wait] [--force-kill]] *)
Definition freeze (wait force_kill : bool) : M unit :=
  if wait && force_kill then
    emit (PrintStderr ("You cannot use both --wait and --force-kill options "
                       ++ "at the same time."))
  else
    try_except
      (with_session (
         when wait
           (fun w => (wait_loop (S (List.length (server w))) ;;
                      emit (PrintDone "All sessions are terminated.")) w) ;;
         when force_kill (emit (PrintWait "Killing all sessions...")) ;;
         call (ManagerFreeze force_kill) ;;
         when force_kill (emit (PrintDone "All sessions are killed.")) ;;
         emit (Print "Manager is successfully frozen.")))
      fail_with.

(** [announcement update [-m MESSAGE]] *)
Definition update (message : option string) : M unit :=
  try_except
    (with_session (
       message <- match message with
                  | None => edit "<!-- Use Markdown format to edit the announcement message -->"
                  | Some m => ret (Some m)
                  end ;;
       match message with
       | None => emit (PrintInfo "Cancelled") ;; exit 1
       | Some m =>
           call (ManagerUpdateAnnouncement true (Some m)) ;; ret tt
       end) ;;
     emit (PrintDone "Posted new announcement."))
    fail_with.

(** [announcement dismiss] *)
Definition dismiss : M unit :=
  yes <- ask_yn ;;
  if negb yes then
    emit (PrintInfo "Cancelled.") ;; exit 1
  else
    try_except
      (state <- load_state ;;
       state' <- lift (setitem state "dismissed" (VBool true)) ;;
       dump_state state' ;;
       emit (PrintDone "Dismissed the last shown announcement."))
      (fun e =>
         match e with
         | IOError | JSONDecodeError =>
             emit (PrintFail "No announcements seen yet.") ;; exit 1
         | _ => fail_with e
         end).

End Manager.

(** ** [cli/manager.py], the commands on calls already met *)

Module ManagerRest.

Export Cli.

(** [manager status] *)
Definition status : M unit :=
  try_except
    (with_session (
       resp <- call ManagerStatus ;;
       st <- lift (getitem resp "status") ;;
       active <- lift (getitem resp "active_sessions") ;;
       emit (PrintTable [[st; active]] ["Status"; "Active Sessions"])))
    fail_with.

(** [announcement delete] *)
Definition delete : M unit :=
  yes <- ask_yn ;;
  if negb yes then
    emit (PrintInfo "Cancelled.") ;; exit 1
  else
    try_except
      (with_session (call (ManagerUpdateAnnouncement false None) ;; ret tt) ;;
       emit (PrintDone "Deleted announcement."))
      fail_with.

End ManagerRest.

(** ** [cli/manager.py], the commands on further calls *)

Module ManagerMore.

Export Cli.

(** The calls of [unfreeze], [announcement get], the scheduler commands and
    [get-resources]. *)
Inductive more_call :=
| ManagerUnfreeze
| ManagerGetAnnouncement
| ManagerSchedulerOp (op : string) (agent_ids : list string)
| ResourceGetAvailableResources (scaling_group group : string).

(** The events of these commands: those of the other commands, their own
    calls and [print_warn]. *)
Inductive more_event :=
| Core (e : event)
| CallMore (c : more_call)
| PrintWarn (s : string).

(** How these commands end: as the others do, or by [click.Abort]. *)
Inductive ending (A : Type) :=
| Returns (a : A)
| Exits (code : Z)
| Raises (e : exn)
| Aborts.
Arguments Returns {A} a.
Arguments Exits {A} code.
Arguments Raises {A} e.
Arguments Aborts {A}.

Record trace (A : Type) := Trace {
  shown : list more_event;
  after : world;
  ended : ending A
}.
Arguments Trace {A} shown after ended.
Arguments shown {A} t.
Arguments after {A} t.
Arguments ended {A} t.

Definition MM (A : Type) : Type := world -> trace A.

Definition more_ret {A} (a : A) : MM A := fun w => Trace [] w (Returns a).

Definition more_bind {A B} (m : MM A) (k : A -> MM B) : MM B :=
  fun w =>
    match m w with
    | Trace t w1 (Returns a) =>
        match k a w1 with
        | Trace t' w2 o => Trace (t ++ t')%list w2 o
        end
    | Trace t w1 (Exits c) => Trace t w1 (Exits c)
    | Trace t w1 (Raises e) => Trace t w1 (Raises e)
    | Trace t w1 Aborts => Trace t w1 Aborts
    end.

Declare Scope more_scope.
Delimit Scope more_scope with more.
Notation "x <- m ;; k" := (more_bind m (fun x => k))
  (at level 61, m at next level, right associativity) : more_scope.
Notation "m ;; k" := (more_bind m (fun _ => k))
  (at level 61, right associativity) : more_scope.
Open Scope more_scope.

(** A piece of code written with the events of the other commands. *)
Definition core {A} (m : M A) : MM A :=
  fun w =>
    match m w with
    | Run t w1 o =>
        Trace (map Core t) w1
              (match o with
               | Return a => Returns a
               | Exit c => Exits c
               | Raise e => Raises e
               end)
    end.

(** [print(s)] *)
Definition say (s : string) : MM unit := core (emit (Print s)).

(** [raise click.Abort()] *)
Definition abort {A} : MM A := fun w => Trace [] w Aborts.

(** [try: m except Exception as e: h e]; [click.Abort] is an [Exception]
    too, but no command here raises it inside a [try]. *)
Definition more_try {A} (m : MM A) (h : exn -> MM A) : MM A :=
  fun w =>
    match m w with
    | Trace t w1 (Raises e) =>
        match h e w1 with
        | Trace t' w2 o => Trace (t ++ t')%list w2 o
        end
    | r => r
    end.

(** [with Session() as session: body] *)
Definition more_session {A} (body : MM A) : MM A :=
  fun w =>
    match body w with
    | Trace t w1 o =>
        Trace (Core SessionOpen :: t ++ [Core SessionClose])%list w1 o
    end.

(** One further call on the session: the next scripted reply. *)
Definition more_call_ (c : more_call) : MM pyval :=
  fun w =>
    match server w with
    | [] => Trace [CallMore c] w (Raises (TransportError "no reply"))
    | reply :: rest =>
        let w' := World rest (yn_answer w) (editor w)
                        (announcement_json w) (state_write w) in
        Trace [CallMore c] w' (match reply with
                               | Ok v => Returns v
                               | Err e => Raises e
                               end)
    end.

(** [print_error(e); sys.exit(1)] *)
Definition more_fail {A} (e : exn) : MM A := core (fail_with e).

Fixpoint more_each {A} (l : list A) (body : A -> MM unit) : MM unit :=
  match l with
  | [] => more_ret tt
  | x :: l' => body x ;; more_each l' body
  end.

(** *** Builtins *)

(** [v.get(k, default)] *)
Definition get_default (v : pyval) (k : string) (default : pyval) : res pyval :=
  match v with
  | VDict d => Ok (match dict_get k d with Some x => x | None => default end)
  | _ => Err AttributeError
  end.

(** [v.keys()] *)
Definition keys (v : pyval) : res (list string) :=
  match v with
  | VDict d => Ok (dict_keys d)
  | _ => Err AttributeError
  end.

(** [v[k1][k2]...], the subscripts taken from the left. *)
Fixpoint path (v : pyval) (ks : list string) : res pyval :=
  match ks with
  | [] => Ok v
  | k :: ks' => match getitem v k with
                | Ok x => path x ks'
                | Err e => Err e
                end
  end.

(** [print(label, ret[k1][k2]...)]: the two arguments with a space between. *)
Definition say_at (label : string) (ret : pyval) (ks : list string) : MM unit :=
  x <- core (lift (path ret ks)) ;;
  say (label ++ " " ++ str x).

(** *** The commands *)

(** [manager unfreeze] *)
Definition unfreeze : MM unit :=
  more_try
    (more_session (
       more_call_ ManagerUnfreeze ;;
       say "Manager is successfully unfrozen."))
    more_fail.

(** [announcement get] *)
Definition get : MM unit :=
  more_try
    (more_session (
       result <- more_call_ ManagerGetAnnouncement ;;
       enabled <- core (lift (get_default result "enabled" (VBool false))) ;;
       if truthy enabled then
         msg <- core (lift (get_default result "message" VNone)) ;;
         say (str msg)
       else
         say "No announcements."))
    more_fail.

(** [manager scheduler include-agents AGENT_IDS...] *)
Definition include_agents (agent_ids : list string) : MM unit :=
  more_try
    (more_session (
       more_call_ (ManagerSchedulerOp "include-agents" agent_ids) ;; more_ret tt) ;;
     core (emit (PrintDone "The given agents now accepts new sessions.")))
    more_fail.

(** [manager scheduler exclude-agents AGENT_IDS...] *)
Definition exclude_agents (agent_ids : list string) : MM unit :=
  more_try
    (more_session (
       more_call_ (ManagerSchedulerOp "exclude-agents" agent_ids) ;; more_ret tt) ;;
     core (emit (PrintDone "The given agents will no longer start new sessions.")))
    more_fail.

(** The seven lines of [get_resources] for the scaling group [x]. *)
Definition scaling_group_block (ret : pyval) (x : string) : MM unit :=
  say ("  [" ++ x ++ "]") ;;
  say "    Using:" ;;
  say_at "      CPU:" ret ["scaling_groups"; x; "using"; "cpu"] ;;
  say_at "      Memory:" ret ["scaling_groups"; x; "using"; "mem"] ;;
  say "    Remaining:" ;;
  say_at "      CPU:" ret ["scaling_groups"; x; "remaining"; "cpu"] ;;
  say_at "      Memory:" ret ["scaling_groups"; x; "remaining"; "mem"].

(** [get-resources [SCALING_GROUP] [GROUP] [-a]]; [endpoint_type] is
    [get_config().endpoint_type]. *)
Definition get_resources (endpoint_type : string)
                         (scaling_group group : string) (all : bool) : MM unit :=
  if negb (String.eqb endpoint_type "session") then
    (fun w => Trace [PrintWarn ("To use get-resources, your endpoint type must be "
                                ++ String dquote "session" ++ String dquote ".")]
                    w (Returns tt)) ;;
    abort
  else
    more_session (
      ret <- more_call_ (ResourceGetAvailableResources scaling_group group) ;;
      say ("Total remaining resources of scaling group [" ++ scaling_group ++ "]:") ;;
      say_at "  CPU:" ret ["scaling_group_remaining"; "cpu"] ;;
      say_at "  Memory:" ret ["scaling_group_remaining"; "mem"] ;;
      say "Each resources of scaling groups:" ;;
      (if negb all then
         scaling_group_block ret scaling_group
       else
         sgs <- core (lift (getitem ret "scaling_groups")) ;;
         xs <- core (lift (keys sgs)) ;;
         more_each xs (scaling_group_block ret)) ;;
      say "Group limits:" ;;
      say_at "  CPU:" ret ["group_limits"; "cpu"] ;;
      say_at "  Memory:" ret ["group_limits"; "mem"] ;;
      say "Group using:" ;;
      say_at "  CPU:" ret ["group_using"; "cpu"] ;;
      say_at "  Memory:" ret ["group_using"; "mem"] ;;
      say "Group remaining:" ;;
      say_at "  CPU:" ret ["group_remaining"; "cpu"] ;;
      say_at "  Memory:" ret ["group_remaining"; "mem"]).

End ManagerMore.

(** * Vocabulary of the properties *)

Import Cli.

(** ** Messages and calls *)

Definition guidance : string :=
  "Domain name should be given with " ++ String dquote "-d" ++ String dquote
  " option. If you want to see help for groups command, append "
  ++ String dquote "-h" ++ String dquote " option.".

Definition both_flags_message : string :=
  "You cannot use both --wait and --force-kill options at the same time.".

Definition no_such_session : string :=
  "There is no such running compute session.".

Definition editor_template : string :=
  "<!-- Use Markdown format to edit the announcement message -->".

(** The one call of [session NAME]. *)
Definition session_call (name : string) : api_call :=
  AdminQuery Sessions.session_query (VDict [("sess_id", VStr name)]).

(** ** Runs *)

(** A run that reports a failure: within the session, after the call [c],
    one failure message that contains [msg], and exit status 1. *)
Definition reports_failure (r : run unit) (c : api_call) (msg : string) : Prop :=
  exists text,
    is_infix msg text = true /\
    events r = [SessionOpen; Call c; PrintFail text; SessionClose] /\
    result r = Exit 1.

(** The world once the first scripted reply is consumed. *)
Definition answered (w : world) (rest : list (res pyval)) : world :=
  World rest (yn_answer w) (editor w) (announcement_json w) (state_write w).

(** The events of one turn of the polling loop that finds [n] sessions. *)
Definition waiting (n : Z) : list event :=
  [ Call ManagerStatus;
    PrintWait ("Waiting for all sessions terminated... (" ++ dec n ++ " left)");
    Sleep 3 ].

(** The requested fields that the row [row0] has. *)
Definition present (row0 : list (string * pyval)) : list (string * string) :=
  filter (fun field => dict_mem (snd field) row0) Groups.fields.

(** The lines of the detail for the values [vals], taken in the order of the
    field list. *)
Definition detail_lines (vals : list pyval) : list event :=
  map (fun fv => Print (fst (fst fv) ++ ": " ++ str (snd fv)))
      (combine Sessions.session_fields vals).

(** ** Bytes to MiB *)

(** [round(b / 2 ** 20, 1)] for an integer [b]. *)
Definition round_mib (b : Z) : res pyval :=
  match truediv (VInt b) (2 ^ 20) with
  | Ok x => round_1 x
  | Err e => Err e
  end.

(** [row'] is [row] with its count of bytes under [key] turned into MiB. *)
Definition converted (key : string) (row row' : list (string * pyval)) : Prop :=
  exists b x,
    0 <= b /\
    dict_get key row = Some (VInt b) /\
    round_mib b = Ok x /\
    row' = dict_set key x row.

(** The float 1.5. *)
Definition one_and_a_half : pyfloat := FNum false 3 (-1).

(** [k] tenths are [b / 2^20] rounded to one decimal: no number of tenths is
    nearer to the exact quotient, and of two that are as near [k] is the
    even one. *)
Definition tenths_of_mib (b k : Z) : Prop :=
  2 * Z.abs (10 * b - k * 2 ^ 20) <= 2 ^ 20 /\
  (2 * Z.abs (10 * b - k * 2 ^ 20) = 2 ^ 20 -> Z.even k = true).

(** The finite binary64 numbers: a significand below [2^53], an exponent
    from [-1074] on, a value below [2^1024]. *)
Definition binary64 (f : pyfloat) : Prop :=
  match f with
  | FZero _ => True
  | FNum _ m e =>
      Zpos m < 2 ^ 53 /\ -1074 <= e /\ Zpos m * 2 ^ (e + 1074) < 2 ^ 2098
  end.

(** The value of a binary64 number, counted in units of [2^-1074]. *)
Definition units (f : pyfloat) : Z :=
  match f with
  | FZero _ => 0
  | FNum neg m e => (if neg then -1 else 1) * (Zpos m * 2 ^ (e + 1074))
  end.

(** The sign bit. *)
Definition negative (f : pyfloat) : bool :=
  match f with FZero neg => neg | FNum neg _ _ => neg end.

(** [x] is the float of [k] tenths: a binary64 number without the sign bit
    that is nearer to [k / 10] than every other binary64 number. *)
Definition float_of_tenths (k : Z) (x : pyfloat) : Prop :=
  binary64 x /\ negative x = false /\
  forall y, binary64 y -> units y <> units x ->
    Z.abs (10 * units x - k * 2 ^ 1074) < Z.abs (10 * units y - k * 2 ^ 1074).

(** [x] is [b] bytes in MiB in the exact sense: the exact quotient by
    [2^20], rounded to one decimal, as a float. *)
Definition exact_mib (b : Z) (x : pyfloat) : Prop :=
  exists k, tenths_of_mib b k /\ float_of_tenths k x.

(** [x] is the float of [a / b]: a binary64 number without the sign bit, no
    binary64 number is nearer to [a / b], and of two that are as near [x]
    is the one that is an even multiple of their distance. *)
Definition nearest_binary64 (a b : Z) (x : pyfloat) : Prop :=
  binary64 x /\ negative x = false /\
  forall y, binary64 y ->
    Z.abs (b * units x - a * 2 ^ 1074) <= Z.abs (b * units y - a * 2 ^ 1074) /\
    (Z.abs (b * units x - a * 2 ^ 1074) = Z.abs (b * units y - a * 2 ^ 1074) ->
     units y <> units x ->
     Z.even (units x / (units y - units x)) = true).

(** [k] tenths are the float [y] rounded to one decimal: no number of tenths
    is nearer to it, and of two that are as near [k] is the even one. *)
Definition tenths_of_float (y : pyfloat) (k : Z) : Prop :=
  2 * Z.abs (10 * units y - k * 2 ^ 1074) <= 2 ^ 1074 /\
  (2 * Z.abs (10 * units y - k * 2 ^ 1074) = 2 ^ 1074 -> Z.even k = true).

(** [x] is what the interpreter makes of [round(b / 2 ** 20, 1)]: the
    quotient as a float, that float in tenths, the tenths as a float. *)
Definition float_mib (b : Z) (x : pyfloat) : Prop :=
  exists y k,
    nearest_binary64 b (2 ^ 20) y /\
    tenths_of_float y k /\
    nearest_binary64 k 10 x.

(** From this count of bytes on the quotient by [2^20] rounds to [2^1024],
    which is no float. *)
Definition overflowing : Z := 2 ^ 1044 - 2 ^ 990.

(** [x] is [b] bytes in MiB: what the interpreter makes of
    [round(b / 2 ** 20, 1)], which below [2^53] bytes is the exact quotient
    rounded to one decimal. *)
Definition mib (b : Z) (x : pyfloat) : Prop :=
  float_mib b x /\ (b < 2 ^ 53 -> exact_mib b x).

(** A row with a count of bytes under [key] that the division can take. *)
Definition counted (key : string) (row : list (string * pyval)) : Prop :=
  exists b, 0 <= b < overflowing /\ dict_get key row = Some (VInt b).

(** [row'] is [row] with the count of bytes under [key] in MiB. *)
Definition in_mib (key : string) (row row' : list (string * pyval)) : Prop :=
  exists b x,
    dict_get key row = Some (VInt b) /\
    mib b x /\
    row' = dict_set key (VFloat x) row.

(** What a count of [b] bytes is shown as. *)
Definition renders (b : Z) (text : string) : Prop :=
  exists x, round_mib b = Ok (VFloat x) /\ mib b x /\ str (VFloat x) = text.

(** ** Replies and worlds of the examples *)

Definition denied_reply : pyval :=
  VDict [("ok", VBool false); ("msg", VStr "permission denied")].

Definition status_report (n : Z) : pyval :=
  VDict [("status", VStr "running"); ("active_sessions", VInt n)].

(** A manager with two sessions, then one, then none. *)
Definition draining : world :=
  World [Ok (status_report 2); Ok (status_report 1); Ok (status_report 0); Ok VNone]
        true None Missing Writes.

(** A reply whose [sess_id] is the empty string. *)
Definition empty_id_world : world :=
  World [Ok (VDict [("compute_session", VDict [("sess_id", VStr "")])])]
        true None Missing Writes.

(** A reply for a session that does not exist. *)
Definition absent_reply : pyval :=
  VDict [("compute_session", VDict [("sess_id", VNone); ("role", VNone)])].

(** A state file written when an announcement was shown. *)
Definition seen_world : world :=
  World [] true None
        (Json (VDict [("id", VInt 7); ("dismissed", VBool false)])) Writes.

(** A state file whose bytes are not text. *)
Definition garbled_world : world :=
  World [] true None Undecodable Writes.

(** A state file that holds an object and cannot be opened for writing. *)
Definition read_only_world : world :=
  World [] true None (Json (VDict [("id", VInt 7)])) OpenFails.

(** A listing whose only row has one of the requested fields. *)
Definition short_rows : world :=
  World [Ok (VList [VDict [("id", VStr "g1")]])] true None Missing Writes.

(** A listing whose second row has a field that the first row lacks. *)
Definition uneven_rows : world :=
  World [Ok (VList [ VDict [("id", VStr "g1"); ("name", VStr "dev")];
                     VDict [("id", VStr "g2"); ("description", VStr "ops")] ])]
        true None Missing Writes.

(** A listing whose first row has a field that was not requested. *)
Definition wide_rows : world :=
  World [Ok (VList [VDict [("id", VStr "g1"); ("owner", VStr "kim")]])]
        true None Missing Writes.

(** One running session that uses 1.5 MiB. *)
Definition one_session : world :=
  World [Ok (VDict [("compute_sessions",
                     VList [VDict [ ("sess_id", VStr "s1");
                                    ("mem_cur_bytes", VInt 1572864) ]])])]
        true None Missing Writes.

(** The detail of one session that uses 1 MiB and has used 1.5 MiB. *)
Definition detail_reply : list (string * pyval) :=
  [ ("sess_id", VStr "s1"); ("role", VStr "master");
    ("lang", VStr "python:3.6"); ("tag", VNone);
    ("created_at", VStr "2019-03-01T10:00:00"); ("terminated_at", VNone);
    ("agent", VStr "i-agent01"); ("status", VStr "RUNNING");
    ("status_info", VNone); ("cpu_slot", VInt 1); ("cpu_used", VInt 2500);
    ("mem_slot", VInt 1024); ("mem_cur_bytes", VInt 1048576);
    ("mem_max_bytes", VInt 1572864); ("gpu_slot", VInt 0);
    ("num_queries", VInt 3); ("net_rx_bytes", VInt 0); ("net_tx_bytes", VInt 0);
    ("io_read_bytes", VInt 4096); ("io_write_bytes", VInt 0);
    ("io_max_scratch_size", VInt 0); ("io_cur_scratch_size", VInt 0) ].

Definition detail_world : world :=
  World [Ok (VDict [("compute_session", VDict detail_reply)])]
        true None Missing Writes.

(** One session whose count of bytes is the first that is too large. *)
Definition huge_session : world :=
  World [Ok (VDict [("compute_sessions",
                     VList [VDict [ ("sess_id", VStr "s1");
                                    ("mem_cur_bytes", VInt overflowing) ]])])]
        true None Missing Writes.

(** ** Vocabulary of the further properties *)

(** The run of a command whose one call [c] fails with the exception [e]
    inside the session: the error is printed and the process exits with
    status 1. *)
Definition call_failed (c : api_call) (e : exn) (w : world)
                       (rest : list (res pyval)) : run unit :=
  Run [SessionOpen; Call c; PrintError e; SessionClose] (answered w rest) (Exit 1).

(** A piece of code that makes no API call, however it ends. *)
Definition quiet {A} (m : M A) : Prop :=
  forall w, calls (events (m w)) = [].

(** The rows of [group]: one per requested field that the reply has. *)
Definition detail_rows (d : list (string * pyval))
                       (fields : list (string * string)) : list (list pyval) :=
  flat_map (fun field => match dict_get (snd field) d with
                         | Some v => [[VStr (fst field); v]]
                         | None => []
                         end) fields.

(** The run of a command whose reply cannot be read: the exception [e]
    leaves the session and nothing is printed. *)
Definition reply_unreadable (c : api_call) (e : exn) (w : world)
                            (rest : list (res pyval)) : run unit :=
  Run [SessionOpen; Call c; SessionClose] (answered w rest) (Raise e).

(** The run of a command that prints the line [text] after its call [c] and
    returns. *)
Definition confirmed (c : api_call) (text : string) (w : world)
                     (rest : list (res pyval)) : run unit :=
  Run [SessionOpen; Call c; Print text; SessionClose] (answered w rest) (Return tt).

(** A reply that a mutation cannot read: [ok] missing, or [ok] false and
    [msg] missing; [e] is the exception of the failing subscript. *)
Definition unreadable (data : pyval) (e : exn) : Prop :=
  getitem data "ok" = Err e \/
  (exists ok, getitem data "ok" = Ok ok /\ truthy ok = false /\
              getitem data "msg" = Err e).

(** A row of [sessions] whose count of bytes cannot be turned into MiB:
    the key is missing, or its value does not divide; [e] is the exception
    of the loop body. *)
Definition unconvertible (row : list (string * pyval)) (e : exn) : Prop :=
  (dict_get "mem_cur_bytes" row = None /\ e = KeyError (VStr "mem_cur_bytes")) \/
  (exists v, dict_get "mem_cur_bytes" row = Some v /\ truediv v (2 ^ 20) = Err e).

(** The value [session] shows for [v] under the field [key]: MiB for the two
    counts of bytes, the value itself otherwise. *)
Definition shown_value (key : string) (v : pyval) : res pyval :=
  if existsb (String.eqb key) ["mem_cur_bytes"; "mem_max_bytes"]
  then match truediv v (2 ^ 20) with
       | Ok mib => round_1 mib
       | Err e => Err e
       end
  else Ok v.

(** The detail of the values [vals] under the fields [fs], pairing them by
    position: the lines printed and the way the printing ends. *)
Fixpoint detail (fs : list (string * string)) (vals : list pyval) {struct vals}
  : list event * outcome unit :=
  match vals with
  | [] => ([], Return tt)
  | v :: vals' =>
      match fs with
      | [] => ([], Raise IndexError)
      | (label, key) :: fs' =>
          match shown_value key v with
          | Err e => ([], Raise e)
          | Ok x =>
              let '(lines, o) := detail fs' vals' in
              (Print (label ++ ": " ++ str x) :: lines, o)
          end
      end
  end.

(** The detail of [detail_reply] with one more value than there are
    fields. *)
Definition overfull_world : world :=
  World [Ok (VDict [("compute_session",
                     VDict (detail_reply ++ [("kernel_ip", VStr "10.0.0.7")]))])]
        true None Missing Writes.

(** The detail of a session that has not reported its memory yet. *)
Definition unmeasured_reply : list (string * pyval) :=
  dict_set "mem_cur_bytes" VNone detail_reply.

Definition unmeasured_world : world :=
  World [Ok (VDict [("compute_session", VDict unmeasured_reply)])]
        true None Missing Writes.

(** What [freeze] prints before and after its call when it kills the
    sessions. *)
Definition killing (force_kill : bool) : list event :=
  if force_kill then [PrintWait "Killing all sessions..."] else [].

Definition killed (force_kill : bool) : list event :=
  if force_kill then [PrintDone "All sessions are killed."] else [].

(** A poll of the status that fails with [e] on the script [tail], leaving
    [rest]: the script is over, the call raises, or the reply has no
    [active_sessions]. *)
Definition poll_fails (tail : list (res pyval)) (e : exn)
                      (rest : list (res pyval)) : Prop :=
  (tail = [] /\ e = TransportError "no reply" /\ rest = []) \/
  tail = Err e :: rest \/
  (exists bad, tail = Ok bad :: rest /\ getitem bad "active_sessions" = Err e).

(** ** Vocabulary for the commands on further calls *)

Import ManagerMore.
Close Scope more_scope.

(** The run of a command whose further call [c] fails with [e] inside a
    [try]: the error is printed after the session is closed. *)
Definition more_call_failed (c : more_call) (e : exn) (w : world)
                            (rest : list (res pyval)) : trace unit :=
  Trace [Core SessionOpen; CallMore c; Core SessionClose; Core (PrintError e)]
        (answered w rest) (Exits 1).

(** The run of [announcement get] that prints [text]. *)
Definition announced (text : string) (w : world) (rest : list (res pyval))
  : trace unit :=
  Trace [ Core SessionOpen; CallMore ManagerGetAnnouncement;
          Core (Print text); Core SessionClose ]
        (answered w rest) (Returns tt).

Definition endpoint_warning : string :=
  "To use get-resources, your endpoint type must be "
  ++ String dquote "session" ++ String dquote ".".

(** [{'cpu': ..., 'mem': ...}] *)
Definition cpu_mem (u : pyval * pyval) : pyval :=
  VDict [("cpu", fst u); ("mem", snd u)].

(** The entry of one scaling group: what it uses and what remains. *)
Definition scaling_group_entry (ur : (pyval * pyval) * (pyval * pyval)) : pyval :=
  VDict [("using", cpu_mem (fst ur)); ("remaining", cpu_mem (snd ur))].

(** A reply of [get_available_resources]: the total that remains, the
    scaling groups by name, and the limits, the use and the rest of the
    group. *)
Definition resources_reply
           (total : pyval * pyval)
           (groups : list (string * ((pyval * pyval) * (pyval * pyval))))
           (limits used remaining : pyval * pyval) : pyval :=
  VDict [ ("scaling_group_remaining", cpu_mem total);
          ("scaling_groups",
           VDict (map (fun g => (fst g, scaling_group_entry (snd g))) groups));
          ("group_limits", cpu_mem limits);
          ("group_using", cpu_mem used);
          ("group_remaining", cpu_mem remaining) ].

(** The lines of [get_resources] before the scaling groups. *)
Definition resources_head (scaling_group : string) (total : pyval * pyval)
  : list string :=
  [ "Total remaining resources of scaling group [" ++ scaling_group ++ "]:";
    "  CPU: " ++ str (fst total);
    "  Memory: " ++ str (snd total);
    "Each resources of scaling groups:" ].

(** The lines of one scaling group. *)
Definition resources_block (g : string * ((pyval * pyval) * (pyval * pyval)))
  : list string :=
  [ "  [" ++ fst g ++ "]";
    "    Using:";
    "      CPU: " ++ str (fst (fst (snd g)));
    "      Memory: " ++ str (snd (fst (snd g)));
    "    Remaining:";
    "      CPU: " ++ str (fst (snd (snd g)));
    "      Memory: " ++ str (snd (snd (snd g))) ].

(** The lines after the scaling groups. *)
Definition resources_foot (limits used remaining : pyval * pyval) : list string :=
  [ "Group limits:";
    "  CPU: " ++ str (fst limits);
    "  Memory: " ++ str (snd limits);
    "Group using:";
    "  CPU: " ++ str (fst used);
    "  Memory: " ++ str (snd used);
    "Group remaining:";
    "  CPU: " ++ str (fst remaining);
    "  Memory: " ++ str (snd remaining) ].

(** Printed lines as events of these commands. *)
Definition said (lines : list string) : list more_event :=
  map (fun s => Core (Print s)) lines.

(** Two scaling groups and the figures of a group, as a reply. *)
Definition two_scaling_groups : pyval :=
  resources_reply (VInt 6, VStr "24g")
    [ ("default", ((VInt 2, VStr "8g"), (VInt 6, VStr "24g")));
      ("gpu", ((VInt 0, VStr "0g"), (VInt 4, VStr "16g"))) ]
    (VInt 8, VStr "32g") (VInt 2, VStr "8g") (VInt 6, VStr "24g").

Definition resources_world : world :=
  World [Ok two_scaling_groups] true None Missing Writes.

(** The two lines that open the block of a scaling group. *)
Definition resources_block_opening (scaling_group : string) : list string :=
  [ "  [" ++ scaling_group ++ "]"; "    Using:" ].

(** * Properties *)


(** ** Texts *)

Lemma prefix_app (m post : string) : prefix m (m ++ post) = true.
Proof.
  induction m as [|c m IH]; simpl.
  - now destruct post.
  - destruct (ascii_dec c c) as [_|ne]; [exact IH | now elim ne].
Qed.

Lemma is_infix_prefix (m s : string) : prefix m s = true -> is_infix m s = true.
Proof. intros H. destruct s; cbn [is_infix]; rewrite H; reflexivity. Qed.

Lemma is_infix_here (m post : string) : is_infix m (m ++ post) = true.
Proof. apply is_infix_prefix, prefix_app. Qed.

Lemma is_infix_app (pre m post : string) :
  is_infix m (pre ++ m ++ post) = true.
Proof.
  induction pre as [|c pre IH].
  - change (is_infix m (m ++ post) = true). apply is_infix_here.
  - change (is_infix m (String c (pre ++ m ++ post)) = true).
    cbn [is_infix]. rewrite IH. apply orb_true_r.
Qed.

Lemma is_infix_suffix (pre m : string) : is_infix m (pre ++ m) = true.
Proof.
  generalize (is_infix_app pre m ""). intros H.
  replace (m ++ "") with m in H; [exact H|].
  clear. induction m; simpl; congruence.
Qed.

Lemma is_infix_cons (c : ascii) (m s : string) :
  is_infix m s = true -> is_infix m (String c s) = true.
Proof. intros H. cbn [is_infix]. rewrite H. apply orb_true_r. Qed.

Lemma is_infix_refl (m : string) : is_infix m m = true.
Proof. apply (is_infix_suffix "" m). Qed.

(** ** Group mutations *)

Ltac run_reply Hsrv Hok Hmsg :=
  unfold with_session, try_except, bind, call, lift; simpl;
  rewrite Hsrv; simpl; rewrite Hok; simpl; rewrite Hmsg; simpl.

(** C1: when the reply of the collaborator has [ok] false, each of [groups
    add], [update], [delete], [add-users] and [remove-users] prints one
    failure message that contains the text of the reply's [msg] and exits
    with status 1. *)
Theorem group_mutations_report_failure :
  forall (w : world) (data msg : pyval) (rest : list (res pyval)),
    server w = Ok data :: rest ->
    getitem data "ok" = Ok (VBool false) ->
    getitem data "msg" = Ok msg ->
    (forall domain_name name description inactive,
        reports_failure (Groups.add domain_name name description inactive w)
          (GroupCreate domain_name name description (negb inactive)) (str msg)) /\
    (forall gid name description is_active,
        reports_failure (Groups.update gid name description is_active w)
          (GroupUpdate gid name description is_active) (str msg)) /\
    (forall gid,
        reports_failure (Groups.delete gid w) (GroupDelete gid) (str msg)) /\
    (forall gid user_uuids,
        reports_failure (Groups.add_users gid user_uuids w)
          (GroupAddUsers gid user_uuids) (str msg)) /\
    (forall gid user_uuids,
        reports_failure (Groups.remove_users gid user_uuids w)
          (GroupRemoveUsers gid user_uuids) (str msg)).
Proof.
  intros w data msg rest Hsrv Hok Hmsg.
  repeat split; intros; unfold reports_failure;
    eexists; (split; [| split]); cycle 1.
  1, 2: unfold Groups.add; run_reply Hsrv Hok Hmsg; reflexivity.
  2, 3: unfold Groups.update; run_reply Hsrv Hok Hmsg; reflexivity.
  3, 4: unfold Groups.delete; run_reply Hsrv Hok Hmsg; reflexivity.
  4, 5: unfold Groups.add_users; run_reply Hsrv Hok Hmsg; reflexivity.
  5, 6: unfold Groups.remove_users; run_reply Hsrv Hok Hmsg; reflexivity.
  all: repeat apply is_infix_cons; apply is_infix_refl.
Qed.

Lemma group_mutations_report_failure_witness :
  reports_failure
    (Groups.delete "g1" (World [Ok denied_reply] true None Missing Writes))
    (GroupDelete "g1") "permission denied".
Proof.
  exact (proj1 (proj2 (proj2
           (group_mutations_report_failure
              (World [Ok denied_reply] true None Missing Writes)
              denied_reply (VStr "permission denied") []
              eq_refl eq_refl eq_refl))) "g1").
Defined.

(** ** The callback of [groups] *)

(** C5: without a subcommand and without [--domain-name], [groups] prints
    the guidance and exits with status 1, having opened no session and made
    no call; with a subcommand the callback returns at once, whatever the
    domain name, so the subcommand runs. *)
Theorem groups_domain_check :
  (forall w,
      Groups.groups None None w = Run [Print guidance] w (Exit 1)) /\
  (forall subcommand domain_name w,
      Groups.groups (Some subcommand) domain_name w = Run [] w (Return tt)).
Proof. split; intros; reflexivity. Qed.

(** ** [manager freeze] *)

(** C8: with both [--wait] and [--force-kill], [freeze] prints the usage
    message on the error stream and returns: no session, no call, and the
    exit status stays 0. *)
Theorem freeze_both_flags :
  forall w,
    Manager.freeze true true w = Run [PrintStderr both_flags_message] w (Return tt) /\
    calls (events (Manager.freeze true true w)) = [] /\
    exit_code (result (Manager.freeze true true w)) = 0.
Proof. intros w. repeat split. Qed.

(** The loop does not depend on its fuel once the fuel exceeds the length
    of the script: the end of the fuel is never reached. *)
Lemma wait_loop_fuel (fuel fuel' : nat) :
  forall w : world,
    (List.length (server w) < fuel)%nat ->
    (List.length (server w) < fuel')%nat ->
    Manager.wait_loop fuel w = Manager.wait_loop fuel' w.
Proof.
  revert fuel'. induction fuel as [|fuel IH]; intros fuel' w H H'; [lia|].
  destruct fuel' as [|fuel']; [lia|].
  destruct w as [srv yn ed js wr]. simpl in H, H'.
  cbn [Manager.wait_loop]. unfold bind, call, lift, emit. cbn [server].
  destruct srv as [|[v|e] srv]; [reflexivity| |reflexivity].
  cbn [yn_answer editor announcement_json state_write].
  destruct (getitem v "active_sessions") as [n|e]; [|reflexivity].
  cbn [ret]. destruct (eq_zero n); [reflexivity|].
  rewrite (IH fuel' (World srv yn ed js wr)) by (simpl in *; lia).
  reflexivity.
Qed.

Lemma wait_loop_polls :
  forall (counts : list Z) (replies : list pyval) (last : pyval)
         (rest : list (res pyval)) (fuel : nat) yn ed js wr,
    Forall (fun n => n <> 0) counts ->
    Forall2 (fun r n => getitem r "active_sessions" = Ok (VInt n)) replies counts ->
    getitem last "active_sessions" = Ok (VInt 0) ->
    (List.length counts < fuel)%nat ->
    Manager.wait_loop fuel (World (map Ok replies ++ Ok last :: rest) yn ed js wr)
    = Run (flat_map waiting counts ++ [Call ManagerStatus])
          (World rest yn ed js wr) (Return tt).
Proof.
  induction counts as [|n counts IH]; intros replies last rest fuel yn ed js wr
    Hnz Hrep Hlast Hfuel.
  - inversion Hrep; subst. destruct fuel as [|fuel]; [inversion Hfuel|].
    simpl. unfold bind, call, lift. simpl. rewrite Hlast. reflexivity.
  - inversion Hrep as [|r n' replies' counts' Hr Hrep']; subst.
    inversion Hnz as [|? ? Hn Hnz']; subst.
    destruct fuel as [|fuel]; [inversion Hfuel|].
    assert (Hf : (List.length counts < fuel)%nat) by (simpl in Hfuel; lia).
    specialize (IH replies' last rest fuel yn ed js wr Hnz' Hrep' Hlast Hf).
    simpl. unfold bind, call, lift. simpl. rewrite Hr. simpl.
    destruct (Z.eqb_spec n 0) as [|_]; [contradiction|]. simpl.
    rewrite IH. reflexivity.
Qed.

(** C2: [freeze --wait] against a server that reports non-zero counts of
    active sessions and then 0 polls the status once per report, waits 3
    seconds after each non-zero count, leaves the loop at the report of 0
    and only then calls [Manager.freeze]. *)
Theorem freeze_wait_polls_until_zero :
  forall (counts : list Z) (replies : list pyval) (last frozen : pyval)
         (rest : list (res pyval)) (w : world),
    Forall (fun n => n <> 0) counts ->
    Forall2 (fun r n => getitem r "active_sessions" = Ok (VInt n)) replies counts ->
    getitem last "active_sessions" = Ok (VInt 0) ->
    server w = (map Ok replies ++ Ok last :: Ok frozen :: rest)%list ->
    let r := Manager.freeze true false w in
    events r =
      (SessionOpen :: flat_map waiting counts ++
       [ Call ManagerStatus;
         PrintDone "All sessions are terminated.";
         Call (ManagerFreeze false);
         Print "Manager is successfully frozen.";
         SessionClose ])%list /\
    calls (events r) =
      (repeat ManagerStatus (S (List.length counts)) ++ [ManagerFreeze false])%list /\
    result r = Return tt /\
    server (final r) = rest.
Proof.
  intros counts replies last frozen rest [srv yn ed js wr] Hnz Hrep Hlast Hsrv r.
  simpl in Hsrv. subst srv.
  assert (Hlen : List.length replies = List.length counts).
  { clear -Hrep. induction Hrep; simpl; congruence. }
  assert (Hrun :
    r = Run (SessionOpen :: flat_map waiting counts ++
             [ Call ManagerStatus;
               PrintDone "All sessions are terminated.";
               Call (ManagerFreeze false);
               Print "Manager is successfully frozen.";
               SessionClose ])%list
            (World rest yn ed js wr) (Return tt)).
  { pose proof (wait_loop_polls counts replies last (Ok frozen :: rest)
                  (S (List.length (map Ok replies ++ Ok last :: Ok frozen :: rest)))
                  yn ed js wr Hnz Hrep Hlast) as Hloop.
    rewrite length_app, length_map in Hloop.
    specialize (Hloop ltac:(simpl; lia)).
    subst r. unfold Manager.freeze, try_except, with_session, when, bind.
    cbn -[Manager.wait_loop]. rewrite length_app, length_map. rewrite Hloop.
    simpl. rewrite <- !app_assoc. reflexivity. }
  rewrite Hrun. cbn [events result final server].
  repeat split.
  clear. induction counts as [|n counts IH]; [reflexivity|].
  simpl in *. congruence.
Qed.

Lemma freeze_wait_polls_until_zero_witness :
  calls (events (Manager.freeze true false draining)) =
    [ManagerStatus; ManagerStatus; ManagerStatus; ManagerFreeze false] /\
  result (Manager.freeze true false draining) = Return tt.
Proof.
  destruct (freeze_wait_polls_until_zero [2; 1]
              [status_report 2; status_report 1] (status_report 0) VNone []
              draining) as (_ & Hcalls & Hres & _).
  - repeat constructor; discriminate.
  - repeat constructor.
  - reflexivity.
  - reflexivity.
  - split; [exact Hcalls | exact Hres].
Defined.

(** ** [sessions] and [session] *)

(** The first thing a command that starts with a call does, whatever the
    server answers. *)
Lemma first_call {A} (c : api_call) (k : pyval -> M A) (w : world) :
  exists rest,
    events (with_session (x <- try_except (call c) fail_with ;; k x) w)
    = SessionOpen :: Call c :: rest.
Proof.
  unfold with_session, bind, try_except, call.
  destruct (server w) as [|[v|e] srv]; simpl;
    try destruct (k v _) as [t w' o]; simpl; eexists; reflexivity.
Qed.

Lemma sessions_first_call (args : Sessions.sessions_args) (w : world) :
  exists rest,
    events (Sessions.sessions args w)
    = SessionOpen
      :: Call (AdminQuery (Sessions.sessions_query args)
                          (Sessions.sessions_variables args))
      :: rest.
Proof. unfold Sessions.sessions. apply first_call. Qed.

(** C3: without [--status] the query of [sessions] is sent with the variable
    [status] equal to ["RUNNING"]; with [--status ALL] the variable is
    null. *)
Theorem sessions_status_variable :
  forall (access_key : option string) (w : world),
    (exists args rest,
        Sessions.parse_args None access_key = Some args /\
        events (Sessions.sessions args w)
          = SessionOpen
            :: Call (AdminQuery (Sessions.sessions_query args)
                       (VDict [ ("status", VStr "RUNNING");
                                ("ak", of_opt_str access_key) ]))
            :: rest) /\
    (exists args rest,
        Sessions.parse_args (Some "ALL") access_key = Some args /\
        events (Sessions.sessions args w)
          = SessionOpen
            :: Call (AdminQuery (Sessions.sessions_query args)
                       (VDict [ ("status", VNone);
                                ("ak", of_opt_str access_key) ]))
            :: rest).
Proof.
  intros access_key w. split.
  - destruct (sessions_first_call
                {| Sessions.status := "RUNNING";
                   Sessions.access_key := access_key |} w) as [rest Hrest].
    exists {| Sessions.status := "RUNNING"; Sessions.access_key := access_key |}, rest.
    split; [reflexivity | exact Hrest].
  - destruct (sessions_first_call
                {| Sessions.status := "ALL";
                   Sessions.access_key := access_key |} w) as [rest Hrest].
    exists {| Sessions.status := "ALL"; Sessions.access_key := access_key |}, rest.
    split; [reflexivity | exact Hrest].
Qed.

(** C6, as stated, fails: on a reply whose [sess_id] is the empty string
    [session] does not print the no-such-session message; it prints the
    detail. *)
Lemma session_empty_id_is_shown :
  events (Sessions.session "s1" empty_id_world)
  = [ SessionOpen; Call (session_call "s1");
      Print ("Session detail:" ++ Sessions.newline ++ "---------------");
      Print "Session ID: ";
      SessionClose ] /\
  ~ In (Print no_such_session) (events (Sessions.session "s1" empty_id_world)).
Proof.
  split; [reflexivity|].
  simpl. intros [H|[H|[H|[H|[H|[]]]]]]; discriminate H.
Qed.

(** C6, amended: on a reply whose [compute_session] has a null [sess_id],
    [session] prints the no-such-session message and returns, exit status 0;
    [group], on a reply that is null, prints its message and exits with
    status 1. *)
Theorem session_absent_returns :
  forall (name : string) (w : world) (resp cs : pyval) (rest : list (res pyval)),
    server w = Ok resp :: rest ->
    getitem resp "compute_session" = Ok cs ->
    getitem cs "sess_id" = Ok VNone ->
    (let r := Sessions.session name w in
     events r = [ SessionOpen; Call (session_call name);
                  Print no_such_session; SessionClose ] /\
     result r = Return tt /\
     exit_code (result r) = 0) /\
    (forall gid w',
        server w' = Ok VNone :: rest ->
        let r := Groups.group gid w' in
        events r = [ SessionOpen; Call (GroupDetail gid (map snd Groups.fields));
                     Print "There is no such group."; SessionClose ] /\
        result r = Exit 1).
Proof.
  intros name w resp cs rest Hsrv Hcs Hid. split.
  - unfold Sessions.session, with_session, try_except, bind, call, lift. simpl.
    rewrite Hsrv. simpl. rewrite Hcs. simpl. rewrite Hid. simpl.
    repeat split.
  - intros gid w' Hsrv'.
    unfold Groups.group, with_session, try_except, bind, call, lift. simpl.
    rewrite Hsrv'. simpl. repeat split.
Qed.

Lemma session_absent_returns_witness :
  result (Sessions.session "s1" (World [Ok absent_reply] true None Missing Writes))
  = Return tt.
Proof.
  exact (proj1 (proj2 (proj1
           (session_absent_returns "s1"
              (World [Ok absent_reply] true None Missing Writes)
              absent_reply (VDict [("sess_id", VNone); ("role", VNone)]) []
              eq_refl eq_refl eq_refl)))).
Defined.

(** ** [announcement update] *)

(** C7, as stated, fails: when the editor gives back the empty text the
    command does not cancel; it posts the empty message. *)
Lemma update_posts_empty_text :
  Manager.update None (World [Ok VNone] true (Some "") Missing Writes)
  = Run [ SessionOpen; Edit editor_template;
          Call (ManagerUpdateAnnouncement true (Some ""));
          SessionClose; PrintDone "Posted new announcement." ]
        (World [] true (Some "") Missing Writes) (Return tt).
Proof. reflexivity. Qed.

(** C7, amended: without a message argument [announcement update] opens the
    editor; when the editor gives back nothing (null) the command prints the
    cancellation and exits with status 1 without a call; when it gives back
    a text, empty or not, the command posts that text with [enabled] true. *)
Theorem update_without_message :
  forall (w : world),
    (editor w = None ->
     Manager.update None w
     = Run [SessionOpen; Edit editor_template; PrintInfo "Cancelled"; SessionClose]
           w (Exit 1)) /\
    (forall text,
        editor w = Some text ->
        exists rest,
          events (Manager.update None w)
          = SessionOpen :: Edit editor_template
            :: Call (ManagerUpdateAnnouncement true (Some text)) :: rest).
Proof.
  intros w. split.
  - intros He. unfold Manager.update, try_except, with_session, bind, edit.
    simpl. rewrite He. reflexivity.
  - intros text He.
    unfold Manager.update, try_except, with_session, bind, edit, call.
    simpl. rewrite He. simpl.
    destruct (server w) as [|[v|e] srv]; simpl; eexists; reflexivity.
Qed.

Lemma update_without_message_witness :
  Manager.update None (World [Ok VNone] true None Missing Writes)
  = Run [SessionOpen; Edit editor_template; PrintInfo "Cancelled"; SessionClose]
        (World [Ok VNone] true None Missing Writes) (Exit 1).
Proof.
  exact (proj1 (update_without_message
                  (World [Ok VNone] true None Missing Writes)) eq_refl).
Defined.

(** ** Dictionaries *)

Lemma dict_get_set_same (k : string) (v : pyval) (d : list (string * pyval)) :
  dict_get k (dict_set k v d) = Some v.
Proof.
  induction d as [|[k' v'] d IH]; simpl.
  - now rewrite String.eqb_refl.
  - destruct (String.eqb k k') eqn:E; simpl.
    + now rewrite String.eqb_refl.
    + now rewrite E.
Qed.

Lemma dict_get_set_other (k k' : string) (v : pyval) (d : list (string * pyval)) :
  k <> k' -> dict_get k' (dict_set k v d) = dict_get k' d.
Proof.
  intros Hne. induction d as [|[k0 v0] d IH]; simpl.
  - destruct (String.eqb_spec k' k); [congruence | reflexivity].
  - destruct (String.eqb_spec k k0) as [->|Hk]; simpl.
    + destruct (String.eqb_spec k' k0); [congruence | reflexivity].
    + destruct (String.eqb_spec k' k0); [reflexivity | exact IH].
Qed.

Lemma dict_keys_set (k : string) (v : pyval) (d : list (string * pyval)) :
  dict_keys (dict_set k v d)
  = if dict_mem k d then dict_keys d else (dict_keys d ++ [k])%list.
Proof.
  unfold dict_keys, dict_mem.
  induction d as [|[k' v'] d IH]; simpl; [reflexivity|].
  destruct (String.eqb_spec k k') as [->|Hk]; simpl; [reflexivity|].
  rewrite IH. now destruct (existsb _ d).
Qed.

(** ** [announcement dismiss] *)

(** C9, as stated, fails twice.  A state file whose bytes are not text
    fails to parse, yet [dismiss] does not print the no-announcement
    failure: the decoding error is no [JSONDecodeError] and goes to the last
    handler.  And a state file that holds an object but cannot be opened for
    writing is not written back and no success is reported. *)
Lemma dismiss_undecodable_or_read_only :
  Manager.dismiss garbled_world
  = Run [AskYn; ReadState; PrintError UnicodeDecodeError] garbled_world (Exit 1) /\
  Manager.dismiss read_only_world
  = Run [AskYn; ReadState; PrintFail "No announcements seen yet."]
        read_only_world (Exit 1).
Proof. split; reflexivity. Qed.

(** C9: after a yes, [dismiss] on a state file that is missing or holds a
    text that is not JSON prints the no-announcement failure, exits with
    status 1 and writes nothing; on bytes that are not text it prints the
    decoding error instead, exits with status 1 and writes nothing.  On a
    state file that holds an object it writes the object back with
    [dismissed] set to true, the other keys and the order of the keys kept,
    and reports success, when the write goes through; it prints the
    no-announcement failure and exits with status 1 when the file cannot be
    opened for writing, which leaves it as it was, and when the write fails
    after the file is opened, which leaves it without its content. *)
Theorem dismiss_updates_state :
  forall (w : world),
    yn_answer w = true ->
    (announcement_json w = Missing \/ announcement_json w = Unparseable ->
     Manager.dismiss w
     = Run [AskYn; ReadState; PrintFail "No announcements seen yet."] w (Exit 1)) /\
    (announcement_json w = Undecodable ->
     Manager.dismiss w
     = Run [AskYn; ReadState; PrintError UnicodeDecodeError] w (Exit 1)) /\
    (forall d,
        announcement_json w = Json (VDict d) ->
        let d' := dict_set "dismissed" (VBool true) d in
        (state_write w = Writes ->
         Manager.dismiss w
         = Run [ AskYn; ReadState; TruncateState; WriteState (VDict d');
                 PrintDone "Dismissed the last shown announcement." ]
               (holding (Json (VDict d')) w) (Return tt)) /\
        (state_write w = OpenFails ->
         Manager.dismiss w
         = Run [AskYn; ReadState; PrintFail "No announcements seen yet."]
               w (Exit 1)) /\
        (state_write w = WriteFails ->
         Manager.dismiss w
         = Run [ AskYn; ReadState; TruncateState;
                 PrintFail "No announcements seen yet." ]
               (holding Unparseable w) (Exit 1)) /\
        dict_get "dismissed" d' = Some (VBool true) /\
        (forall k, k <> "dismissed" -> dict_get k d' = dict_get k d) /\
        dict_keys d' = if dict_mem "dismissed" d then dict_keys d
                       else (dict_keys d ++ ["dismissed"])%list).
Proof.
  intros [srv yn ed js wr] Hyes. simpl in Hyes. subst yn.
  split; [|split].
  - intros [H|H]; simpl in H; subst js; reflexivity.
  - intros H. simpl in H. subst js. reflexivity.
  - intros d Hfile d'. simpl in Hfile. subst js.
    split; [|split; [|split; [|split; [|split]]]].
    + intros H. simpl in H. subst wr. reflexivity.
    + intros H. simpl in H. subst wr. reflexivity.
    + intros H. simpl in H. subst wr. reflexivity.
    + apply dict_get_set_same.
    + intros k Hk. apply dict_get_set_other. congruence.
    + apply dict_keys_set.
Qed.

Lemma dismiss_updates_state_witness :
  Manager.dismiss seen_world
  = Run [ AskYn; ReadState; TruncateState;
          WriteState (VDict [("id", VInt 7); ("dismissed", VBool true)]);
          PrintDone "Dismissed the last shown announcement." ]
        (World [] true None
               (Json (VDict [("id", VInt 7); ("dismissed", VBool true)])) Writes)
        (Return tt).
Proof.
  exact (proj1 (proj2 (proj2 (dismiss_updates_state seen_world eq_refl))
                  [("id", VInt 7); ("dismissed", VBool false)] eq_refl)
               eq_refl).
Defined.

(** ** Loops without effects *)

Lemma filter_m_pure {A} (f : A -> M bool) (p : A -> bool) (l : list A) (w : world) :
  (forall x w', f x w' = Run [] w' (Return (p x))) ->
  filter_m f l w = Run [] w (Return (filter p l)).
Proof.
  intros Hf. induction l as [|x l IH]; simpl; [reflexivity|].
  unfold bind. rewrite Hf, IH. simpl. now destruct (p x).
Qed.

Lemma map_m_pure {A B} (f : A -> M B) (g : A -> B) (l : list A) (w : world) :
  (forall x, In x l -> forall w', f x w' = Run [] w' (Return (g x))) ->
  map_m f l w = Run [] w (Return (map g l)).
Proof.
  induction l as [|x l IH]; intros Hf; simpl; [reflexivity|].
  unfold bind. rewrite Hf by (now left). rewrite IH; [reflexivity|].
  intros y Hy. apply Hf. now right.
Qed.

Lemma dict_mem_In (k : string) (d : list (string * pyval)) :
  dict_mem k d = true <-> In k (dict_keys d).
Proof.
  unfold dict_mem, dict_keys. rewrite existsb_exists, in_map_iff. split.
  - intros [[k' v] [Hin Heq]]. simpl in Heq. apply String.eqb_eq in Heq.
    subst. now exists (k', v).
  - intros [[k' v] [Heq Hin]]. simpl in Heq. subst.
    exists (k, v). split; [exact Hin | apply String.eqb_refl].
Qed.

(** ** [groups] as a listing *)

Lemma groups_list_run (domain_name : string) (w : world)
      (row0 : list (string * pyval)) (more : list (list (string * pyval)))
      (rest : list (res pyval)) :
  server w = Ok (VList (map VDict (row0 :: more))) :: rest ->
  Groups.groups None (Some domain_name) w
  = Run [ SessionOpen;
          Call (GroupList domain_name (map snd Groups.fields));
          PrintTable (map dict_values (row0 :: more)) (map fst (present row0));
          SessionClose ]
        (answered w rest) (Return tt).
Proof.
  intros Hsrv.
  assert (Hrows : forall w',
    map_m (fun item => lift (values item)) (map VDict (row0 :: more)) w'
    = Run [] w' (Return (map dict_values (row0 :: more)))).
  { intros w'.
    rewrite (map_m_pure _ (fun item => match item with
                                       | VDict d => dict_values d
                                       | _ => []
                                       end)).
    - now rewrite map_map.
    - intros x Hx w''. apply in_map_iff in Hx.
      destruct Hx as [d [<- _]]. reflexivity. }
  unfold Groups.groups, with_session, try_except, bind, call.
  rewrite Hsrv.
  cbn [lift len iter first ret List.length map].
  replace (Z.of_nat (S (List.length (map VDict more))) <? 1) with false
    by (symmetry; apply Z.ltb_ge; lia).
  rewrite (filter_m_pure _ (fun field => dict_mem (snd field) row0))
    by reflexivity.
  change (VDict row0 :: map VDict more) with (map VDict (row0 :: more)).
  rewrite Hrows. reflexivity.
Qed.

Lemma fields_keys_NoDup : NoDup (map snd Groups.fields).
Proof.
  simpl. repeat constructor; simpl; intuition discriminate.
Qed.

Lemma present_keys_NoDup (row0 : list (string * pyval)) :
  NoDup (map snd (present row0)).
Proof.
  unfold present. generalize fields_keys_NoDup.
  induction Groups.fields as [|f fs IH]; simpl; intros Hnd; [constructor|].
  inversion Hnd as [|? ? Hnotin Hnd']; subst.
  destruct (dict_mem (snd f) row0); simpl; [|now apply IH].
  constructor; [|now apply IH].
  intros Hin. apply Hnotin. apply in_map_iff in Hin.
  destruct Hin as [g [Hg Hin]]. apply filter_In in Hin.
  apply in_map_iff. exists g. tauto.
Qed.

Lemma present_keys_spec (row0 : list (string * pyval)) (k : string) :
  In k (map snd (present row0))
  <-> In k (map snd Groups.fields) /\ In k (dict_keys row0).
Proof.
  unfold present. rewrite !in_map_iff. split.
  - intros [f [<- Hin]]. apply filter_In in Hin. destruct Hin as [Hin Hmem].
    split; [now exists f | now apply dict_mem_In].
  - intros [[f [<- Hin]] Hk]. exists f. split; [reflexivity|].
    apply filter_In. split; [exact Hin | now apply dict_mem_In].
Qed.

(** A first row with a key that was not requested is wider than the
    header. *)
Lemma first_row_wider (row0 : list (string * pyval)) (k : string) :
  NoDup (dict_keys row0) ->
  In k (dict_keys row0) ->
  ~ In k (map snd Groups.fields) ->
  (List.length (map fst (present row0)) < List.length (dict_values row0))%nat.
Proof.
  intros Hnd Hin Hout.
  assert (Hle : (List.length (k :: map snd (present row0))
                 <= List.length (dict_keys row0))%nat).
  { apply NoDup_incl_length.
    - constructor; [|apply present_keys_NoDup].
      intros H. apply present_keys_spec in H. tauto.
    - intros x [<-|Hx]; [exact Hin|].
      apply present_keys_spec in Hx. tauto. }
  unfold dict_keys, dict_values in *. simpl in Hle.
  rewrite !length_map in *. lia.
Qed.

(** A first row with requested keys only is as wide as the header. *)
Lemma first_row_fits (row0 : list (string * pyval)) :
  NoDup (dict_keys row0) ->
  (forall k, In k (dict_keys row0) -> In k (map snd Groups.fields)) ->
  List.length (map fst (present row0)) = List.length (dict_values row0).
Proof.
  intros Hnd Hall.
  assert (H1 : (List.length (map snd (present row0))
                <= List.length (dict_keys row0))%nat).
  { apply NoDup_incl_length; [apply present_keys_NoDup|].
    intros x Hx. apply present_keys_spec in Hx. tauto. }
  assert (H2 : (List.length (dict_keys row0)
                <= List.length (map snd (present row0)))%nat).
  { apply NoDup_incl_length; [exact Hnd|].
    intros x Hx. apply present_keys_spec. split; [now apply Hall | exact Hx]. }
  unfold dict_keys, dict_values in *. rewrite !length_map in *. lia.
Qed.

(** C10, as stated, fails in its last part: a first row that lacks a
    requested field ([name]) gives one header for one column, and a later
    row with a key outside the filtered fields ([description]) still has as
    many columns as there are headers. *)
Lemma groups_columns_can_match_headers :
  (dict_mem "name" [("id", VStr "g1")] = false /\
   events (Groups.groups None (Some "default") short_rows)
   = [ SessionOpen; Call (GroupList "default" (map snd Groups.fields));
       PrintTable [[VStr "g1"]] ["ID"]; SessionClose ] /\
   List.length [VStr "g1"] = List.length ["ID"]) /\
  (events (Groups.groups None (Some "default") uneven_rows)
   = [ SessionOpen; Call (GroupList "default" (map snd Groups.fields));
       PrintTable [[VStr "g1"; VStr "dev"]; [VStr "g2"; VStr "ops"]]
                  ["ID"; "Name"];
       SessionClose ] /\
   ~ In "description" ["id"; "name"] /\
   List.length [VStr "g2"; VStr "ops"] = List.length ["ID"; "Name"]).
Proof.
  repeat split.
  simpl. intros [H|[H|[]]]; discriminate H.
Qed.

(** C10, amended: on a non-empty result the header of [groups] holds the
    labels of the requested fields that the first row has, in the order of
    the field list, and each data row holds all the values of its mapping in
    that mapping's order; when the first row has a key that was not
    requested, it has more columns than there are headers, and when all its
    keys were requested it has as many. *)
Theorem groups_list_layout :
  forall (domain_name : string) (w : world)
         (row0 : list (string * pyval)) (more : list (list (string * pyval)))
         (rest : list (res pyval)),
    server w = Ok (VList (map VDict (row0 :: more))) :: rest ->
    let headers := map fst (present row0) in
    events (Groups.groups None (Some domain_name) w)
    = [ SessionOpen;
        Call (GroupList domain_name (map snd Groups.fields));
        PrintTable (map dict_values (row0 :: more)) headers;
        SessionClose ] /\
    result (Groups.groups None (Some domain_name) w) = Return tt /\
    (NoDup (dict_keys row0) ->
     (forall k, In k (dict_keys row0) -> ~ In k (map snd Groups.fields) ->
                (List.length headers < List.length (dict_values row0))%nat) /\
     ((forall k, In k (dict_keys row0) -> In k (map snd Groups.fields)) ->
      List.length headers = List.length (dict_values row0))).
Proof.
  intros domain_name w row0 more rest Hsrv headers.
  rewrite (groups_list_run domain_name w row0 more rest Hsrv).
  split; [reflexivity|]. split; [reflexivity|].
  intros Hnd. split.
  - intros k Hin Hout. now apply (first_row_wider row0 k).
  - intros Hall. now apply first_row_fits.
Qed.

Lemma groups_list_layout_witness :
  events (Groups.groups None (Some "default") wide_rows)
  = [ SessionOpen; Call (GroupList "default" (map snd Groups.fields));
      PrintTable [[VStr "g1"; VStr "kim"]] ["ID"]; SessionClose ] /\
  (List.length ["ID"] < List.length [VStr "g1"; VStr "kim"])%nat.
Proof.
  destruct (groups_list_layout "default" wide_rows
              [("id", VStr "g1"); ("owner", VStr "kim")] [] [] eq_refl)
    as (Hev & _ & Hcols).
  split; [exact Hev|].
  destruct Hcols as [Hwide _].
  - repeat constructor; simpl; intuition discriminate.
  - apply (Hwide "owner"); simpl; intuition discriminate.
Defined.

(** ** Bytes to MiB *)

Lemma convert_item_run (row row' : list (string * pyval)) (w : world) :
  converted "mem_cur_bytes" row row' ->
  Sessions.convert_item (VDict row) w = Run [] w (Return (VDict row')).
Proof.
  intros (b & x & _ & Hget & Hround & ->).
  unfold round_mib in Hround.
  destruct (truediv (VInt b) (2 ^ 20)) as [y|e] eqn:Hy; [|discriminate].
  unfold Sessions.convert_item, bind.
  cbn [lift getitem]. rewrite Hget. cbn [lift ret].
  rewrite Hy. cbn [lift ret]. rewrite Hround. reflexivity.
Qed.

Lemma convert_items_run (rows rows' : list (list (string * pyval))) (w : world) :
  Forall2 (converted "mem_cur_bytes") rows rows' ->
  map_m Sessions.convert_item (map VDict rows) w
  = Run [] w (Return (map VDict rows')).
Proof.
  intros H. induction H as [|row row' rows rows' Hrow _ IH]; [reflexivity|].
  cbn [map map_m]. unfold bind.
  rewrite (convert_item_run row row' w Hrow), IH. reflexivity.
Qed.

Lemma sessions_run (args : Sessions.sessions_args) (w : world) (resp : pyval)
      (rows rows' : list (list (string * pyval))) (rest : list (res pyval)) :
  server w = Ok resp :: rest ->
  getitem resp "compute_sessions" = Ok (VList (map VDict rows)) ->
  rows <> [] ->
  Forall2 (converted "mem_cur_bytes") rows rows' ->
  Sessions.sessions args w
  = Run [ SessionOpen;
          Call (AdminQuery (Sessions.sessions_query args)
                           (Sessions.sessions_variables args));
          PrintTable (map dict_values rows') (map fst Sessions.sessions_fields);
          SessionClose ]
        (answered w rest) (Return tt).
Proof.
  intros Hsrv Hcs Hne Hconv.
  assert (Hvals : forall w',
    map_m (fun item => lift (values item)) (map VDict rows') w'
    = Run [] w' (Return (map dict_values rows'))).
  { intros w'.
    rewrite (map_m_pure _ (fun item => match item with
                                       | VDict d => dict_values d
                                       | _ => []
                                       end)).
    - now rewrite map_map.
    - intros x Hx w''. apply in_map_iff in Hx.
      destruct Hx as [d [<- _]]. reflexivity. }
  unfold Sessions.sessions, with_session, try_except, bind, call.
  rewrite Hsrv. cbn [lift ret]. rewrite Hcs. cbn [len iter lift ret].
  replace (Z.of_nat (List.length (map VDict rows)) =? 0) with false.
  - rewrite (convert_items_run rows rows' _ Hconv), Hvals. reflexivity.
  - symmetry. apply Z.eqb_neq. destruct rows; [congruence | simpl; lia].
Qed.

Lemma skipn_nth_error {A} (l : list A) :
  forall i,
    match nth_error l i with
    | Some x => skipn i l = x :: skipn (S i) l
    | None => skipn i l = []
    end.
Proof.
  induction l as [|y l IH]; intros [|i]; simpl; try reflexivity.
  apply IH.
Qed.

Lemma session_lines_detail (vals : list pyval) :
  forall (i : nat) (w : world),
    Sessions.session_lines i vals w
    = Run (fst (detail (skipn i Sessions.session_fields) vals)) w
          (snd (detail (skipn i Sessions.session_fields) vals)).
Proof.
  induction vals as [|v vals IH]; intros i w; [reflexivity|].
  cbn [Sessions.session_lines detail]. unfold bind, Sessions.session_line.
  pose proof (skipn_nth_error Sessions.session_fields i) as Hi.
  destruct (nth_error Sessions.session_fields i) as [[label key]|];
    rewrite Hi; [|reflexivity].
  unfold shown_value, bind.
  destruct (existsb (String.eqb key) ["mem_cur_bytes"; "mem_max_bytes"]).
  - destruct (truediv v (2 ^ 20)) as [mib|e]; cbn [lift ret raise]; [|reflexivity].
    destruct (round_1 mib) as [x|e]; cbn [lift ret raise emit]; [|reflexivity].
    rewrite IH.
    destruct (detail (skipn (S i) Sessions.session_fields) vals). reflexivity.
  - cbn [ret emit]. rewrite IH.
    destruct (detail (skipn (S i) Sessions.session_fields) vals). reflexivity.
Qed.

Ltac run_session Hsrv Hresp Hid Hnone :=
  unfold Sessions.session, with_session, try_except, bind, call;
  rewrite Hsrv; cbn [lift ret]; rewrite Hresp; cbn [lift ret getitem];
  rewrite Hid; cbn [lift ret]; rewrite Hnone; cbn [emit values lift ret];
  rewrite session_lines_detail; cbn [skipn].

(** ** Exact quotients *)

Lemma div_half_even_scale (c x d : Z) :
  0 < c -> 0 < d -> div_half_even (c * x) (c * d) = div_half_even x d.
Proof.
  intros Hc Hd. unfold div_half_even.
  rewrite Z.div_mul_cancel_l by lia.
  rewrite Z.mul_mod_distr_l by lia.
  destruct (Z.ltb_spec (2 * (x mod d)) d), (Z.ltb_spec (2 * (c * (x mod d))) (c * d));
    try nia; try reflexivity.
  destruct (Z.ltb_spec d (2 * (x mod d))), (Z.ltb_spec (c * d) (2 * (c * (x mod d))));
    try nia; reflexivity.
Qed.

(** Two fractions with the same value round to the same integer. *)
Lemma div_half_even_cross (a b x y : Z) :
  0 < b -> 0 < y -> a * y = x * b -> div_half_even a b = div_half_even x y.
Proof.
  intros Hb Hy Heq.
  rewrite <- (div_half_even_scale y a b), <- (div_half_even_scale b x y) by lia.
  f_equal; lia.
Qed.

Lemma div_half_even_exact (q d : Z) : 0 < d -> div_half_even (q * d) d = q.
Proof.
  intros Hd. unfold div_half_even.
  rewrite Z.div_mul, Z.mod_mul by lia.
  destruct (Z.ltb_spec (2 * 0) d); [reflexivity | lia].
Qed.

Lemma canon_value (p : positive) :
  forall (e : Z) (m : positive) (e' : Z),
    canon p e = (m, e') -> e <= e' /\ Zpos p = Zpos m * 2 ^ (e' - e).
Proof.
  induction p as [p IH|p IH|]; intros e m e' H; simpl in H.
  - injection H as <- <-. rewrite Z.sub_diag. simpl. lia.
  - apply IH in H. destruct H as [Hle Hval]. split; [lia|].
    replace (e' - e) with (Z.succ (e' - (e + 1))) by lia.
    rewrite Z.pow_succ_r by lia. lia.
  - injection H as <- <-. rewrite Z.sub_diag. simpl. lia.
Qed.

(** Below [2^53] the quotient by [2^20] is a float: the division does not
    round. *)
Lemma int_truediv_mib_exact (b : Z) :
  0 < b < 2 ^ 53 ->
  exists m e a d,
    int_truediv b (2 ^ 20) = Some (FNum false m e) /\
    frac m e = (a, d) /\ 0 < d /\ a * 2 ^ 20 = b * d.
Proof.
  intros [Hpos Hlt].
  unfold int_truediv.
  replace (b <? 0) with false by (symmetry; apply Z.ltb_ge; lia).
  rewrite Z.abs_eq by lia.
  change (Z.pos (2 ^ 20)) with (2 ^ 20).
  pose proof (Z.log2_spec b Hpos) as HL.
  pose proof (Z.log2_nonneg b) as HL0.
  assert (HL52 : Z.log2 b < 53) by (apply Z.log2_lt_pow2; lia).
  set (L := Z.log2 b) in *.
  assert (Hil : ilog2_ratio b (2 ^ 20) = L - 20).
  { unfold ilog2_ratio. change (Z.log2 (2 ^ 20)) with 20. fold L.
    destruct (Z.leb_spec 0 (L - 20)) as [Hk|Hk].
    - replace (2 ^ 20 * 2 ^ (L - 20)) with (2 ^ L)
        by (rewrite <- Z.pow_add_r by lia; f_equal; lia).
      destruct (Z.ltb_spec b (2 ^ L)); [lia | reflexivity].
    - assert (H20 : 2 ^ L * 2 ^ (- (L - 20)) = 2 ^ 20)
        by (rewrite <- Z.pow_add_r by lia; f_equal; lia).
      assert (0 < 2 ^ (- (L - 20))) by (apply Z.pow_pos_nonneg; lia).
      destruct (Z.ltb_spec (b * 2 ^ (- (L - 20))) (2 ^ 20)); [nia | reflexivity]. }
  unfold nearest.
  replace (b =? 0) with false by (symmetry; apply Z.eqb_neq; lia).
  rewrite Hil. rewrite Z.max_l by lia.
  set (e0 := L - 20 - 52).
  destruct (Z.leb_spec 0 e0) as [He0|He0]; [unfold e0 in He0; lia|].
  set (n := 52 - L).
  assert (Hn : 0 < 2 ^ n) by (apply Z.pow_pos_nonneg; unfold n; lia).
  assert (Hsplit : 2 ^ (- e0) = 2 ^ n * 2 ^ 20)
    by (rewrite <- Z.pow_add_r by (unfold n; lia); f_equal; unfold e0, n; lia).
  rewrite Hsplit, Z.mul_assoc, div_half_even_exact by (apply Z.pow_pos_nonneg; lia).
  assert (Hq53 : b * 2 ^ n < 2 ^ 53).
  { replace (2 ^ 53) with (2 ^ (L + 1) * 2 ^ n)
      by (rewrite <- Z.pow_add_r by (unfold n; lia); f_equal; unfold n; lia).
    nia. }
  assert (Hbig : 2 ^ 53 <= 2 ^ (1024 - e0))
    by (apply Z.pow_le_mono_r; unfold e0; lia).
  destruct (Z.leb_spec (2 ^ (1024 - e0)) (b * 2 ^ n)) as [Hov|_]; [lia|].
  destruct (b * 2 ^ n) as [|p|p] eqn:Hq; [nia | | lia].
  destruct (canon p e0) as [m e] eqn:Hc.
  apply canon_value in Hc. destruct Hc as [Hle Hp].
  destruct (Z.leb_spec 0 e) as [He|He].
  - exists m, e, (Z.pos m * 2 ^ e), 1.
    split; [reflexivity|].
    split; [unfold frac; destruct (Z.leb_spec 0 e); [reflexivity | lia]|].
    split; [lia|].
    assert (Hexp : 2 ^ (e - e0) = 2 ^ e * (2 ^ n * 2 ^ 20))
      by (rewrite <- Hsplit, <- Z.pow_add_r by lia; f_equal; lia).
    rewrite Hexp in Hp. nia.
  - exists m, e, (Z.pos m), (2 ^ (- e)).
    assert (Hd : 0 < 2 ^ (- e)) by (apply Z.pow_pos_nonneg; lia).
    split; [reflexivity|].
    split; [unfold frac; destruct (Z.leb_spec 0 e); [lia | reflexivity]|].
    split; [exact Hd|].
    assert (Hexp : 2 ^ (e - e0) * 2 ^ (- e) = 2 ^ n * 2 ^ 20)
      by (rewrite <- Hsplit, <- Z.pow_add_r by lia; f_equal; lia).
    nia.
Qed.

(** The conversion of a count below [2^53] is the float nearest to the
    exact quotient rounded to one decimal, ties to even. *)
Lemma round_mib_exact (b : Z) :
  0 <= b < 2 ^ 53 ->
  round_mib b = of_float_opt (nearest false (div_half_even (10 * b) (2 ^ 20)) 10).
Proof.
  intros [H0 Hlt]. unfold round_mib. cbn [truediv].
  destruct (Z.eq_dec b 0) as [->|Hb]; [reflexivity|].
  destruct (int_truediv_mib_exact b) as (m & e & a & d & Hdiv & Hfrac & Hd & Hval);
    [lia|].
  rewrite Hdiv. cbn [of_float_opt round_1 round1]. rewrite Hfrac.
  f_equal. f_equal. apply div_half_even_cross; lia.
Qed.

(** ** The nearest float *)

Lemma div_half_even_spec (a d : Z) :
  0 <= a -> 0 < d ->
  let q := div_half_even a d in
  0 <= q /\
  2 * Z.abs (a - q * d) <= d /\
  (2 * Z.abs (a - q * d) = d -> Z.even q = true).
Proof.
  intros Ha Hd. unfold div_half_even.
  pose proof (Z.div_mod a d ltac:(lia)) as Hdm.
  pose proof (Z.mod_pos_bound a d Hd) as Hr.
  pose proof (Z.div_pos a d Ha Hd) as Hq.
  set (q := a / d) in *. set (r := a mod d) in *.
  destruct (Z.ltb_spec (2 * r) d) as [H1|H1].
  - split; [lia|]. split; [nia|]. intros H. exfalso. nia.
  - destruct (Z.ltb_spec d (2 * r)) as [H2|H2].
    + split; [lia|]. split; [nia|]. intros H. exfalso. nia.
    + destruct (Z.even q) eqn:Ev.
      * split; [lia|]. split; [nia|]. intros _. exact Ev.
      * split; [lia|]. split; [nia|]. intros _.
        rewrite Z.even_add, Ev. reflexivity.
Qed.

Lemma pow2_pos (n : Z) : 0 <= n -> 0 < 2 ^ n.
Proof. intros H. apply Z.pow_pos_nonneg; lia. Qed.

(** [ilog2_ratio a b] is the binade of [a / b], read at the scale of a
    53-bit significand. *)
Lemma ilog2_ratio_scaled (a b : Z) :
  0 < a -> 0 < b -> a < 2 ^ 52 * b ->
  let L := ilog2_ratio a b in
  L < 52 /\ 2 ^ 52 * b <= a * 2 ^ (52 - L) < 2 ^ 53 * b.
Proof.
  intros Ha Hb Hsmall.
  pose proof (Z.log2_spec a Ha) as HLa. pose proof (Z.log2_nonneg a) as HLa0.
  pose proof (Z.log2_spec b Hb) as HLb. pose proof (Z.log2_nonneg b) as HLb0.
  unfold ilog2_ratio.
  set (la := Z.log2 a) in *. set (lb := Z.log2 b) in *.
  rewrite Z.pow_succ_r in HLa, HLb by lia.
  assert (Hk52 : la - lb <= 52).
  { destruct (Z_le_gt_dec (la - lb) 52) as [H|H]; [exact H|exfalso].
    assert (2 ^ la = 2 ^ (lb + 1) * 2 ^ 52 * 2 ^ (la - lb - 53))
      by (rewrite <- !Z.pow_add_r by lia; f_equal; lia).
    pose proof (pow2_pos (la - lb - 53) ltac:(lia)).
    rewrite Z.pow_add_r, Z.pow_1_r in H0 by lia.
    nia. }
  destruct (Z.leb_spec 0 (la - lb)) as [Hk|Hk].
  - assert (Hla : 2 ^ la = 2 ^ lb * 2 ^ (la - lb))
      by (rewrite <- Z.pow_add_r by lia; f_equal; lia).
    pose proof (pow2_pos (la - lb) Hk) as Hp.
    destruct (Z.ltb_spec a (b * 2 ^ (la - lb))) as [Hbelow|Hbelow].
    + (* L = k - 1 *)
      split; [lia|].
      replace (52 - (la - lb - 1)) with (53 - (la - lb)) by lia.
      assert (H53 : 2 ^ 53 = 2 ^ (la - lb) * 2 ^ (53 - (la - lb)))
        by (rewrite <- Z.pow_add_r by lia; f_equal; lia).
      pose proof (pow2_pos (53 - (la - lb)) ltac:(lia)) as Hq.
      change (2 ^ 52) with (2 ^ 53 / 2) in *.
      assert (H52 : 2 * (2 ^ 53 / 2) = 2 ^ 53) by reflexivity.
      set (P := 2 ^ (la - lb)) in *. set (Q := 2 ^ (53 - (la - lb))) in *.
      set (B := 2 ^ lb) in *.
      split; nia.
    + split.
      * destruct (Z.eq_dec (la - lb) 52) as [E|E]; [|lia]. exfalso.
        rewrite E in Hbelow. lia.
      * assert (Hlt : la - lb < 52).
        { destruct (Z.eq_dec (la - lb) 52) as [E|E]; [|lia]. exfalso.
          rewrite E in Hbelow. lia. }
        assert (H52 : 2 ^ 52 = 2 ^ (la - lb) * 2 ^ (52 - (la - lb)))
          by (rewrite <- Z.pow_add_r by lia; f_equal; lia).
        pose proof (pow2_pos (52 - (la - lb)) ltac:(lia)) as Hq.
        change (2 ^ 53) with (2 * 2 ^ 52).
        set (P := 2 ^ (la - lb)) in *. set (Q := 2 ^ (52 - (la - lb))) in *.
        set (B := 2 ^ lb) in *.
        split; nia.
  - assert (Hlb : 2 ^ lb = 2 ^ la * 2 ^ (- (la - lb)))
      by (rewrite <- Z.pow_add_r by lia; f_equal; lia).
    pose proof (pow2_pos (- (la - lb)) ltac:(lia)) as Hp.
    destruct (Z.ltb_spec (a * 2 ^ (- (la - lb))) b) as [Hbelow|Hbelow].
    + split; [lia|].
      replace (52 - (la - lb - 1)) with (53 + - (la - lb)) by lia.
      rewrite Z.pow_add_r by lia.
      change (2 ^ 52) with (2 ^ 53 / 2).
      assert (H52 : 2 * (2 ^ 53 / 2) = 2 ^ 53) by reflexivity.
      set (P := 2 ^ (- (la - lb))) in *. set (A := 2 ^ la) in *.
      split; nia.
    + split; [lia|].
      replace (52 - (la - lb)) with (52 + - (la - lb)) by lia.
      rewrite Z.pow_add_r by lia.
      change (2 ^ 53) with (2 * 2 ^ 52).
      set (P := 2 ^ (- (la - lb))) in *. set (A := 2 ^ la) in *.
      split; nia.
Qed.

(** [ilog2_ratio a b] is the binade of [a / b]. *)
Lemma ilog2_ratio_spec (a b : Z) :
  0 < a -> 0 < b ->
  let L := ilog2_ratio a b in
  (0 <= L -> b * 2 ^ L <= a < b * 2 ^ (L + 1)) /\
  (L < 0 -> b <= a * 2 ^ (- L) < 2 * b).
Proof.
  intros Ha Hb.
  pose proof (Z.log2_spec a Ha) as HLa. pose proof (Z.log2_nonneg a) as HLa0.
  pose proof (Z.log2_spec b Hb) as HLb. pose proof (Z.log2_nonneg b) as HLb0.
  unfold ilog2_ratio.
  set (la := Z.log2 a) in *. set (lb := Z.log2 b) in *.
  rewrite Z.pow_succ_r in HLa, HLb by lia.
  destruct (Z.leb_spec 0 (la - lb)) as [Hk|Hk].
  - assert (Hla : 2 ^ la = 2 ^ lb * 2 ^ (la - lb))
      by (rewrite <- Z.pow_add_r by lia; f_equal; lia).
    pose proof (pow2_pos (la - lb) Hk) as Hp.
    destruct (Z.ltb_spec a (b * 2 ^ (la - lb))) as [Hbelow|Hbelow].
    + split.
      * intros HL. replace (la - lb - 1 + 1) with (la - lb) by lia.
        split; [|exact Hbelow].
        assert (Hs : 2 ^ (la - lb) = 2 * 2 ^ (la - lb - 1))
          by (rewrite <- Z.pow_succ_r by lia; f_equal; lia).
        pose proof (pow2_pos (la - lb - 1) HL) as Hq.
        set (Q := 2 ^ (la - lb - 1)) in *. set (P := 2 ^ (la - lb)) in *.
        set (B := 2 ^ lb) in *. set (A := 2 ^ la) in *.
        clearbody Q P B A. clear - Hla Hs Hq HLa HLb Hb. nia.
      * intros HL. assert (Hk0 : la - lb = 0) by lia.
        rewrite Hk0 in *. change (- (0 - 1)) with 1.
        change (2 ^ 0) with 1 in *. change (2 ^ 1) with 2. lia.
    + split; [|lia].
      intros _. split; [exact Hbelow|].
      rewrite Z.pow_add_r, Z.pow_1_r by lia.
      set (P := 2 ^ (la - lb)) in *.
      set (B := 2 ^ lb) in *. set (A := 2 ^ la) in *.
      clearbody P B A. clear - Hla Hp HLa HLb Hb. nia.
  - assert (Hlb : 2 ^ lb = 2 ^ la * 2 ^ (- (la - lb)))
      by (rewrite <- Z.pow_add_r by lia; f_equal; lia).
    pose proof (pow2_pos (- (la - lb)) ltac:(lia)) as Hp.
    destruct (Z.ltb_spec (a * 2 ^ (- (la - lb))) b) as [Hbelow|Hbelow].
    + split; [lia|]. intros _.
      replace (- (la - lb - 1)) with (- (la - lb) + 1) by lia.
      rewrite Z.pow_add_r, Z.pow_1_r by lia.
      set (P := 2 ^ (- (la - lb))) in *.
      set (B := 2 ^ lb) in *. set (A := 2 ^ la) in *.
      clearbody P B A. clear - Hlb Hp HLa HLb Ha Hbelow. nia.
    + split; [lia|]. intros _. split; [exact Hbelow|].
      set (P := 2 ^ (- (la - lb))) in *.
      set (B := 2 ^ lb) in *. set (A := 2 ^ la) in *.
      clearbody P B A. clear - Hlb Hp HLa HLb Ha. nia.
Qed.

(** The same at the scale of a 53-bit significand, where [E] is the
    exponent of the unit in the last place. *)
Lemma ilog2_ratio_binade (a b : Z) :
  0 < a -> 0 < b ->
  let E := ilog2_ratio a b - 52 in
  (E < 0 -> 2 ^ 52 * b <= a * 2 ^ (- E) < 2 ^ 53 * b) /\
  (0 <= E -> 2 ^ 52 * (b * 2 ^ E) <= a < 2 ^ 53 * (b * 2 ^ E)).
Proof.
  intros Ha Hb. destruct (ilog2_ratio_spec a b Ha Hb) as [Hpos Hneg].
  set (L := ilog2_ratio a b) in *. cbv zeta. split.
  - intros HE. replace (- (L - 52)) with (52 - L) by lia.
    destruct (Z_le_gt_dec 0 L) as [HL|HL].
    + specialize (Hpos HL).
      assert (H52 : 2 ^ 52 = 2 ^ L * 2 ^ (52 - L))
        by (rewrite <- Z.pow_add_r by lia; f_equal; lia).
      rewrite Z.pow_add_r, Z.pow_1_r in Hpos by lia.
      pose proof (pow2_pos (52 - L) ltac:(lia)) as Hq.
      change (2 ^ 53) with (2 * 2 ^ 52). rewrite H52.
      set (P := 2 ^ L) in *. set (Q := 2 ^ (52 - L)) in *.
      clearbody P Q. clear - Hpos Hq Hb. nia.
    + specialize (Hneg ltac:(lia)).
      replace (52 - L) with (- L + 52) by lia. rewrite Z.pow_add_r by lia.
      change (2 ^ 53) with (2 * 2 ^ 52).
      set (P := 2 ^ (- L)) in *. clearbody P. clear - Hneg. lia.
  - intros HE. specialize (Hpos ltac:(lia)).
    assert (HL : 2 ^ L = 2 ^ 52 * 2 ^ (L - 52))
      by (rewrite <- Z.pow_add_r by lia; f_equal; lia).
    rewrite Z.pow_add_r, Z.pow_1_r in Hpos by lia.
    change (2 ^ 53) with (2 * 2 ^ 52). rewrite HL in Hpos.
    set (Q := 2 ^ (L - 52)) in *. clearbody Q. clear - Hpos. lia.
Qed.

Lemma canon_odd (p : positive) :
  forall (e : Z) (m : positive) (e' : Z),
    canon p e = (m, e') -> Z.odd (Zpos m) = true.
Proof.
  induction p as [p IH|p IH|]; intros e m e' H; simpl in H.
  - injection H as <- <-. reflexivity.
  - exact (IH _ _ _ H).
  - injection H as <- <-. reflexivity.
Qed.

Lemma nearest_integer_bounds (A b q : Z) :
  0 < b -> 2 ^ 52 * b <= A < 2 ^ 53 * b -> 2 * Z.abs (A - q * b) <= b ->
  2 ^ 52 <= q <= 2 ^ 53.
Proof. intros Hb HA Hq. nia. Qed.

Lemma nearer_than_other_integer (A b p z : Z) :
  0 < b -> 2 * Z.abs (A - p * b) <= b -> 2 * Z.abs (A - p * b) <> b -> z <> p ->
  Z.abs (b * p - A) < Z.abs (b * z - A).
Proof. intros Hb Hp Ht Hz. nia. Qed.

Lemma nearer_than_below_binade (A b p : Z) :
  0 < b -> 2 ^ 52 * b <= A -> 2 ^ 52 <= p -> 2 * Z.abs (A - p * b) <= b ->
  Z.abs (b * p - A) <= A - 2 ^ 52 * b.
Proof.
  intros Hb HA Hp Hn.
  destruct (Z.eq_dec p (2 ^ 52)) as [->|Hne]; [lia|].
  assert (b * (2 ^ 52 + 1) <= b * p) by (apply Z.mul_le_mono_nonneg_l; lia).
  lia.
Qed.

Lemma below_binade_far (A b U Y W m' D : Z) :
  0 < b -> 0 < U -> 0 < Y -> 2 <= W -> m' < 2 ^ 53 ->
  Y * W = m' * U -> 2 ^ 52 * b <= A -> 0 <= D <= A - 2 ^ 52 * b ->
  D * U < Z.abs (b * Y - A * U).
Proof.
  intros Hb HU HY HW Hm Heq HA HD.
  assert (H1 : 2 * Y <= Y * W) by nia.
  assert (H2 : m' * U < 2 ^ 53 * U) by (apply Z.mul_lt_mono_pos_r; lia).
  assert (H3 : Y < 2 ^ 52 * U) by lia.
  assert (H4 : b * Y < b * (2 ^ 52 * U)) by (apply Z.mul_lt_mono_pos_l; lia).
  assert (H5 : (2 ^ 52 * b) * U <= A * U) by (apply Z.mul_le_mono_nonneg_r; lia).
  assert (H6 : D * U <= (A - 2 ^ 52 * b) * U) by (apply Z.mul_le_mono_nonneg_r; lia).
  lia.
Qed.

Lemma nearer_than_nonpositive (A b p U Y : Z) :
  0 < b -> 0 < U -> 2 ^ 52 * b <= A -> 2 * Z.abs (A - p * b) <= b -> Y <= 0 ->
  Z.abs (b * (p * U) - A * U) < Z.abs (b * Y - A * U).
Proof.
  intros Hb HU HA Hp HY.
  replace (b * (p * U) - A * U) with ((b * p - A) * U) by ring.
  rewrite Z.abs_mul, (Z.abs_eq U) by lia.
  assert (H1 : Z.abs (b * p - A) < A) by lia.
  assert (H2 : Z.abs (b * p - A) * U < A * U)
    by (apply Z.mul_lt_mono_pos_r; assumption).
  assert (H3 : b * Y <= 0) by (apply Z.mul_nonneg_nonpos; lia).
  assert (H4 : 0 < A * U) by (apply Z.mul_pos_pos; lia).
  lia.
Qed.

Lemma below_two_to_the_1024 (p U V : Z) :
  0 < U -> 2 <= V -> 0 < p <= 2 ^ 53 -> p * U < 2 ^ 53 * U * V.
Proof.
  intros HU HV Hp.
  assert (H1 : p * U <= 2 ^ 53 * U) by (apply Z.mul_le_mono_nonneg_r; lia).
  assert (H2 : 0 < 2 ^ 53 * U) by lia.
  assert (H3 : 2 ^ 53 * U * 2 <= 2 ^ 53 * U * V)
    by (apply Z.mul_le_mono_nonneg_l; lia).
  lia.
Qed.

(** [nearest] on a quotient in the normal range below [2^52]: the result is
    a binary64 number, and no other one is as near to [a / b] unless
    [a / b] lies midway between two neighbours. *)
Lemma nearest_normal (a b : Z) :
  0 < a -> 0 < b -> a < 2 ^ 52 * b -> b <= a * 2 ^ 1022 ->
  exists x,
    nearest false a b = Some x /\ binary64 x /\ negative x = false /\
    forall y, binary64 y -> units y <> units x ->
      Z.abs (b * units x - a * 2 ^ 1074) < Z.abs (b * units y - a * 2 ^ 1074) \/
      exists t p, 2 * Z.abs (2 * t - p * b) = b.
Proof.
  intros Ha Hb Hsmall Hnormal.
  destruct (ilog2_ratio_scaled a b Ha Hb Hsmall) as [HL [Hlo Hhi]].
  set (L := ilog2_ratio a b) in *.
  assert (HLmin : -1022 <= L).
  { destruct (Z_le_gt_dec (-1022) L) as [H|H]; [exact H|exfalso].
    assert (Hs : 2 ^ (52 - L) = 2 ^ 1022 * 2 ^ 53 * 2 ^ (-1023 - L))
      by (rewrite <- !Z.pow_add_r by lia; f_equal; lia).
    pose proof (pow2_pos (-1023 - L) ltac:(lia)) as Hp.
    rewrite Hs in Hhi.
    set (P := 2 ^ (-1023 - L)) in *. set (Q := 2 ^ 1022) in *.
    set (R := 2 ^ 53) in *. assert (0 < R) by (subst R; lia).
    assert (0 < Q) by (subst Q; apply pow2_pos; lia).
    nia. }
  set (E := L - 52).
  set (A := a * 2 ^ (52 - L)) in *.
  destruct (div_half_even_spec A b) as (Hq0 & Hnear & Htie);
    [subst A; pose proof (pow2_pos (52 - L) ltac:(lia)); nia | exact Hb |].
  set (q := div_half_even A b) in *.
  destruct (nearest_integer_bounds A b q Hb (conj Hlo Hhi) Hnear) as [Hq52 Hq53].
  unfold nearest.
  replace (a =? 0) with false by (symmetry; apply Z.eqb_neq; lia).
  fold L. rewrite Z.max_l by lia. fold E.
  replace (0 <=? E) with false by (symmetry; apply Z.leb_gt; unfold E; lia).
  replace (- E) with (52 - L) by (unfold E; lia). fold A. fold q.
  assert (Hbig : 2 ^ 53 < 2 ^ (1024 - E))
    by (apply Z.pow_lt_mono_r; unfold E; lia).
  replace (2 ^ (1024 - E) <=? q) with false by (symmetry; apply Z.leb_gt; lia).
  destruct q as [|p|p] eqn:Hq; [lia| |lia].
  destruct (canon p E) as [m e'] eqn:Hc.
  pose proof (canon_odd p E m e' Hc) as Hodd.
  apply canon_value in Hc. destruct Hc as [Hle Hp].
  set (U := 2 ^ (E + 1074)).
  assert (HU : 0 < U) by (apply pow2_pos; unfold E; lia).
  assert (Hunits : Zpos m * 2 ^ (e' + 1074) = Zpos p * U).
  { unfold U. rewrite Hp.
    replace (e' + 1074) with ((e' - E) + (E + 1074)) by lia.
    rewrite Z.pow_add_r by (unfold E; lia). ring. }
  assert (Htarget : a * 2 ^ 1074 = A * U).
  { unfold A, U. rewrite <- Z.mul_assoc, <- Z.pow_add_r by (unfold E; lia).
    f_equal. f_equal. unfold E. lia. }
  exists (FNum false m e'). split; [reflexivity|].
  split; [|split; [reflexivity|]].
  - (* a binary64 number *)
    split; [|split].
    + assert (Zpos m <= Zpos p).
      { rewrite Hp. pose proof (pow2_pos (e' - E) ltac:(lia)).
        apply Z.le_mul_diag_r; lia. }
      destruct (Z.eq_dec (Zpos m) (2 ^ 53)) as [E53|E53]; [|lia].
      rewrite E53 in Hodd. discriminate Hodd.
    + unfold E in Hle. lia.
    + rewrite Hunits.
      assert (2 ^ 2098 = 2 ^ 53 * U * 2 ^ (971 - E)).
      { unfold U. rewrite <- !Z.pow_add_r by (unfold E; lia). f_equal. lia. }
      rewrite H. apply below_two_to_the_1024; [exact HU | | lia].
      change 2 with (2 ^ 1) at 1. apply Z.pow_le_mono_r; unfold E; lia.
  - (* nearer than any other *)
    intros y Hy Hne. cbn [units] in *.
    rewrite Z.mul_1_l in *. rewrite Hunits in *. rewrite Htarget.
    destruct y as [s|s m' e'']; cbn [units binary64] in *.
    + left. apply nearer_than_nonpositive; try assumption; lia.
    + destruct Hy as (Hm' & He'' & _).
      pose proof (Pos2Z.is_pos m') as Hm'0.
      destruct s.
      * left. pose proof (pow2_pos (e'' + 1074) ltac:(lia)).
        apply nearer_than_nonpositive; try assumption.
        assert (0 < Zpos m' * 2 ^ (e'' + 1074)) by (apply Z.mul_pos_pos; lia).
        lia.
      * rewrite Z.mul_1_l in *.
        destruct (Z_le_gt_dec E e'') as [Hge|Hlt].
        -- (* a multiple of the unit in the last place *)
           assert (Hy : Zpos m' * 2 ^ (e'' + 1074) = (Zpos m' * 2 ^ (e'' - E)) * U).
           { unfold U. replace (e'' + 1074) with ((e'' - E) + (E + 1074)) by lia.
             rewrite Z.pow_add_r by (unfold E; lia). ring. }
           rewrite Hy in *.
           set (z := Zpos m' * 2 ^ (e'' - E)) in *.
           assert (Hz : z <> Zpos p) by (intros ->; apply Hne; reflexivity).
           destruct (Z.eq_dec (2 * Z.abs (A - Zpos p * b)) b) as [Ht|Ht].
           ++ right. exists (a * 2 ^ (51 - L)), (Zpos p).
              replace (2 * (a * 2 ^ (51 - L))) with A; [exact Ht|].
              unfold A. replace (52 - L) with (Z.succ (51 - L)) by lia.
              rewrite Z.pow_succ_r by lia. ring.
           ++ left.
              replace (b * (Zpos p * U) - A * U) with ((b * Zpos p - A) * U) by ring.
              replace (b * (z * U) - A * U) with ((b * z - A) * U) by ring.
              rewrite !Z.abs_mul, (Z.abs_eq U) by lia.
              apply Z.mul_lt_mono_pos_r; [exact HU|].
              apply nearer_than_other_integer; assumption.
        -- (* below the binade *)
           left.
           assert (Hy : Zpos m' * 2 ^ (e'' + 1074) * 2 ^ (E - e'') = Zpos m' * U).
           { unfold U. rewrite <- Z.mul_assoc, <- Z.pow_add_r by lia.
             f_equal. f_equal. lia. }
           assert (H2 : 2 <= 2 ^ (E - e'')).
           { change 2 with (2 ^ 1) at 1. apply Z.pow_le_mono_r; lia. }
           pose proof (pow2_pos (e'' + 1074) ltac:(lia)) as HY.
           set (Y := Zpos m' * 2 ^ (e'' + 1074)) in *.
           set (W := 2 ^ (E - e'')) in *.
           replace (b * (Zpos p * U) - A * U) with ((b * Zpos p - A) * U) by ring.
           rewrite Z.abs_mul, (Z.abs_eq U) by lia.
           apply (below_binade_far A b U Y W (Zpos m')); try assumption; try lia.
           split; [apply Z.abs_nonneg|].
           apply nearer_than_below_binade; assumption.
Qed.

Lemma nearest_integer (A b p z : Z) :
  0 < b -> 2 * Z.abs (A - p * b) <= b ->
  Z.abs (b * p - A) <= Z.abs (b * z - A).
Proof.
  intros Hb Hp. destruct (Z.eq_dec z p) as [->|Hz]; [lia|]. nia.
Qed.

Lemma as_near_integer (A b p z : Z) :
  0 < b -> 2 * Z.abs (A - p * b) <= b -> z <> p ->
  Z.abs (b * p - A) = Z.abs (b * z - A) ->
  2 * Z.abs (A - p * b) = b /\ (z = p + 1 \/ z = p - 1).
Proof. intros Hb Hp Hz Heq. nia. Qed.

Lemma even_multiple (p U d : Z) :
  0 < U -> (d = U \/ d = - U) -> Z.even p = true -> Z.even (p * U / d) = true.
Proof.
  intros HU [->| ->] Hp.
  - rewrite Z.div_mul by lia. exact Hp.
  - replace (p * U) with (- p * - U) by ring.
    rewrite Z.div_mul by lia. rewrite Z.even_opp. exact Hp.
Qed.

(** The heart of the rounding: [p] units in the last place, of [2^E] each,
    where [p] is the integer nearest to the quotient [A / b] taken at that
    scale. *)
Lemma nearest_in_binade (A b p E : Z) (y : pyfloat) :
  -1074 <= E -> 0 < b ->
  2 ^ 52 * b <= A < 2 ^ 53 * b ->
  2 * Z.abs (A - p * b) <= b ->
  (2 * Z.abs (A - p * b) = b -> Z.even p = true) ->
  binary64 y ->
  let U := 2 ^ (E + 1074) in
  Z.abs (b * (p * U) - A * U) <= Z.abs (b * units y - A * U) /\
  (Z.abs (b * (p * U) - A * U) = Z.abs (b * units y - A * U) ->
   units y <> p * U ->
   Z.even (p * U / (units y - p * U)) = true).
Proof.
  intros HE Hb HA Hnear Htie Hy U.
  assert (HU : 0 < U) by (apply pow2_pos; lia).
  destruct (nearest_integer_bounds A b p Hb HA Hnear) as [Hp52 Hp53].
  assert (Hfar : forall Y, Y <= 0 ->
            Z.abs (b * (p * U) - A * U) < Z.abs (b * Y - A * U))
    by (intros Y HY; apply nearer_than_nonpositive; lia || assumption).
  destruct y as [s|s m e]; cbn [units binary64] in *.
  - specialize (Hfar 0 ltac:(lia)). split; lia.
  - destruct Hy as (Hm & He & _).
    pose proof (Pos2Z.is_pos m) as Hm0.
    pose proof (pow2_pos (e + 1074) ltac:(lia)) as Hpow.
    assert (HY : 0 < Zpos m * 2 ^ (e + 1074)) by (apply Z.mul_pos_pos; lia).
    destruct s.
    + specialize (Hfar (-1 * (Zpos m * 2 ^ (e + 1074))) ltac:(lia)).
      split; lia.
    + rewrite Z.mul_1_l.
      destruct (Z_le_gt_dec E e) as [Hge|Hlt].
      * (* a multiple of the unit in the last place *)
        assert (Hz : Zpos m * 2 ^ (e + 1074) = (Zpos m * 2 ^ (e - E)) * U).
        { unfold U. replace (e + 1074) with ((e - E) + (E + 1074)) by lia.
          rewrite Z.pow_add_r by lia. ring. }
        rewrite Hz. set (z := Zpos m * 2 ^ (e - E)).
        replace (b * (p * U) - A * U) with ((b * p - A) * U) by ring.
        replace (b * (z * U) - A * U) with ((b * z - A) * U) by ring.
        rewrite !Z.abs_mul, (Z.abs_eq U) by lia.
        split.
        -- apply Z.mul_le_mono_nonneg_r; [lia|].
           apply nearest_integer; assumption.
        -- intros Heq Hne.
           assert (Hzp : z <> p) by (intros ->; apply Hne; reflexivity).
           apply Z.mul_cancel_r in Heq; [|lia].
           destruct (as_near_integer A b p z Hb Hnear Hzp Heq) as [Ht Hz1].
           apply even_multiple; [exact HU | | exact (Htie Ht)].
           destruct Hz1 as [-> | ->]; [left | right]; ring.
      * (* below the binade *)
        assert (Hs : Zpos m * 2 ^ (e + 1074) * 2 ^ (E - e) = Zpos m * U).
        { unfold U. rewrite <- Z.mul_assoc, <- Z.pow_add_r by lia.
          f_equal. f_equal. lia. }
        assert (H2 : 2 <= 2 ^ (E - e)).
        { change 2 with (2 ^ 1) at 1. apply Z.pow_le_mono_r; lia. }
        assert (Hlt' : Z.abs (b * (p * U) - A * U)
                       < Z.abs (b * (Zpos m * 2 ^ (e + 1074)) - A * U)).
        { replace (b * (p * U) - A * U) with ((b * p - A) * U) by ring.
          rewrite Z.abs_mul, (Z.abs_eq U) by lia.
          apply (below_binade_far A b U _ (2 ^ (E - e)) (Zpos m));
            try assumption; try lia.
          split; [apply Z.abs_nonneg|].
          apply nearer_than_below_binade; lia || assumption. }
        split; lia.
Qed.

Lemma canon_binary64 (p : positive) (E : Z) (m : positive) (e' : Z) :
  canon p E = (m, e') ->
  -1074 <= E -> Zpos p <= 2 ^ 53 -> Zpos p * 2 ^ (E + 1074) < 2 ^ 2098 ->
  binary64 (FNum false m e') /\
  units (FNum false m e') = Zpos p * 2 ^ (E + 1074).
Proof.
  intros Hc HE Hp Hval.
  pose proof (canon_odd p E m e' Hc) as Hodd.
  apply canon_value in Hc. destruct Hc as [Hle Hpm].
  assert (Hunits : Zpos m * 2 ^ (e' + 1074) = Zpos p * 2 ^ (E + 1074)).
  { rewrite Hpm. replace (e' + 1074) with ((e' - E) + (E + 1074)) by lia.
    rewrite Z.pow_add_r by lia. ring. }
  split.
  - split; [|split].
    + assert (Zpos m <= Zpos p).
      { rewrite Hpm. pose proof (pow2_pos (e' - E) ltac:(lia)).
        apply Z.le_mul_diag_r; lia. }
      destruct (Z.eq_dec (Zpos m) (2 ^ 53)) as [E53|E53]; [|lia].
      rewrite E53 in Hodd. discriminate Hodd.
    + lia.
    + rewrite Hunits. exact Hval.
  - cbn [units]. rewrite Z.mul_1_l. exact Hunits.
Qed.

Lemma overflow_exponent (a b E : Z) :
  0 < b -> 0 <= E ->
  2 ^ 52 * (b * 2 ^ E) <= a < 2 ^ 53 * (b * 2 ^ E) ->
  (a < 2 ^ 1024 * b -> E < 972) /\ (2 ^ 1023 * b <= a -> 971 <= E).
Proof.
  intros Hb HE [Hlo Hhi]. split.
  - intros Ha. destruct (Z_lt_ge_dec E 972) as [H|H]; [exact H|exfalso].
    assert (H2 : 2 ^ 972 <= 2 ^ E) by (apply Z.pow_le_mono_r; lia).
    assert (H3 : 2 ^ 1024 = 2 ^ 52 * 2 ^ 972) by reflexivity.
    rewrite H3 in Ha.
    set (P := 2 ^ E) in *. set (Q := 2 ^ 972) in *.
    assert (0 < Q) by (subst Q; apply pow2_pos; lia).
    clearbody P Q. clear - Ha Hlo H2 Hb H. nia.
  - intros Ha. destruct (Z_le_gt_dec 971 E) as [H|H]; [exact H|exfalso].
    assert (H2 : 2 ^ E <= 2 ^ 970) by (apply Z.pow_le_mono_r; lia).
    assert (H3 : 2 ^ 1023 = 2 ^ 53 * 2 ^ 970) by reflexivity.
    rewrite H3 in Ha.
    pose proof (pow2_pos E HE).
    set (P := 2 ^ E) in *. set (Q := 2 ^ 970) in *.
    clearbody P Q. clear - Ha Hhi H2 Hb H0. nia.
Qed.

Lemma no_overflow_at_the_top (A B q : Z) :
  0 < B -> 2 * Z.abs (A - q * B) <= B -> 2 * A < (2 * 2 ^ 53 - 1) * B ->
  q < 2 ^ 53.
Proof. intros HB Hq HA. nia. Qed.

Lemma overflow_at_the_top (A B q : Z) :
  0 < B -> 2 * Z.abs (A - q * B) <= B ->
  (2 * Z.abs (A - q * B) = B -> Z.even q = true) ->
  (2 * 2 ^ 53 - 1) * B <= 2 * A ->
  2 ^ 53 <= q.
Proof.
  intros HB Hq Htie HA.
  assert (Hq1 : 2 ^ 53 - 1 <= q) by nia.
  destruct (Z.eq_dec q (2 ^ 53 - 1)) as [->|Hne]; [exfalso|lia].
  assert (Ht : 2 * Z.abs (A - (2 ^ 53 - 1) * B) = B) by lia.
  specialize (Htie Ht). discriminate Htie.
Qed.

(** [nearest] on a positive quotient in the normal range: the binary64
    number nearest to it, ties to even, or nothing from [2^1024 - 2^970]
    on, where that number would be [2^1024]. *)
Lemma nearest_spec (a b : Z) :
  0 < a -> 0 < b -> b <= a * 2 ^ 1022 ->
  (a < (2 ^ 1024 - 2 ^ 970) * b ->
   exists x, nearest false a b = Some x /\ nearest_binary64 a b x) /\
  ((2 ^ 1024 - 2 ^ 970) * b <= a -> nearest false a b = None).
Proof.
  intros Ha Hb Hnormal.
  destruct (ilog2_ratio_binade a b Ha Hb) as [Hneg Hpos].
  set (E := ilog2_ratio a b - 52) in *.
  assert (HE : -1074 <= E).
  { destruct (Z_le_gt_dec (-1074) E) as [H|H]; [exact H|exfalso].
    destruct (Hneg ltac:(lia)) as [_ Hhi].
    assert (Hs : 2 ^ (- E) = 2 ^ 1022 * 2 ^ 53 * 2 ^ (- E - 1075))
      by (rewrite <- !Z.pow_add_r by lia; f_equal; lia).
    pose proof (pow2_pos (- E - 1075) ltac:(lia)) as Hp.
    rewrite Hs in Hhi.
    set (P := 2 ^ (- E - 1075)) in *. set (Q := 2 ^ 1022) in *.
    set (R := 2 ^ 53) in *. assert (0 < R) by (subst R; lia).
    assert (0 < Q) by (subst Q; apply pow2_pos; lia).
    clearbody P Q R. clear - Hhi Hp Hnormal H0 H1 Ha Hb.
    assert (H2 : b * R <= a * Q * R) by (apply Z.mul_le_mono_nonneg_r; lia).
    assert (H3 : 0 < a * Q * R) by (repeat apply Z.mul_pos_pos; lia).
    assert (H4 : a * Q * R <= a * Q * R * P) by (apply Z.le_mul_diag_r; lia).
    lia. }
  set (U := 2 ^ (E + 1074)).
  assert (HU : 0 < U) by (apply pow2_pos; lia).
  assert (Hbig : (2 ^ 1024 - 2 ^ 970) * b < 2 ^ 1024 * b)
    by (apply Z.mul_lt_mono_pos_r; [exact Hb | reflexivity]).
  assert (Hbig' : 2 ^ 1023 * b <= (2 ^ 1024 - 2 ^ 970) * b)
    by (apply Z.mul_le_mono_nonneg_r; [lia | vm_compute; discriminate]).
  unfold nearest.
  replace (a =? 0) with false by (symmetry; apply Z.eqb_neq; lia).
  fold E. rewrite Z.max_l by lia.
  destruct (Z.leb_spec 0 E) as [HE0|HE0].
  - (* the last place is a unit or more *)
    specialize (Hpos HE0).
    pose proof (pow2_pos E HE0) as HpE.
    assert (HB : 0 < b * 2 ^ E) by (apply Z.mul_pos_pos; assumption).
    destruct (div_half_even_spec a (b * 2 ^ E)) as (Hq0 & Hnear & Htie);
      [lia | exact HB |].
    set (q := div_half_even a (b * 2 ^ E)) in *.
    destruct (nearest_integer_bounds a (b * 2 ^ E) q HB Hpos Hnear) as [Hq52 Hq53].
    destruct (overflow_exponent a b E Hb HE0 Hpos) as [Hsmall Hlarge].
    assert (Htarget : (b * 2 ^ E) * (a * 2 ^ 1074) = b * (a * U)).
    { unfold U. rewrite Z.pow_add_r by lia. ring. }
    split.
    + intros Hfit. specialize (Hsmall ltac:(lia)).
      assert (Hq : q < 2 ^ (1024 - E)).
      { destruct (Z_le_gt_dec E 970) as [H970|H970].
        - assert (2 ^ 54 <= 2 ^ (1024 - E)) by (apply Z.pow_le_mono_r; lia).
          change (2 ^ 54) with (2 * 2 ^ 53) in *. lia.
        - assert (E971 : E = 971) by lia.
          replace (1024 - E) with 53 by lia.
          apply (no_overflow_at_the_top a (b * 2 ^ E)); try assumption.
          rewrite E971.
          replace ((2 * 2 ^ 53 - 1) * (b * 2 ^ 971))
            with (2 * ((2 ^ 1024 - 2 ^ 970) * b)).
          + lia.
          + change (2 ^ 1024) with (2 ^ 53 * 2 ^ 971).
            change (2 ^ 971) with (2 * 2 ^ 970). ring. }
      replace (2 ^ (1024 - E) <=? q) with false by (symmetry; apply Z.leb_gt; lia).
      destruct q as [|p|p] eqn:Hqp; [lia| |lia].
      destruct (canon p E) as [m e'] eqn:Hc.
      destruct (canon_binary64 p E m e' Hc HE Hq53) as [Hbin Hunits].
      { fold U. replace (2 ^ 2098) with (2 ^ (1024 - E) * U).
        - apply Z.mul_lt_mono_pos_r; assumption.
        - unfold U. rewrite <- Z.pow_add_r by lia. f_equal. lia. }
      fold U in Hunits.
      exists (FNum false m e'). split; [reflexivity|].
      split; [exact Hbin|]. split; [reflexivity|].
      intros y Hy. rewrite Hunits.
      destruct (nearest_in_binade a (b * 2 ^ E) (Zpos p) E y HE HB Hpos Hnear Htie Hy)
        as [Hle Heven].
      fold U in Hle, Heven.
      assert (Hscale : forall u,
                 Z.abs (b * 2 ^ E * u - a * U)
                 = 2 ^ E * Z.abs (b * u - a * 2 ^ 1074)).
      { intros u. rewrite <- (Z.abs_eq (2 ^ E)) at 2 by lia.
        rewrite <- Z.abs_mul. f_equal. unfold U.
        rewrite Z.pow_add_r by lia. ring. }
      rewrite !Hscale in Hle, Heven.
      split.
      * apply Z.mul_le_mono_pos_l in Hle; assumption.
      * intros Heq Hne. apply Heven; [|exact Hne]. now rewrite Heq.
    + intros Hover. specialize (Hlarge ltac:(lia)).
      replace (2 ^ (1024 - E) <=? q) with true; [reflexivity|].
      symmetry. apply Z.leb_le.
      destruct (Z.eq_dec E 971) as [E971|E971].
      * replace (1024 - E) with 53 by lia.
        apply (overflow_at_the_top a (b * 2 ^ E)); try assumption.
        rewrite E971.
        replace ((2 * 2 ^ 53 - 1) * (b * 2 ^ 971))
          with (2 * ((2 ^ 1024 - 2 ^ 970) * b)).
        -- lia.
        -- change (2 ^ 1024) with (2 ^ 53 * 2 ^ 971).
           change (2 ^ 971) with (2 * 2 ^ 970). ring.
      * destruct (Z_le_gt_dec 0 (1024 - E)) as [Hn|Hn].
        -- assert (2 ^ (1024 - E) <= 2 ^ 52) by (apply Z.pow_le_mono_r; lia).
           lia.
        -- rewrite Z.pow_neg_r by lia. lia.
  - (* the last place is a fraction *)
    specialize (Hneg HE0).
    destruct (div_half_even_spec (a * 2 ^ (- E)) b) as (Hq0 & Hnear & Htie);
      [pose proof (pow2_pos (- E) ltac:(lia)); apply Z.mul_nonneg_nonneg; lia
      | exact Hb |].
    set (A := a * 2 ^ (- E)) in *.
    set (q := div_half_even A b) in *.
    destruct (nearest_integer_bounds A b q Hb Hneg Hnear) as [Hq52 Hq53].
    assert (HaA : a <= A).
    { unfold A. pose proof (pow2_pos (- E) ltac:(lia)).
      apply Z.le_mul_diag_r; lia. }
    assert (H53 : 2 ^ 53 * b < 2 ^ 1023 * b)
      by (apply Z.mul_lt_mono_pos_r; [exact Hb | reflexivity]).
    split; [intros _ | intros Hover; exfalso; lia].
    assert (Hfit : 2 ^ 53 < 2 ^ (1024 - E)) by (apply Z.pow_lt_mono_r; lia).
    replace (2 ^ (1024 - E) <=? q) with false by (symmetry; apply Z.leb_gt; lia).
    destruct q as [|p|p] eqn:Hqp; [lia| |lia].
    destruct (canon p E) as [m e'] eqn:Hc.
    destruct (canon_binary64 p E m e' Hc HE Hq53) as [Hbin Hunits].
    { fold U. replace (2 ^ 2098) with (2 ^ (1024 - E) * U).
      - apply Z.mul_lt_mono_pos_r; [exact HU | lia].
      - unfold U. rewrite <- Z.pow_add_r by lia. f_equal. lia. }
    fold U in Hunits.
    assert (Htarget : a * 2 ^ 1074 = A * U).
    { unfold A, U. rewrite <- Z.mul_assoc, <- Z.pow_add_r by lia.
      f_equal. f_equal. lia. }
    exists (FNum false m e'). split; [reflexivity|].
    split; [exact Hbin|]. split; [reflexivity|].
    intros y Hy. rewrite Hunits, Htarget.
    exact (nearest_in_binade A b (Zpos p) E y HE Hb Hneg Hnear Htie Hy).
Qed.

(** ** Bytes to MiB, as the interpreter rounds *)

Lemma nearest_binary64_zero (d : Z) : 0 < d -> nearest_binary64 0 d (FZero false).
Proof.
  intros Hd. split; [exact I|]. split; [reflexivity|].
  intros y _. cbn [units]. split; [lia|].
  intros Heq Hne. exfalso. apply Hne. nia.
Qed.

Lemma binary64_max (y : pyfloat) : binary64 y -> units y <= 2 ^ 2098 - 2 ^ 2045.
Proof.
  destruct y as [s|s m e]; cbn [binary64 units].
  - intros _. vm_compute. discriminate.
  - intros (Hm & He & Hval).
    pose proof (pow2_pos (e + 1074) ltac:(lia)) as Hp.
    pose proof (Pos2Z.is_pos m) as Hm0.
    destruct s.
    + assert (0 < Zpos m * 2 ^ (e + 1074)) by (apply Z.mul_pos_pos; lia).
      assert (0 < 2 ^ 2098 - 2 ^ 2045) by reflexivity. lia.
    + rewrite Z.mul_1_l.
      destruct (Z_le_gt_dec (e + 1074) 2045) as [Hs|Hs].
      * assert (H1 : 2 ^ (e + 1074) <= 2 ^ 2045) by (apply Z.pow_le_mono_r; lia).
        assert (H2 : Zpos m * 2 ^ (e + 1074) <= (2 ^ 53 - 1) * 2 ^ (e + 1074))
          by (apply Z.mul_le_mono_nonneg_r; lia).
        assert (H3 : (2 ^ 53 - 1) * 2 ^ (e + 1074) <= (2 ^ 53 - 1) * 2 ^ 2045)
          by (apply Z.mul_le_mono_nonneg_l; lia).
        replace (2 ^ 2098 - 2 ^ 2045) with ((2 ^ 53 - 1) * 2 ^ 2045)
          by reflexivity.
        lia.
      * assert (Hs' : e + 1074 < 2098).
        { destruct (Z_lt_ge_dec (e + 1074) 2098) as [H|H]; [exact H|exfalso].
          assert (2 ^ 2098 <= 2 ^ (e + 1074)) by (apply Z.pow_le_mono_r; lia).
          assert (1 * 2 ^ (e + 1074) <= Zpos m * 2 ^ (e + 1074))
            by (apply Z.mul_le_mono_nonneg_r; lia).
          lia. }
        assert (Hsplit : 2 ^ 2098 = 2 ^ (2098 - (e + 1074)) * 2 ^ (e + 1074))
          by (rewrite <- Z.pow_add_r by lia; f_equal; lia).
        rewrite Hsplit in Hval.
        apply Z.mul_lt_mono_pos_r in Hval; [|exact Hp].
        assert (H1 : (Zpos m + 1) * 2 ^ (e + 1074)
                     <= 2 ^ (2098 - (e + 1074)) * 2 ^ (e + 1074))
          by (apply Z.mul_le_mono_nonneg_r; lia).
        rewrite <- Hsplit in H1.
        assert (H2 : 2 ^ 2045 <= 2 ^ (e + 1074)) by (apply Z.pow_le_mono_r; lia).
        lia.
Qed.

(** [round(y, 1)] on a float without the sign bit: its tenths, as a
    float. *)
Lemma round1_spec (y : pyfloat) :
  binary64 y -> negative y = false ->
  exists k, 0 <= k /\ tenths_of_float y k /\ round1 y = nearest false k 10.
Proof.
  destruct y as [s|s m e]; cbn [binary64 negative]; intros Hy Hs; subst s.
  - exists 0. split; [lia|]. split; [|reflexivity].
    split; cbn [units]; [vm_compute; discriminate|].
    intros H. vm_compute in H. discriminate H.
  - destruct Hy as (_ & He & _).
    pose proof (Pos2Z.is_pos m) as Hm0.
    unfold tenths_of_float. cbn [round1 units]. rewrite !Z.mul_1_l. unfold frac.
    destruct (Z.leb_spec 0 e) as [He0|He0].
    + pose proof (pow2_pos e He0) as Hp.
      destruct (div_half_even_spec (10 * (Zpos m * 2 ^ e)) 1) as (Hk0 & Hnear & _);
        [nia | lia |].
      set (k := div_half_even (10 * (Zpos m * 2 ^ e)) 1) in *.
      exists k. split; [exact Hk0|]. split; [|reflexivity].
      assert (Hk : k = 10 * (Zpos m * 2 ^ e)) by lia.
      assert (Hu : 10 * (Zpos m * 2 ^ (e + 1074)) - k * 2 ^ 1074 = 0).
      { rewrite Hk, Z.pow_add_r by lia. ring. }
      rewrite Hu. split; [vm_compute; discriminate|].
      intros H. vm_compute in H. discriminate H.
    + pose proof (pow2_pos (- e) ltac:(lia)) as Hp.
      destruct (div_half_even_spec (10 * Zpos m) (2 ^ (- e))) as (Hk0 & Hnear & Htie);
        [lia | exact Hp |].
      set (k := div_half_even (10 * Zpos m) (2 ^ (- e))) in *.
      exists k. split; [exact Hk0|]. split; [|reflexivity].
      pose proof (pow2_pos (e + 1074) ltac:(lia)) as HV.
      assert (HT : 2 ^ 1074 = 2 ^ (- e) * 2 ^ (e + 1074))
        by (rewrite <- Z.pow_add_r by lia; f_equal; lia).
      assert (Hu : 2 * Z.abs (10 * (Zpos m * 2 ^ (e + 1074)) - k * 2 ^ 1074)
                   = 2 * Z.abs (10 * Zpos m - k * 2 ^ (- e)) * 2 ^ (e + 1074)).
      { rewrite HT.
        replace (10 * (Zpos m * 2 ^ (e + 1074)) - k * (2 ^ (- e) * 2 ^ (e + 1074)))
          with ((10 * Zpos m - k * 2 ^ (- e)) * 2 ^ (e + 1074)) by ring.
        rewrite Z.abs_mul, (Z.abs_eq (2 ^ (e + 1074))) by lia. ring. }
      rewrite Hu, HT. split.
      * apply Z.mul_le_mono_nonneg_r; [lia | exact Hnear].
      * intros Heq. apply Htie.
        apply Z.mul_cancel_r in Heq; [exact Heq | lia].
Qed.

Lemma tenths_fit (y : pyfloat) (k : Z) :
  binary64 y -> tenths_of_float y k -> k < (2 ^ 1024 - 2 ^ 970) * 10.
Proof.
  intros Hy [Hk _]. pose proof (binary64_max y Hy) as Hmax.
  apply (Z.mul_lt_mono_pos_r (2 ^ 1074)); [reflexivity|].
  replace ((2 ^ 1024 - 2 ^ 970) * 10 * 2 ^ 1074)
    with (10 * (2 ^ 2098 - 2 ^ 2045) + 10 * 2 ^ 2044) by reflexivity.
  assert (2 ^ 1074 < 20 * 2 ^ 2044) by reflexivity.
  lia.
Qed.

(** The conversion of any count of bytes: a float, made as the interpreter
    makes it, below [overflowing]; an [OverflowError] from there on. *)
Lemma round_mib_float (b : Z) :
  0 <= b ->
  (b < overflowing ->
   exists x, round_mib b = Ok (VFloat x) /\ float_mib b x) /\
  (overflowing <= b -> round_mib b = Err OverflowError).
Proof.
  intros Hb.
  destruct (Z.eq_dec b 0) as [->|Hb0].
  - split; [intros _ | intros H; vm_compute in H; exfalso; apply H; reflexivity].
    exists (FZero false). split; [reflexivity|].
    exists (FZero false), 0. split; [apply nearest_binary64_zero; lia|].
    split; [|apply nearest_binary64_zero; lia].
    split; cbn [units]; [vm_compute; discriminate|].
    intros H. vm_compute in H. discriminate H.
  - assert (Hdiv : truediv (VInt b) (2 ^ 20)
                   = of_float_opt (nearest false b (2 ^ 20))).
    { cbn [truediv]. unfold int_truediv.
      replace (b <? 0) with false by (symmetry; apply Z.ltb_ge; lia).
      rewrite Z.abs_eq by lia. reflexivity. }
    destruct (nearest_spec b (2 ^ 20)) as [Hfit Hover]; [lia | lia | |].
    { assert (2 ^ 20 <= 2 ^ 1022) by (apply Z.pow_le_mono_r; lia).
      assert (1 * 2 ^ 1022 <= b * 2 ^ 1022)
        by (apply Z.mul_le_mono_nonneg_r; lia).
      lia. }
    change ((2 ^ 1024 - 2 ^ 970) * 2 ^ 20) with overflowing in Hfit, Hover.
    unfold round_mib. rewrite Hdiv. split.
    + intros Hlt. destruct (Hfit Hlt) as (y & Hy & Hnear). rewrite Hy.
      cbn [of_float_opt round_1].
      destruct Hnear as (Hbin & Hsign & Hnear).
      destruct (round1_spec y Hbin Hsign) as (k & Hk0 & Hk & Hround).
      rewrite Hround.
      assert (Hx : exists x, nearest false k 10 = Some x /\ nearest_binary64 k 10 x).
      { destruct (Z.eq_dec k 0) as [->|Hk1].
        - exists (FZero false). split; [reflexivity|].
          apply nearest_binary64_zero. lia.
        - destruct (nearest_spec k 10) as [Hfit' _]; [lia | lia | |].
          + assert (1 * 2 ^ 1022 <= k * 2 ^ 1022)
              by (apply Z.mul_le_mono_nonneg_r; lia).
            assert (2 ^ 4 <= 2 ^ 1022) by (apply Z.pow_le_mono_r; lia).
            change (2 ^ 4) with 16 in *. lia.
          + apply Hfit'. exact (tenths_fit y k Hbin Hk). }
      destruct Hx as (x & Hx & Hxn). exists x. rewrite Hx.
      split; [reflexivity|].
      exists y, k. split; [|split; assumption].
      split; [exact Hbin|]. split; [exact Hsign | exact Hnear].
    + intros Hge. rewrite (Hover Hge). reflexivity.
Qed.

(** ** Bytes to MiB, in the exact sense *)

(** The float that [round] makes of [k] tenths. *)
Lemma nearest_tenths (k : Z) :
  0 <= k < 2 ^ 40 ->
  exists x, nearest false k 10 = Some x /\ float_of_tenths k x.
Proof.
  intros [H0 Hlt].
  destruct (Z.eq_dec k 0) as [->|Hk].
  - exists (FZero false). split; [reflexivity|].
    split; [exact I|]. split; [reflexivity|].
    intros y _ Hy. cbn [units] in *. lia.
  - destruct (nearest_normal k 10) as (x & Hx & Hbin & Hsign & Hnear);
      [lia | lia | lia | |].
    { assert (1 * 2 ^ 1022 <= k * 2 ^ 1022)
        by (apply Z.mul_le_mono_nonneg_r; [apply Z.pow_nonneg|]; lia).
      assert (2 ^ 4 <= 2 ^ 1022) by (apply Z.pow_le_mono_r; lia).
      change (2 ^ 4) with 16 in *. lia. }
    exists x. split; [exact Hx|]. split; [exact Hbin|]. split; [exact Hsign|].
    intros y Hy Hne.
    destruct (Hnear y Hy Hne) as [Hlt'|(t & p & Htie)]; [exact Hlt'|].
    exfalso. lia.
Qed.

Lemma tenths_of_mib_bounds (b k : Z) :
  0 <= b < 2 ^ 53 -> tenths_of_mib b k -> 0 <= k < 2 ^ 40.
Proof. intros Hb [Hk _]. lia. Qed.

(** Below [2^53] bytes the conversion gives a float, and it is the exact
    quotient rounded to one decimal. *)
Lemma round_mib_is_exact (b : Z) :
  0 <= b < 2 ^ 53 ->
  exists x, round_mib b = Ok (VFloat x) /\ exact_mib b x.
Proof.
  intros Hb.
  rewrite (round_mib_exact b Hb).
  destruct (div_half_even_spec (10 * b) (2 ^ 20)) as (Hk0 & Hnear & Htie);
    [lia | lia |].
  set (k := div_half_even (10 * b) (2 ^ 20)) in *.
  assert (Hk : tenths_of_mib b k) by (split; assumption).
  destruct (nearest_tenths k (tenths_of_mib_bounds b k Hb Hk)) as (x & Hx & Hfl).
  exists x. rewrite Hx. split; [reflexivity|]. exists k. split; assumption.
Qed.

Lemma tenths_of_mib_unique (b k k' : Z) :
  tenths_of_mib b k -> tenths_of_mib b k' -> k = k'.
Proof.
  intros [Hk Hek] [Hk' Hek'].
  destruct (Z.eq_dec k k') as [E|Hne]; [exact E|exfalso].
  assert (Hk2 : 2 * Z.abs (10 * b - k * 2 ^ 20) = 2 ^ 20) by lia.
  assert (Hk2' : 2 * Z.abs (10 * b - k' * 2 ^ 20) = 2 ^ 20) by lia.
  specialize (Hek Hk2). specialize (Hek' Hk2').
  apply Z.even_spec in Hek, Hek'.
  destruct Hek as [j ->], Hek' as [j' ->]. lia.
Qed.

(** The description of the conversion leaves no choice of the value. *)
Lemma exact_mib_unique (b : Z) (x x' : pyfloat) :
  exact_mib b x -> exact_mib b x' -> units x = units x' /\ negative x = negative x'.
Proof.
  intros (k & Hk & Hbin & Hs & Hnear) (k' & Hk' & Hbin' & Hs' & Hnear').
  rewrite (tenths_of_mib_unique b k' k Hk' Hk) in Hnear'.
  split; [|congruence].
  destruct (Z.eq_dec (units x) (units x')) as [E|Hne]; [exact E|exfalso].
  pose proof (Hnear x' Hbin' (fun H => Hne (eq_sym H))).
  pose proof (Hnear' x Hbin Hne). lia.
Qed.

(** ** The conversion in [sessions] and [session] *)

Lemma round_mib_is_mib (b : Z) :
  0 <= b < overflowing ->
  exists x, round_mib b = Ok (VFloat x) /\ mib b x.
Proof.
  intros [Hb Hlt].
  destruct (proj1 (round_mib_float b Hb) Hlt) as (x & Hx & Hfloat).
  exists x. split; [exact Hx|]. split; [exact Hfloat|].
  intros H53. destruct (round_mib_is_exact b (conj Hb H53)) as (x' & Hx' & Hexact).
  rewrite Hx in Hx'. injection Hx' as ->. exact Hexact.
Qed.

Lemma rows_in_mib (rows : list (list (string * pyval))) :
  Forall (counted "mem_cur_bytes") rows ->
  exists rows',
    Forall2 (in_mib "mem_cur_bytes") rows rows' /\
    Forall2 (converted "mem_cur_bytes") rows rows'.
Proof.
  induction 1 as [|row rows (b & Hb & Hget) _ (rows' & Hmib & Hconv)].
  - exists []. split; constructor.
  - destruct (round_mib_is_mib b Hb) as (x & Hx & Hm).
    exists (dict_set "mem_cur_bytes" (VFloat x) row :: rows'). split.
    + constructor; [|exact Hmib]. exists b, x. repeat split; assumption || apply Hm.
    + constructor; [|exact Hconv]. exists b, (VFloat x).
      repeat split; try assumption; lia.
Qed.

Lemma detail_plain (fs : list (string * string)) :
  forall vals : list pyval,
    Forall (fun f => existsb (String.eqb (snd f))
                             ["mem_cur_bytes"; "mem_max_bytes"] = false) fs ->
    (List.length vals <= List.length fs)%nat ->
    detail fs vals
    = (map (fun fv => Print (fst (fst fv) ++ ": " ++ str (snd fv))) (combine fs vals),
       Return tt).
Proof.
  induction fs as [|[label key] fs IH]; intros [|v vals] Hfs Hlen;
    try reflexivity.
  - simpl in Hlen. lia.
  - inversion Hfs as [|? ? Hkey Hrest]; subst. cbn [snd] in Hkey.
    cbn [detail]. unfold shown_value. rewrite Hkey.
    rewrite (IH vals Hrest) by (simpl in Hlen; lia). reflexivity.
Qed.

(** The detail of a reply whose 13th and 14th values are counts of bytes. *)
Lemma detail_in_mib (before after : list pyval) (b1 b2 : Z) (x1 x2 : pyfloat) :
  List.length before = 12%nat ->
  (List.length after <= 8)%nat ->
  round_mib b1 = Ok (VFloat x1) ->
  round_mib b2 = Ok (VFloat x2) ->
  detail Sessions.session_fields (before ++ VInt b1 :: VInt b2 :: after)
  = (detail_lines (before ++ VFloat x1 :: VFloat x2 :: after), Return tt).
Proof.
  intros Hlen Hafter Hx1 Hx2.
  do 12 (destruct before as [|? before]; [discriminate Hlen|]).
  destruct before; [clear Hlen | discriminate Hlen].
  unfold detail_lines.
  cbn [app detail shown_value Sessions.session_fields existsb String.eqb
       Ascii.eqb Bool.eqb orb combine map fst snd].
  change (match truediv (VInt b1) (2 ^ 20) with
          | Ok mib => round_1 mib
          | Err e => Err e
          end) with (round_mib b1).
  rewrite Hx1.
  change (match truediv (VInt b2) (2 ^ 20) with
          | Ok mib => round_1 mib
          | Err e => Err e
          end) with (round_mib b2).
  rewrite Hx2.
  rewrite detail_plain; [reflexivity | | exact Hafter].
  repeat constructor.
Qed.

(** Exactness stops at [2^53] bytes, where the quotient is rounded to a
    float before it is rounded to one decimal.  The exact quotient of
    9007199255003137 bytes is just above 8589934592.25, which is
    8589934592.3 to one decimal; the float is 8589934592.25 and the
    conversion shows 8589934592.2. *)
Example round_mib_rounds_twice :
  tenths_of_mib 9007199255003137 85899345923 /\
  exists x,
    round_mib 9007199255003137 = Ok (VFloat x) /\
    str (VFloat x) = "8589934592.2" /\
    ~ exact_mib 9007199255003137 x.
Proof.
  assert (Hk' : tenths_of_mib 9007199255003137 85899345923).
  { split; [vm_compute; discriminate|].
    intros H. vm_compute in H. discriminate H. }
  split; [exact Hk'|].
  exists (FNum false 2251799813737677 (-18)).
  split; [vm_compute; reflexivity|]. split; [vm_compute; reflexivity|].
  intros (k & Hk & _ & _ & Hnear).
  rewrite (tenths_of_mib_unique _ _ _ Hk Hk') in Hnear.
  specialize (Hnear (FNum false 2251799813763891 (-18))).
  apply Z.lt_nge in Hnear.
  - apply Hnear. vm_compute. discriminate.
  - repeat split; vm_compute; (reflexivity || discriminate).
  - vm_compute. discriminate.
Qed.

(** C4, as stated, fails for some counts of bytes.  From [2^1044 - 2^990]
    on the division raises [OverflowError]: the conversion gives no number,
    and [sessions] ends on the exception without a table.  And from [2^53]
    on the number shown need not be the exact quotient rounded to one
    decimal, since the quotient is rounded to a float first: the exact
    quotient of 9007199255003137 bytes rounds to 8589934592.3, and the
    conversion shows 8589934592.2. *)
Lemma mib_conversion_not_for_every_count :
  (0 <= overflowing /\
   round_mib overflowing = Err OverflowError /\
   Sessions.sessions
     {| Sessions.status := "RUNNING"; Sessions.access_key := None |} huge_session
   = reply_unreadable
       (AdminQuery
          (Sessions.sessions_query
             {| Sessions.status := "RUNNING"; Sessions.access_key := None |})
          (VDict [("status", VStr "RUNNING"); ("ak", VNone)]))
       OverflowError huge_session []) /\
  (0 <= 9007199255003137 /\
   tenths_of_mib 9007199255003137 85899345923 /\
   exists x,
     round_mib 9007199255003137 = Ok (VFloat x) /\
     str (VFloat x) = "8589934592.2" /\
     ~ exact_mib 9007199255003137 x).
Proof.
  split.
  - split; [vm_compute; discriminate|].
    split; vm_compute; reflexivity.
  - split; [lia | exact round_mib_rounds_twice].
Qed.

(** C4: the conversion of a count of bytes is [round(bytes / 2 ** 20, 1)] as
    the interpreter computes it.  Below [2^1044 - 2^990] bytes it always
    gives a float: the binary64 number nearest to the quotient (ties to
    even), rounded to the nearest number of tenths (ties to even), as the
    binary64 number nearest to that.  Below [2^53] bytes the quotient is
    exact, so that the float is the exact quotient rounded to one decimal,
    which leaves no choice of its value.  From [2^1044 - 2^990] bytes on it
    raises [OverflowError].  [sessions] puts the float in the place of the
    count under [mem_cur_bytes] of every row; [session] shows it for the
    13th and the 14th value of the reply, the places of [mem_cur_bytes] and
    [mem_max_bytes] in its field list, whatever their keys.  1048576 bytes
    are shown as 1.0 and 1572864 bytes as 1.5; 52429 bytes round up to 0.1
    and 262144 bytes, a quarter, round to the even 0.2. *)
Theorem mib_conversion :
  (forall b : Z,
      0 <= b < overflowing ->
      exists x, round_mib b = Ok (VFloat x) /\ mib b x) /\
  (forall b : Z,
      overflowing <= b -> round_mib b = Err OverflowError) /\
  (forall (b : Z) (x x' : pyfloat),
      exact_mib b x -> exact_mib b x' ->
      units x = units x' /\ negative x = negative x') /\
  (forall (args : Sessions.sessions_args) (w : world) (resp : pyval)
          (rows : list (list (string * pyval))) (rest : list (res pyval)),
      server w = Ok resp :: rest ->
      getitem resp "compute_sessions" = Ok (VList (map VDict rows)) ->
      rows <> [] ->
      Forall (counted "mem_cur_bytes") rows ->
      exists rows',
        Forall2 (in_mib "mem_cur_bytes") rows rows' /\
        Sessions.sessions args w
        = Run [ SessionOpen;
                Call (AdminQuery (Sessions.sessions_query args)
                                 (Sessions.sessions_variables args));
                PrintTable (map dict_values rows')
                           (map fst Sessions.sessions_fields);
                SessionClose ]
              (answered w rest) (Return tt)) /\
  (forall (name : string) (w : world) (resp sess_id : pyval)
          (cs : list (string * pyval)) (before after : list pyval)
          (b1 b2 : Z) (rest : list (res pyval)),
      server w = Ok resp :: rest ->
      getitem resp "compute_session" = Ok (VDict cs) ->
      dict_get "sess_id" cs = Some sess_id ->
      is_none sess_id = false ->
      dict_values cs = (before ++ VInt b1 :: VInt b2 :: after)%list ->
      List.length before = 12%nat ->
      (List.length after <= 8)%nat ->
      0 <= b1 < overflowing ->
      0 <= b2 < overflowing ->
      exists x1 x2,
        mib b1 x1 /\ mib b2 x2 /\
        Sessions.session name w
        = Run ([ SessionOpen; Call (session_call name);
                 Print ("Session detail:" ++ Sessions.newline ++ "---------------") ]
               ++ detail_lines (before ++ VFloat x1 :: VFloat x2 :: after)
               ++ [SessionClose])%list
              (answered w rest) (Return tt)) /\
  renders 1048576 "1.0" /\
  renders 1572864 "1.5" /\
  renders 52429 "0.1" /\
  renders 262144 "0.2".
Proof.
  split; [exact round_mib_is_mib|].
  split; [intros b Hb; apply round_mib_float; [|exact Hb];
          assert (0 <= overflowing) by (vm_compute; discriminate); lia|].
  split; [exact exact_mib_unique|].
  split; [|split].
  - intros args w resp rows rest Hsrv Hcs Hne Hrows.
    destruct (rows_in_mib rows Hrows) as (rows' & Hmib & Hconv).
    exists rows'. split; [exact Hmib|].
    exact (sessions_run args w resp rows rows' rest Hsrv Hcs Hne Hconv).
  - intros name w resp sess_id cs before after b1 b2 rest
           Hsrv Hresp Hid Hnone Hvals Hlen Hafter Hb1 Hb2.
    destruct (round_mib_is_mib b1 Hb1) as (x1 & Hx1 & Hm1).
    destruct (round_mib_is_mib b2 Hb2) as (x2 & Hx2 & Hm2).
    exists x1, x2. split; [exact Hm1|]. split; [exact Hm2|].
    run_session Hsrv Hresp Hid Hnone.
    rewrite Hvals, (detail_in_mib before after b1 b2 x1 x2 Hlen Hafter Hx1 Hx2).
    reflexivity.
  - assert (Hshown : forall b text,
               0 <= b < overflowing ->
               match round_mib b with Ok v => str v | Err _ => "" end = text ->
               renders b text).
    { intros b text Hb Htext.
      destruct (round_mib_is_mib b Hb) as (x & Hx & Hm).
      exists x. rewrite Hx in Htext. repeat split; assumption || apply Hm. }
    assert (H53 : 2 ^ 53 < overflowing) by reflexivity.
    repeat split; apply Hshown; try lia; vm_compute; reflexivity.
Qed.

Lemma mib_conversion_witness :
  (exists x, round_mib 1572864 = Ok (VFloat x) /\ mib 1572864 x) /\
  (exists rows',
      Forall2 (in_mib "mem_cur_bytes")
              [[("sess_id", VStr "s1"); ("mem_cur_bytes", VInt 1572864)]] rows' /\
      Sessions.sessions
        {| Sessions.status := "RUNNING"; Sessions.access_key := None |}
        one_session
      = Run [ SessionOpen;
              Call (AdminQuery
                      (Sessions.sessions_query
                         {| Sessions.status := "RUNNING";
                            Sessions.access_key := None |})
                      (VDict [("status", VStr "RUNNING"); ("ak", VNone)]));
              PrintTable (map dict_values rows')
                         (map fst Sessions.sessions_fields);
              SessionClose ]
            (World [] true None Missing Writes) (Return tt)) /\
  (exists x1 x2,
      mib 1048576 x1 /\ mib 1572864 x2 /\
      Sessions.session "s1" detail_world
      = Run ([ SessionOpen; Call (session_call "s1");
               Print ("Session detail:" ++ Sessions.newline ++ "---------------") ]
             ++ detail_lines
                  (firstn 12 (dict_values detail_reply)
                   ++ VFloat x1 :: VFloat x2
                   :: skipn 14 (dict_values detail_reply))
             ++ [SessionClose])%list
            (World [] true None Missing Writes) (Return tt)).
Proof.
  destruct mib_conversion as (Hvalue & _ & _ & Hlist & Hshow & _).
  split; [|split].
  - apply Hvalue. split; [lia | reflexivity].
  - apply (Hlist
             {| Sessions.status := "RUNNING"; Sessions.access_key := None |}
             one_session
             (VDict [("compute_sessions",
                      VList [VDict [ ("sess_id", VStr "s1");
                                     ("mem_cur_bytes", VInt 1572864) ]])])
             [[("sess_id", VStr "s1"); ("mem_cur_bytes", VInt 1572864)]] []).
    + reflexivity.
    + reflexivity.
    + discriminate.
    + constructor; [|constructor].
      exists 1572864. split; [split; [lia | reflexivity] | reflexivity].
  - apply (Hshow "s1" detail_world
             (VDict [("compute_session", VDict detail_reply)]) (VStr "s1")
             detail_reply
             (firstn 12 (dict_values detail_reply))
             (skipn 14 (dict_values detail_reply))
             1048576 1572864 []).
    + reflexivity.
    + reflexivity.
    + reflexivity.
    + reflexivity.
    + reflexivity.
    + reflexivity.
    + simpl. lia.
    + split; [lia | reflexivity].
    + split; [lia | reflexivity].
Defined.

(** * Further properties *)

(** ** Failing calls in [groups.py] *)

Ltac run_failed Hsrv :=
  unfold call_failed, with_session, try_except, bind, call, fail_with, emit, exit;
  rewrite Hsrv; reflexivity.

(** X1: when the call of a group command raises, the command prints the
    error inside the session and exits with status 1: no other output. *)
Theorem group_commands_call_failure :
  forall (w : world) (e : exn) (rest : list (res pyval)),
    server w = Err e :: rest ->
    (forall gid,
        Groups.group gid w
        = call_failed (GroupDetail gid (map snd Groups.fields)) e w rest) /\
    (forall domain_name,
        Groups.groups None (Some domain_name) w
        = call_failed (GroupList domain_name (map snd Groups.fields)) e w rest) /\
    (forall domain_name name description inactive,
        Groups.add domain_name name description inactive w
        = call_failed (GroupCreate domain_name name description (negb inactive))
                      e w rest) /\
    (forall gid name description is_active,
        Groups.update gid name description is_active w
        = call_failed (GroupUpdate gid name description is_active) e w rest) /\
    (forall gid, Groups.delete gid w = call_failed (GroupDelete gid) e w rest) /\
    (forall gid user_uuids,
        Groups.add_users gid user_uuids w
        = call_failed (GroupAddUsers gid user_uuids) e w rest) /\
    (forall gid user_uuids,
        Groups.remove_users gid user_uuids w
        = call_failed (GroupRemoveUsers gid user_uuids) e w rest).
Proof.
  intros w e rest Hsrv. repeat split; intros.
  - unfold Groups.group. run_failed Hsrv.
  - unfold Groups.groups. run_failed Hsrv.
  - unfold Groups.add. run_failed Hsrv.
  - unfold Groups.update. run_failed Hsrv.
  - unfold Groups.delete. run_failed Hsrv.
  - unfold Groups.add_users. run_failed Hsrv.
  - unfold Groups.remove_users. run_failed Hsrv.
Qed.

Lemma group_commands_call_failure_witness :
  Groups.delete "g1"
    (World [Err (TransportError "connection refused")] true None Missing Writes)
  = Run [ SessionOpen; Call (GroupDelete "g1");
          PrintError (TransportError "connection refused"); SessionClose ]
        (World [] true None Missing Writes) (Exit 1).
Proof.
  exact (proj1 (proj2 (proj2 (proj2 (proj2
           (group_commands_call_failure
              (World [Err (TransportError "connection refused")]
                     true None Missing Writes)
              (TransportError "connection refused") [] eq_refl))))) "g1").
Defined.

(** ** One call per command *)

Lemma calls_app (t t' : list event) : calls (t ++ t') = (calls t ++ calls t')%list.
Proof. unfold calls. apply flat_map_app. Qed.

Lemma quiet_ret {A} (a : A) : quiet (ret a).
Proof. intros w. reflexivity. Qed.

Lemma quiet_exit {A} (c : Z) : quiet (@exit A c).
Proof. intros w. reflexivity. Qed.

Lemma quiet_raise {A} (e : exn) : quiet (@raise A e).
Proof. intros w. reflexivity. Qed.

Lemma quiet_lift {A} (r : res A) : quiet (lift r).
Proof. intros w. destruct r; reflexivity. Qed.

Lemma quiet_emit (e : event) : calls [e] = [] -> quiet (emit e).
Proof. intros H w. exact H. Qed.

Lemma quiet_bind {A B} (m : M A) (k : A -> M B) :
  quiet m -> (forall a, quiet (k a)) -> quiet (bind m k).
Proof.
  intros Hm Hk w. unfold bind. specialize (Hm w).
  destruct (m w) as [t w1 [a|c|e]]; simpl in *; try exact Hm.
  specialize (Hk a w1). destruct (k a w1) as [t' w2 o]. simpl in *.
  now rewrite calls_app, Hm, Hk.
Qed.

Lemma quiet_fold_m {A S} (f : S -> A -> M S) (l : list A) :
  (forall s x, quiet (f s x)) -> forall s, quiet (fold_m f l s).
Proof.
  intros Hf. induction l as [|x l IH]; intros s; simpl.
  - apply quiet_ret.
  - apply quiet_bind; [apply Hf | exact IH].
Qed.

Lemma quiet_map_m {A B} (f : A -> M B) (l : list A) :
  (forall x, quiet (f x)) -> quiet (map_m f l).
Proof.
  intros Hf. induction l as [|x l IH]; simpl.
  - apply quiet_ret.
  - apply quiet_bind; [apply Hf | intros y].
    apply quiet_bind; [exact IH | intros ys; apply quiet_ret].
Qed.

Lemma quiet_filter_m {A} (f : A -> M bool) (l : list A) :
  (forall x, quiet (f x)) -> quiet (filter_m f l).
Proof.
  intros Hf. induction l as [|x l IH]; simpl.
  - apply quiet_ret.
  - apply quiet_bind; [apply Hf | intros b].
    apply quiet_bind; [exact IH | intros xs; apply quiet_ret].
Qed.

Ltac quiet_step :=
  match goal with
  | |- quiet (bind _ _) => apply quiet_bind; [|intros ?]
  | |- quiet (ret _) => apply quiet_ret
  | |- quiet (exit _) => apply quiet_exit
  | |- quiet (raise _) => apply quiet_raise
  | |- quiet (lift _) => apply quiet_lift
  | |- quiet (emit _) => apply quiet_emit; reflexivity
  | |- quiet (fold_m _ _ _) => apply quiet_fold_m; intros ? ?
  | |- quiet (map_m _ _) => apply quiet_map_m; intros ?
  | |- quiet (filter_m _ _) => apply quiet_filter_m; intros ?
  | |- quiet (if ?c then _ else _) => destruct c
  | |- quiet (match ?x with _ => _ end) => destruct x
  | |- quiet (let '(_, _) := ?x in _) => destruct x
  end.

Ltac quiet_tac := repeat quiet_step.

Lemma quiet_session_lines (vals : list pyval) :
  forall i, quiet (Sessions.session_lines i vals).
Proof.
  induction vals as [|v vals IH]; intros i; simpl.
  - apply quiet_ret.
  - apply quiet_bind; [|intros _; apply IH].
    unfold Sessions.session_line. quiet_tac.
Qed.

(** A command that opens with the call [c] and makes no call afterwards
    makes that one call, whatever the server answers. *)
Lemma one_call {A} (c : api_call) (k : pyval -> M A) (w : world) :
  (forall x, quiet (k x)) ->
  calls (events (with_session (x <- try_except (call c) fail_with ;; k x) w)) = [c].
Proof.
  intros Hk. unfold with_session, bind, try_except, call.
  destruct (server w) as [|[v|e] srv]; simpl; try reflexivity.
  match goal with |- context [k v ?w'] => specialize (Hk v w'); destruct (k v w') as [t w1 o] end.
  simpl in *. now rewrite calls_app, Hk.
Qed.

(** X2: every command of [groups.py] and [sessions.py] that reaches the
    server makes exactly one call, whatever the server answers and however
    the command ends: nothing is retried and nothing is asked twice. *)
Theorem commands_call_once :
  forall (w : world),
    (forall gid,
        calls (events (Groups.group gid w))
        = [GroupDetail gid (map snd Groups.fields)]) /\
    (forall domain_name,
        calls (events (Groups.groups None (Some domain_name) w))
        = [GroupList domain_name (map snd Groups.fields)]) /\
    (forall domain_name name description inactive,
        calls (events (Groups.add domain_name name description inactive w))
        = [GroupCreate domain_name name description (negb inactive)]) /\
    (forall gid name description is_active,
        calls (events (Groups.update gid name description is_active w))
        = [GroupUpdate gid name description is_active]) /\
    (forall gid,
        calls (events (Groups.delete gid w)) = [GroupDelete gid]) /\
    (forall gid user_uuids,
        calls (events (Groups.add_users gid user_uuids w))
        = [GroupAddUsers gid user_uuids]) /\
    (forall gid user_uuids,
        calls (events (Groups.remove_users gid user_uuids w))
        = [GroupRemoveUsers gid user_uuids]) /\
    (forall args,
        calls (events (Sessions.sessions args w))
        = [AdminQuery (Sessions.sessions_query args)
                      (Sessions.sessions_variables args)]) /\
    (forall name,
        calls (events (Sessions.session name w)) = [session_call name]).
Proof.
  intros w. repeat split; intros.
  - unfold Groups.group. apply one_call. intros x. quiet_tac.
  - unfold Groups.groups. apply one_call. intros x. quiet_tac.
  - unfold Groups.add. apply one_call. intros x. quiet_tac.
  - unfold Groups.update. apply one_call. intros x. quiet_tac.
  - unfold Groups.delete. apply one_call. intros x. quiet_tac.
  - unfold Groups.add_users. apply one_call. intros x. quiet_tac.
  - unfold Groups.remove_users. apply one_call. intros x. quiet_tac.
  - unfold Sessions.sessions. apply one_call. intros x. quiet_tac.
    unfold Sessions.convert_item. quiet_tac.
  - unfold Sessions.session, session_call. apply one_call. intros x. quiet_tac.
    apply quiet_session_lines.
Qed.

(** ** Replies of the group mutations *)

Ltac run_unreadable Hsrv Hbad :=
  unfold reply_unreadable, with_session, try_except, bind, call, lift;
  rewrite Hsrv; cbn [ret raise];
  destruct Hbad as [Hok | (ok & Hok & Hfalse & Hmsg)];
  [ rewrite Hok; reflexivity
  | rewrite Hok; cbn [ret]; rewrite Hfalse; cbn [negb]; rewrite Hmsg; reflexivity ].

(** X3: a reply without [ok], or with a false [ok] and without [msg], is not
    reported as a failure of the operation: the subscript raises outside the
    [try], no message is printed and the exception ends the command (exit
    status 1). *)
Theorem group_mutations_unreadable_reply :
  forall (w : world) (data : pyval) (e : exn) (rest : list (res pyval)),
    server w = Ok data :: rest ->
    unreadable data e ->
    (forall domain_name name description inactive,
        Groups.add domain_name name description inactive w
        = reply_unreadable
            (GroupCreate domain_name name description (negb inactive)) e w rest) /\
    (forall gid name description is_active,
        Groups.update gid name description is_active w
        = reply_unreadable (GroupUpdate gid name description is_active) e w rest) /\
    (forall gid,
        Groups.delete gid w = reply_unreadable (GroupDelete gid) e w rest) /\
    (forall gid user_uuids,
        Groups.add_users gid user_uuids w
        = reply_unreadable (GroupAddUsers gid user_uuids) e w rest) /\
    (forall gid user_uuids,
        Groups.remove_users gid user_uuids w
        = reply_unreadable (GroupRemoveUsers gid user_uuids) e w rest).
Proof.
  intros w data e rest Hsrv Hbad. repeat split; intros.
  - unfold Groups.add. run_unreadable Hsrv Hbad.
  - unfold Groups.update. run_unreadable Hsrv Hbad.
  - unfold Groups.delete. run_unreadable Hsrv Hbad.
  - unfold Groups.add_users. run_unreadable Hsrv Hbad.
  - unfold Groups.remove_users. run_unreadable Hsrv Hbad.
Qed.

Lemma group_mutations_unreadable_reply_witness :
  Groups.delete "g1"
    (World [Ok (VDict [("ok", VBool false)])] true None Missing Writes)
  = Run [SessionOpen; Call (GroupDelete "g1"); SessionClose]
        (World [] true None Missing Writes) (Raise (KeyError (VStr "msg"))).
Proof.
  refine (proj1 (proj2 (proj2
            (group_mutations_unreadable_reply
               (World [Ok (VDict [("ok", VBool false)])] true None Missing Writes)
               (VDict [("ok", VBool false)]) (KeyError (VStr "msg")) []
               eq_refl _))) "g1").
  right. exists (VBool false). repeat split.
Defined.

Ltac run_confirmed Hsrv Hok Htrue :=
  unfold confirmed, with_session, try_except, bind, call, lift;
  rewrite Hsrv; cbn [ret]; rewrite Hok; cbn [ret]; rewrite Htrue; cbn [negb].

(** X4: on a reply whose [ok] is true the mutations print their
    confirmation and return.  [add] names the group and the domain of the
    reply's [group] entry; [update] names its own [--name] argument, which
    reads [None] when the option is not given; [delete] names the group id
    it was given; the reply's [msg] is not read. *)
Theorem group_mutations_confirmation :
  forall (w : world) (data ok : pyval) (rest : list (res pyval)),
    server w = Ok data :: rest ->
    getitem data "ok" = Ok ok ->
    truthy ok = true ->
    (forall domain_name name description inactive item item_name item_domain,
        getitem data "group" = Ok item ->
        getitem item "name" = Ok item_name ->
        getitem item "domain_name" = Ok item_domain ->
        Groups.add domain_name name description inactive w
        = confirmed (GroupCreate domain_name name description (negb inactive))
            ("Group name " ++ str item_name ++ " is created in domain "
             ++ str item_domain ++ ".") w rest) /\
    (forall gid name description is_active,
        Groups.update gid name description is_active w
        = confirmed (GroupUpdate gid name description is_active)
            ("Group " ++ match name with Some n => n | None => "None" end
             ++ " is updated.") w rest) /\
    (forall gid,
        Groups.delete gid w
        = confirmed (GroupDelete gid) ("Group is deleted: " ++ gid ++ ".") w rest) /\
    (forall gid user_uuids,
        Groups.add_users gid user_uuids w
        = confirmed (GroupAddUsers gid user_uuids)
            "Users are added to the group" w rest) /\
    (forall gid user_uuids,
        Groups.remove_users gid user_uuids w
        = confirmed (GroupRemoveUsers gid user_uuids)
            "Users are removed from the group" w rest).
Proof.
  intros w data ok rest Hsrv Hok Htrue. repeat split; intros.
  - unfold Groups.add. run_confirmed Hsrv Hok Htrue.
    rewrite H. cbn [ret]. rewrite H0. cbn [ret]. rewrite H1. reflexivity.
  - unfold Groups.update. run_confirmed Hsrv Hok Htrue.
    destruct name; reflexivity.
  - unfold Groups.delete. run_confirmed Hsrv Hok Htrue. reflexivity.
  - unfold Groups.add_users. run_confirmed Hsrv Hok Htrue. reflexivity.
  - unfold Groups.remove_users. run_confirmed Hsrv Hok Htrue. reflexivity.
Qed.

Lemma group_mutations_confirmation_witness :
  Groups.update "g1" None (Some "new text") None
    (World [Ok (VDict [("ok", VBool true)])] true None Missing Writes)
  = Run [ SessionOpen; Call (GroupUpdate "g1" None (Some "new text") None);
          Print "Group None is updated."; SessionClose ]
        (World [] true None Missing Writes) (Return tt).
Proof.
  exact (proj1 (proj2
           (group_mutations_confirmation
              (World [Ok (VDict [("ok", VBool true)])] true None Missing Writes)
              (VDict [("ok", VBool true)]) (VBool true) []
              eq_refl eq_refl eq_refl))
           "g1" None (Some "new text") None).
Defined.

(** ** Listings and details *)

(** X5: an empty result is not an error: [groups] and [sessions] print
    their notice inside the session, print no table and return (exit status
    0).  Any reply of length 0 counts as empty. *)
Theorem empty_listings :
  forall (w : world) (resp : pyval) (rest : list (res pyval)),
    server w = Ok resp :: rest ->
    (forall domain_name,
        len resp = Ok 0 ->
        Groups.groups None (Some domain_name) w
        = confirmed (GroupList domain_name (map snd Groups.fields))
            "There is no group." w rest) /\
    (forall args cs,
        getitem resp "compute_sessions" = Ok cs ->
        len cs = Ok 0 ->
        Sessions.sessions args w
        = confirmed (AdminQuery (Sessions.sessions_query args)
                                (Sessions.sessions_variables args))
            "There are no compute sessions currently running." w rest).
Proof.
  intros w resp rest Hsrv. split.
  - intros domain_name Hlen.
    unfold Groups.groups, confirmed, with_session, try_except, bind, call, lift.
    rewrite Hsrv. cbn [ret]. rewrite Hlen. reflexivity.
  - intros args cs Hcs Hlen.
    unfold Sessions.sessions, confirmed, with_session, try_except, bind, call, lift.
    rewrite Hsrv. cbn [ret]. rewrite Hcs. cbn [ret]. rewrite Hlen. reflexivity.
Qed.

Lemma empty_listings_witness :
  Groups.groups None (Some "default")
    (World [Ok (VList [])] true None Missing Writes)
  = Run [ SessionOpen; Call (GroupList "default" (map snd Groups.fields));
          Print "There is no group."; SessionClose ]
        (World [] true None Missing Writes) (Return tt).
Proof.
  exact (proj1 (empty_listings (World [Ok (VList [])] true None Missing Writes)
                  (VList []) [] eq_refl) "default" eq_refl).
Defined.

Lemma dict_mem_get (k : string) (d : list (string * pyval)) :
  dict_mem k d = match dict_get k d with Some _ => true | None => false end.
Proof.
  unfold dict_mem. induction d as [|[k' v] d IH]; simpl; [reflexivity|].
  destruct (String.eqb k k'); [reflexivity | exact IH].
Qed.

Lemma group_rows (d : list (string * pyval)) (fields : list (string * string)) :
  forall (acc : list (list pyval)) (w : world),
    fold_m (fun rows '(name, key) =>
              present <- lift (contains key (VDict d)) ;;
              if present : bool then
                v <- lift (getitem (VDict d) key) ;;
                ret (rows ++ [[VStr name; v]])%list
              else ret rows)
           fields acc w
    = Run [] w (Return (acc ++ detail_rows d fields)%list).
Proof.
  induction fields as [|[name key] fields IH]; intros acc w; simpl.
  - now rewrite app_nil_r.
  - unfold bind at 1. unfold bind at 1. cbn [lift contains ret getitem].
    rewrite dict_mem_get.
    destruct (dict_get key d) as [v|]; cbn [lift ret bind].
    + unfold bind at 1. cbn [ret]. rewrite IH. cbn [app].
      now rewrite <- app_assoc.
    + rewrite IH. reflexivity.
Qed.

(** X6: [group] on a reply that is a mapping prints one row per requested
    field that the mapping has, in the order of the field list and under the
    field's label; fields that the mapping lacks are left out, keys that
    were not requested are not shown, and no mapping makes the command
    fail. *)
Theorem group_shows_present_fields :
  forall (gid : string) (w : world) (d : list (string * pyval))
         (rest : list (res pyval)),
    server w = Ok (VDict d) :: rest ->
    Groups.group gid w
    = Run [ SessionOpen; Call (GroupDetail gid (map snd Groups.fields));
            PrintTable (detail_rows d Groups.fields) ["Field"; "Value"];
            SessionClose ]
          (answered w rest) (Return tt).
Proof.
  intros gid w d rest Hsrv.
  unfold Groups.group, with_session, try_except.
  unfold bind at 1. unfold call. rewrite Hsrv. cbn [is_none].
  unfold bind at 1. rewrite group_rows. reflexivity.
Qed.

Lemma group_shows_present_fields_witness :
  Groups.group "g1"
    (World [Ok (VDict [ ("owner", VStr "kim"); ("name", VStr "dev");
                        ("id", VStr "g1") ])] true None Missing Writes)
  = Run [ SessionOpen; Call (GroupDetail "g1" (map snd Groups.fields));
          PrintTable [[VStr "ID"; VStr "g1"]; [VStr "Name"; VStr "dev"]]
                     ["Field"; "Value"];
          SessionClose ]
        (World [] true None Missing Writes) (Return tt).
Proof.
  exact (group_shows_present_fields "g1"
           (World [Ok (VDict [ ("owner", VStr "kim"); ("name", VStr "dev");
                               ("id", VStr "g1") ])] true None Missing Writes)
           [("owner", VStr "kim"); ("name", VStr "dev"); ("id", VStr "g1")]
           [] eq_refl).
Defined.

Lemma dict_mem_permutation (k : string) (d d' : list (string * pyval)) :
  Permutation d d' -> dict_mem k d = dict_mem k d'.
Proof.
  unfold dict_mem. intros H. induction H as [|x l l' _ IH|x y l|l l' l'' _ IH1 _ IH2];
    simpl.
  - reflexivity.
  - now rewrite IH.
  - now rewrite !orb_assoc, (orb_comm (String.eqb k (fst y))).
  - congruence.
Qed.

Lemma present_permutation (row0 row0' : list (string * pyval)) :
  Permutation row0 row0' -> present row0 = present row0'.
Proof.
  intros H. unfold present. apply filter_ext.
  intros field. now apply dict_mem_permutation.
Qed.

(** X7: the header of [groups] follows the field list and the data rows
    follow the mappings: a first row that holds the items of [row0] in
    another order gets the header of [row0] over its own order of columns,
    so a value can stand under the label of another field. *)
Theorem groups_header_ignores_key_order :
  forall (domain_name : string) (w : world)
         (row0 row0' : list (string * pyval)) (more : list (list (string * pyval)))
         (rest : list (res pyval)),
    server w = Ok (VList (map VDict (row0' :: more))) :: rest ->
    Permutation row0 row0' ->
    events (Groups.groups None (Some domain_name) w)
    = [ SessionOpen; Call (GroupList domain_name (map snd Groups.fields));
        PrintTable (dict_values row0' :: map dict_values more)
                   (map fst (present row0));
        SessionClose ].
Proof.
  intros domain_name w row0 row0' more rest Hsrv Hperm.
  rewrite (groups_list_run domain_name w row0' more rest Hsrv).
  rewrite (present_permutation row0 row0' Hperm). reflexivity.
Qed.

Lemma groups_header_ignores_key_order_witness :
  events (Groups.groups None (Some "default")
            (World [Ok (VList [VDict [("name", VStr "dev"); ("id", VStr "g1")]])]
                   true None Missing Writes))
  = [ SessionOpen; Call (GroupList "default" (map snd Groups.fields));
      PrintTable [[VStr "dev"; VStr "g1"]] ["ID"; "Name"]; SessionClose ].
Proof.
  apply (groups_header_ignores_key_order "default"
           (World [Ok (VList [VDict [("name", VStr "dev"); ("id", VStr "g1")]])]
                  true None Missing Writes)
           [("id", VStr "g1"); ("name", VStr "dev")]
           [("name", VStr "dev"); ("id", VStr "g1")] [] []).
  - reflexivity.
  - apply perm_swap.
Defined.

(** ** [sessions] *)

Lemma convert_item_fails (row : list (string * pyval)) (e : exn) (w : world) :
  unconvertible row e ->
  Sessions.convert_item (VDict row) w = Run [] w (Raise e).
Proof.
  intros [[Hnone ->] | (v & Hget & Hdiv)];
    unfold Sessions.convert_item, bind; cbn [lift getitem].
  - rewrite Hnone. reflexivity.
  - rewrite Hget. cbn [lift ret]. rewrite Hdiv. reflexivity.
Qed.

Lemma convert_items_fail (good good' : list (list (string * pyval)))
      (bad : list (string * pyval)) (more : list (list (string * pyval)))
      (e : exn) (w : world) :
  Forall2 (converted "mem_cur_bytes") good good' ->
  unconvertible bad e ->
  map_m Sessions.convert_item (map VDict (good ++ bad :: more)) w
  = Run [] w (Raise e).
Proof.
  intros Hgood Hbad.
  induction Hgood as [|row row' good good' Hrow _ IH]; cbn [app map map_m];
    unfold bind.
  - now rewrite (convert_item_fails bad e w Hbad).
  - rewrite (convert_item_run row row' w Hrow), IH. reflexivity.
Qed.

(** X8: one row of [sessions] without a usable [mem_cur_bytes] (the key is
    missing, or the value is null or not a number) hides the whole listing:
    the conversion raises outside the [try], no table and no message is
    printed, also for the rows before it, and the exception ends the
    command. *)
Theorem sessions_unconvertible_row :
  forall (args : Sessions.sessions_args) (w : world) (resp : pyval)
         (good good' : list (list (string * pyval)))
         (bad : list (string * pyval)) (more : list (list (string * pyval)))
         (e : exn) (rest : list (res pyval)),
    server w = Ok resp :: rest ->
    getitem resp "compute_sessions"
    = Ok (VList (map VDict (good ++ bad :: more))) ->
    Forall2 (converted "mem_cur_bytes") good good' ->
    unconvertible bad e ->
    Sessions.sessions args w
    = reply_unreadable
        (AdminQuery (Sessions.sessions_query args)
                    (Sessions.sessions_variables args)) e w rest.
Proof.
  intros args w resp good good' bad more e rest Hsrv Hcs Hgood Hbad.
  unfold Sessions.sessions, reply_unreadable, with_session, try_except, bind, call.
  rewrite Hsrv. cbn [lift ret]. rewrite Hcs. cbn [len iter lift ret].
  replace (Z.of_nat (List.length (map VDict (good ++ bad :: more))) =? 0)
    with false.
  - rewrite (convert_items_fail good good' bad more e _ Hgood Hbad). reflexivity.
  - symmetry. apply Z.eqb_neq. rewrite length_map, length_app. simpl. lia.
Qed.

Lemma sessions_unconvertible_row_witness :
  Sessions.sessions
    {| Sessions.status := "RUNNING"; Sessions.access_key := None |}
    (World [Ok (VDict [("compute_sessions",
                        VList [ VDict [ ("sess_id", VStr "s1");
                                        ("mem_cur_bytes", VInt 1572864) ];
                                VDict [ ("sess_id", VStr "s2");
                                        ("mem_cur_bytes", VNone) ] ])])]
           true None Missing Writes)
  = Run [ SessionOpen;
          Call (AdminQuery
                  (Sessions.sessions_query
                     {| Sessions.status := "RUNNING"; Sessions.access_key := None |})
                  (VDict [("status", VStr "RUNNING"); ("ak", VNone)]));
          SessionClose ]
        (World [] true None Missing Writes) (Raise TypeError).
Proof.
  apply (sessions_unconvertible_row
           {| Sessions.status := "RUNNING"; Sessions.access_key := None |}
           (World [Ok (VDict [("compute_sessions",
                               VList [ VDict [ ("sess_id", VStr "s1");
                                               ("mem_cur_bytes", VInt 1572864) ];
                                       VDict [ ("sess_id", VStr "s2");
                                               ("mem_cur_bytes", VNone) ] ])])]
                  true None Missing Writes)
           (VDict [("compute_sessions",
                    VList [ VDict [ ("sess_id", VStr "s1");
                                    ("mem_cur_bytes", VInt 1572864) ];
                            VDict [ ("sess_id", VStr "s2");
                                    ("mem_cur_bytes", VNone) ] ])])
           [[("sess_id", VStr "s1"); ("mem_cur_bytes", VInt 1572864)]]
           [[("sess_id", VStr "s1"); ("mem_cur_bytes", VFloat one_and_a_half)]]
           [("sess_id", VStr "s2"); ("mem_cur_bytes", VNone)] []
           TypeError []).
  - reflexivity.
  - reflexivity.
  - constructor; [|constructor].
    exists 1572864, (VFloat one_and_a_half).
    split; [discriminate|]. split; [reflexivity|]. split; reflexivity.
  - right. exists VNone. split; reflexivity.
Defined.

Lemma in_status_choices (s : string) :
  In s Sessions.status_choices <->
  existsb (String.eqb s) Sessions.status_choices = true.
Proof.
  rewrite existsb_exists. split.
  - intros H. exists s. split; [exact H | apply String.eqb_refl].
  - intros [x [Hin Heq]]. apply String.eqb_eq in Heq. now subst.
Qed.

(** X9: the parser of [sessions] accepts exactly the ten choices of
    [--status]; an accepted status other than [ALL] is sent unchanged as the
    variable [status], next to the access key as the variable [ak]; the text
    of the query depends only on whether an access key is given, never on
    its value or on the status. *)
Theorem sessions_status_passes_through :
  forall (s : string) (access_key : option string),
    (In s Sessions.status_choices ->
     s <> "ALL" ->
     exists args,
       Sessions.parse_args (Some s) access_key = Some args /\
       forall w, exists rest,
         events (Sessions.sessions args w)
         = SessionOpen
           :: Call (AdminQuery (Sessions.sessions_query args)
                      (VDict [ ("status", VStr s);
                               ("ak", of_opt_str access_key) ]))
           :: rest) /\
    (~ In s Sessions.status_choices ->
     Sessions.parse_args (Some s) access_key = None) /\
    (forall s' key key',
        Sessions.sessions_query
          {| Sessions.status := s; Sessions.access_key := Some key |}
        = Sessions.sessions_query
            {| Sessions.status := s'; Sessions.access_key := Some key' |} /\
        Sessions.sessions_query
          {| Sessions.status := s; Sessions.access_key := None |}
        = Sessions.sessions_query
            {| Sessions.status := s'; Sessions.access_key := None |}).
Proof.
  intros s access_key. split; [|split].
  - intros Hin Hne.
    exists {| Sessions.status := s; Sessions.access_key := access_key |}. split.
    + unfold Sessions.parse_args.
      now rewrite (proj1 (in_status_choices s) Hin).
    + intros w.
      destruct (sessions_first_call
                  {| Sessions.status := s; Sessions.access_key := access_key |} w)
        as [rest Hrest].
      exists rest. rewrite Hrest. unfold Sessions.sessions_variables.
      cbn [Sessions.status Sessions.access_key].
      destruct (String.eqb_spec s "ALL"); [contradiction | reflexivity].
  - intros Hout. unfold Sessions.parse_args.
    destruct (existsb (String.eqb s) Sessions.status_choices) eqn:E;
      [|reflexivity].
    elim Hout. now apply in_status_choices.
  - intros s' key key'.
    split; unfold Sessions.sessions_query; cbn [Sessions.access_key];
      reflexivity.
Qed.

Lemma sessions_status_passes_through_witness :
  Sessions.parse_args (Some "TERMINATED") (Some "AKIA")
  = Some {| Sessions.status := "TERMINATED"; Sessions.access_key := Some "AKIA" |}
  /\ Sessions.parse_args (Some "running") None = None.
Proof.
  destruct (sessions_status_passes_through "TERMINATED" (Some "AKIA"))
    as (Hin & _ & _).
  destruct (sessions_status_passes_through "running" None) as (_ & Hout & _).
  split.
  - destruct Hin as (args & Hargs & _).
    + simpl. tauto.
    + discriminate.
    + rewrite Hargs. f_equal.
      unfold Sessions.parse_args in Hargs. simpl in Hargs.
      now injection Hargs as <-.
  - apply Hout. simpl. intuition discriminate.
Defined.

(** ** [session] *)

(** X10: [session] pairs the values of the reply with its field list by
    position and never looks at the keys of the reply (other than
    [sess_id]): line [i] carries the label of field [i] and value [i] of the
    mapping, in MiB where field [i] is a count of memory bytes; the printing
    stops at the first value that cannot be shown. *)
Theorem session_detail_by_position :
  forall (name : string) (w : world) (resp sess_id : pyval)
         (cs : list (string * pyval)) (rest : list (res pyval)),
    server w = Ok resp :: rest ->
    getitem resp "compute_session" = Ok (VDict cs) ->
    dict_get "sess_id" cs = Some sess_id ->
    is_none sess_id = false ->
    Sessions.session name w
    = Run ([ SessionOpen; Call (session_call name);
             Print ("Session detail:" ++ Sessions.newline ++ "---------------") ]
           ++ fst (detail Sessions.session_fields (dict_values cs))
           ++ [SessionClose])%list
          (answered w rest)
          (snd (detail Sessions.session_fields (dict_values cs))).
Proof.
  intros name w resp sess_id cs rest Hsrv Hresp Hid Hnone.
  unfold Sessions.session, with_session, try_except, bind, call.
  rewrite Hsrv. cbn [lift ret]. rewrite Hresp. cbn [lift ret getitem].
  rewrite Hid. cbn [lift ret]. rewrite Hnone. cbn [emit values lift ret].
  rewrite session_lines_detail. reflexivity.
Qed.

Lemma session_detail_by_position_witness :
  Sessions.session "s1"
    (World [Ok (VDict [("compute_session",
                        VDict [ ("role", VStr "master");
                                ("sess_id", VStr "s1") ])])]
           true None Missing Writes)
  = Run [ SessionOpen; Call (session_call "s1");
          Print ("Session detail:" ++ Sessions.newline ++ "---------------");
          Print "Session ID: master"; Print "Role: s1"; SessionClose ]
        (World [] true None Missing Writes) (Return tt).
Proof.
  exact (session_detail_by_position "s1"
           (World [Ok (VDict [("compute_session",
                               VDict [ ("role", VStr "master");
                                       ("sess_id", VStr "s1") ])])]
                  true None Missing Writes)
           (VDict [("compute_session",
                    VDict [("role", VStr "master"); ("sess_id", VStr "s1")])])
           (VStr "s1") [("role", VStr "master"); ("sess_id", VStr "s1")] []
           eq_refl eq_refl eq_refl eq_refl).
Defined.

Lemma detail_one_too_many (fs : list (string * string)) :
  forall (vals : list pyval) (v : pyval) (more : list pyval) (lines : list event),
    List.length vals = List.length fs ->
    detail fs vals = (lines, Return tt) ->
    detail fs (vals ++ v :: more) = (lines, Raise IndexError).
Proof.
  induction fs as [|[label key] fs IH]; intros vals v more lines Hlen Hdet.
  - destruct vals; [|discriminate Hlen]. simpl in *. congruence.
  - destruct vals as [|x vals]; [discriminate Hlen|].
    cbn [app detail] in *.
    destruct (shown_value key x) as [y|e]; [|discriminate Hdet].
    destruct (detail fs vals) as [lines' o] eqn:Hrec.
    injection Hdet as <- ->.
    rewrite (IH vals v more lines') by (simpl in Hlen; congruence || reflexivity).
    reflexivity.
Qed.

(** X11: a reply of [session] with more values than the 22 fields of the
    field list makes the command fail after the 22nd line: the index into
    the field list runs out of bounds, outside the [try], and the exception
    ends the command once all the lines that have a label are printed. *)
Theorem session_value_without_field :
  forall (name : string) (w : world) (resp sess_id : pyval)
         (cs : list (string * pyval)) (rest : list (res pyval))
         (vals : list pyval) (v : pyval) (more : list pyval)
         (lines : list event),
    server w = Ok resp :: rest ->
    getitem resp "compute_session" = Ok (VDict cs) ->
    dict_get "sess_id" cs = Some sess_id ->
    is_none sess_id = false ->
    dict_values cs = (vals ++ v :: more)%list ->
    List.length vals = 22%nat ->
    detail Sessions.session_fields vals = (lines, Return tt) ->
    Sessions.session name w
    = Run ([ SessionOpen; Call (session_call name);
             Print ("Session detail:" ++ Sessions.newline ++ "---------------") ]
           ++ lines ++ [SessionClose])%list
          (answered w rest) (Raise IndexError) /\
    List.length lines = 22%nat.
Proof.
  intros name w resp sess_id cs rest vals v more lines
         Hsrv Hresp Hid Hnone Hvals Hlen Hdet.
  split.
  - run_session Hsrv Hresp Hid Hnone.
    rewrite Hvals,
      (detail_one_too_many Sessions.session_fields vals v more lines Hlen Hdet).
    reflexivity.
  - clear -Hlen Hdet. revert vals lines Hlen Hdet.
    generalize Sessions.session_fields as fs. generalize 22%nat as n.
    intros n fs vals. revert n fs.
    induction vals as [|x vals IH]; intros n fs lines Hlen Hdet.
    + simpl in *. injection Hdet as <-. exact Hlen.
    + destruct n as [|n]; [discriminate Hlen|].
      cbn [detail] in Hdet. destruct fs as [|[label key] fs]; [discriminate Hdet|].
      destruct (shown_value key x); [|discriminate Hdet].
      destruct (detail fs vals) as [lines' o] eqn:Hrec.
      injection Hdet as <- ->. simpl. f_equal.
      apply (IH n fs lines'); [simpl in Hlen; congruence | exact Hrec].
Qed.

Lemma session_value_without_field_witness :
  result (Sessions.session "s1" overfull_world) = Raise IndexError /\
  List.length (events (Sessions.session "s1" overfull_world)) = 26%nat.
Proof.
  destruct (session_value_without_field "s1" overfull_world
              (VDict [("compute_session",
                       VDict (detail_reply ++ [("kernel_ip", VStr "10.0.0.7")]))])
              (VStr "s1")
              (detail_reply ++ [("kernel_ip", VStr "10.0.0.7")]) []
              (dict_values detail_reply) (VStr "10.0.0.7") []
              (fst (detail Sessions.session_fields (dict_values detail_reply)))
              eq_refl eq_refl eq_refl eq_refl eq_refl eq_refl eq_refl)
    as [Hrun Hlen].
  rewrite Hrun. cbn [result events]. split; [reflexivity|].
  rewrite !length_app, Hlen. reflexivity.
Defined.

(** X12: a reply of [session] whose 13th value (the place of
    [mem_cur_bytes]) is null or not a number stops the detail there: the
    twelve lines before it are printed, the division raises outside the
    [try], and the exception ends the command. *)
Theorem session_memory_not_a_number :
  forall (name : string) (w : world) (resp sess_id : pyval)
         (cs : list (string * pyval)) (rest : list (res pyval))
         (v : pyval) (e : exn),
    server w = Ok resp :: rest ->
    getitem resp "compute_session" = Ok (VDict cs) ->
    dict_get "sess_id" cs = Some sess_id ->
    is_none sess_id = false ->
    nth_error (dict_values cs) 12 = Some v ->
    truediv v (2 ^ 20) = Err e ->
    Sessions.session name w
    = Run ([ SessionOpen; Call (session_call name);
             Print ("Session detail:" ++ Sessions.newline ++ "---------------") ]
           ++ firstn 12 (detail_lines (dict_values cs))
           ++ [SessionClose])%list
          (answered w rest) (Raise e).
Proof.
  intros name w resp sess_id cs rest v e Hsrv Hresp Hid Hnone Hnth Hdiv.
  run_session Hsrv Hresp Hid Hnone.
  generalize dependent (dict_values cs). intros vals Hnth.
  do 12 (destruct vals as [|? vals]; [discriminate Hnth|]).
  destruct vals as [|v' vals]; [discriminate Hnth|].
  injection Hnth as ->.
  cbn [detail shown_value Sessions.session_fields existsb String.eqb Ascii.eqb
       Bool.eqb orb].
  rewrite Hdiv. reflexivity.
Qed.

Lemma session_memory_not_a_number_witness :
  Sessions.session "s1" unmeasured_world
  = Run [ SessionOpen; Call (session_call "s1");
          Print ("Session detail:" ++ Sessions.newline ++ "---------------");
          Print "Session ID: s1"; Print "Role: master";
          Print "Lang/runtime: python:3.6"; Print "Tag: None";
          Print "Created At: 2019-03-01T10:00:00"; Print "Terminated At: None";
          Print "Agent: i-agent01"; Print "Status: RUNNING";
          Print "Status Info: None"; Print "CPU Cores: 1";
          Print "CPU Used (ns): 2500"; Print "Total Memory (MiB): 1024";
          SessionClose ]
        (World [] true None Missing Writes) (Raise TypeError).
Proof.
  exact (session_memory_not_a_number "s1" unmeasured_world
           (VDict [("compute_session", VDict unmeasured_reply)])
           (VStr "s1") unmeasured_reply [] VNone TypeError
           eq_refl eq_refl eq_refl eq_refl eq_refl eq_refl).
Defined.

(** ** [manager freeze] without a clean end *)

(** X13: [freeze] without [--wait] makes the one call [Manager.freeze] with
    its [--force-kill] flag and polls nothing; with the flag the notice of
    the killing is printed before the call, also when the call then fails,
    and the notice of its end only after a call that succeeds.  A failing
    call is reported after the session is closed, with exit status 1. *)
Theorem freeze_without_wait :
  forall (force_kill : bool) (w : world) (rest : list (res pyval)),
    (forall reply,
        server w = Ok reply :: rest ->
        Manager.freeze false force_kill w
        = Run (SessionOpen :: killing force_kill
               ++ Call (ManagerFreeze force_kill) :: killed force_kill
               ++ [Print "Manager is successfully frozen."; SessionClose])%list
              (answered w rest) (Return tt)) /\
    (forall e,
        server w = Err e :: rest ->
        Manager.freeze false force_kill w
        = Run (SessionOpen :: killing force_kill
               ++ [Call (ManagerFreeze force_kill); SessionClose; PrintError e])%list
              (answered w rest) (Exit 1)).
Proof.
  intros force_kill w rest. split; intros x Hsrv;
    unfold Manager.freeze, try_except, with_session, when, bind, call, fail_with;
    destruct force_kill; simpl; rewrite Hsrv; reflexivity.
Qed.

Lemma freeze_without_wait_witness :
  Manager.freeze false true
    (World [Err (TransportError "timeout")] true None Missing Writes)
  = Run [ SessionOpen; PrintWait "Killing all sessions...";
          Call (ManagerFreeze true); SessionClose;
          PrintError (TransportError "timeout") ]
        (World [] true None Missing Writes) (Exit 1).
Proof.
  exact (proj2 (freeze_without_wait true
                  (World [Err (TransportError "timeout")] true None Missing Writes)
                  [])
           (TransportError "timeout") eq_refl).
Defined.

Lemma wait_loop_fails :
  forall (counts : list Z) (replies : list pyval) (tail rest : list (res pyval))
         (e : exn) (fuel : nat) yn ed js wr,
    Forall (fun n => n <> 0) counts ->
    Forall2 (fun r n => getitem r "active_sessions" = Ok (VInt n)) replies counts ->
    poll_fails tail e rest ->
    (List.length counts < fuel)%nat ->
    Manager.wait_loop fuel (World (map Ok replies ++ tail) yn ed js wr)
    = Run (flat_map waiting counts ++ [Call ManagerStatus])
          (World rest yn ed js wr) (Raise e).
Proof.
  induction counts as [|n counts IH];
    intros replies tail rest e fuel yn ed js wr Hnz Hrep Htail Hfuel.
  - inversion Hrep; subst. destruct fuel as [|fuel]; [inversion Hfuel|].
    simpl. unfold bind, call, lift. simpl.
    destruct Htail as [(-> & -> & ->) | [-> | (bad & -> & Hbad)]]; simpl;
      try reflexivity.
    rewrite Hbad. reflexivity.
  - inversion Hrep as [|r n' replies' counts' Hr Hrep']; subst.
    inversion Hnz as [|? ? Hn Hnz']; subst.
    destruct fuel as [|fuel]; [inversion Hfuel|].
    assert (Hf : (List.length counts < fuel)%nat) by (simpl in Hfuel; lia).
    specialize (IH replies' tail rest e fuel yn ed js wr Hnz' Hrep' Htail Hf).
    simpl. unfold bind, call, lift. simpl. rewrite Hr. simpl.
    destruct (Z.eqb_spec n 0) as [|_]; [contradiction|]. simpl.
    rewrite IH. reflexivity.
Qed.

(** X14: [freeze --wait] never freezes a manager it could not see idle:
    when a poll fails after any number of non-zero counts (the call raises,
    the server stops answering, or a reply has no [active_sessions]), the
    command has polled once per count and once more, makes no call of
    [Manager.freeze], prints the error after closing the session and exits
    with status 1. *)
Theorem freeze_wait_failure_never_freezes :
  forall (counts : list Z) (replies : list pyval) (tail rest : list (res pyval))
         (e : exn) (w : world),
    Forall (fun n => n <> 0) counts ->
    Forall2 (fun r n => getitem r "active_sessions" = Ok (VInt n)) replies counts ->
    poll_fails tail e rest ->
    server w = (map Ok replies ++ tail)%list ->
    let r := Manager.freeze true false w in
    events r
    = (SessionOpen :: flat_map waiting counts
       ++ [Call ManagerStatus; SessionClose; PrintError e])%list /\
    calls (events r) = repeat ManagerStatus (S (List.length counts)) /\
    result r = Exit 1.
Proof.
  intros counts replies tail rest e [srv yn ed js wr] Hnz Hrep Htail Hsrv r.
  simpl in Hsrv. subst srv.
  assert (Hrun :
    r = Run (SessionOpen :: flat_map waiting counts
             ++ [Call ManagerStatus; SessionClose; PrintError e])%list
            (World rest yn ed js wr) (Exit 1)).
  { pose proof (wait_loop_fails counts replies tail rest e
                  (S (List.length (map Ok replies ++ tail)))
                  yn ed js wr Hnz Hrep Htail) as Hloop.
    assert (Hlen : List.length replies = List.length counts).
    { clear -Hrep. induction Hrep; simpl; congruence. }
    rewrite length_app, length_map in Hloop.
    specialize (Hloop ltac:(lia)).
    subst r. unfold Manager.freeze, try_except, with_session, when, bind.
    cbn -[Manager.wait_loop]. rewrite length_app, length_map. rewrite Hloop.
    simpl. rewrite <- !app_assoc. reflexivity. }
  rewrite Hrun. cbn [events result].
  repeat split.
  clear. induction counts as [|n counts IH]; [reflexivity|].
  simpl in *. congruence.
Qed.

Lemma freeze_wait_failure_never_freezes_witness :
  calls (events (Manager.freeze true false
                   (World [Ok (status_report 2); Ok (status_report 1)]
                          true None Missing Writes)))
  = [ManagerStatus; ManagerStatus; ManagerStatus] /\
  result (Manager.freeze true false
            (World [Ok (status_report 2); Ok (status_report 1)]
                   true None Missing Writes)) = Exit 1.
Proof.
  destruct (freeze_wait_failure_never_freezes [2; 1]
              [status_report 2; status_report 1] [] []
              (TransportError "no reply")
              (World [Ok (status_report 2); Ok (status_report 1)]
                     true None Missing Writes)) as (_ & Hcalls & Hres).
  - repeat constructor; discriminate.
  - repeat constructor.
  - left. repeat split.
  - reflexivity.
  - split; [exact Hcalls | exact Hres].
Defined.

(** ** [announcement update] and [announcement dismiss] *)

(** X15: with [--message] the editor is not opened and the message is posted
    as given, also when it is empty; a text composed in the editor is posted
    exactly as the same text given with [--message] is: the two runs differ
    by the one event of the editor.  A failing post is reported after the
    session is closed, with exit status 1 and without the notice of success. *)
Theorem update_with_message :
  forall (message : string) (w : world),
    (forall reply rest,
        server w = Ok reply :: rest ->
        Manager.update (Some message) w
        = Run [ SessionOpen;
                Call (ManagerUpdateAnnouncement true (Some message));
                SessionClose; PrintDone "Posted new announcement." ]
              (answered w rest) (Return tt)) /\
    (forall e rest,
        server w = Err e :: rest ->
        Manager.update (Some message) w
        = Run [ SessionOpen;
                Call (ManagerUpdateAnnouncement true (Some message));
                SessionClose; PrintError e ]
              (answered w rest) (Exit 1)) /\
    (editor w = Some message ->
     events (Manager.update None w)
     = SessionOpen :: Edit editor_template
       :: tl (events (Manager.update (Some message) w)) /\
     final (Manager.update None w) = final (Manager.update (Some message) w) /\
     result (Manager.update None w) = result (Manager.update (Some message) w)).
Proof.
  intros message w. split; [|split].
  - intros reply rest Hsrv.
    unfold Manager.update, try_except, with_session, bind, call.
    cbn [ret]. rewrite Hsrv. reflexivity.
  - intros e rest Hsrv.
    unfold Manager.update, try_except, with_session, bind, call.
    cbn [ret]. rewrite Hsrv. reflexivity.
  - intros He. destruct w as [srv yn ed js wr]. simpl in He. subst ed.
    destruct srv as [|[v|e] srv]; (split; [|split]); reflexivity.
Qed.

Lemma update_with_message_witness :
  events (Manager.update None
            (World [Ok VNone] true (Some "maintenance at noon") Missing Writes))
  = SessionOpen :: Edit editor_template
    :: tl (events (Manager.update (Some "maintenance at noon")
                     (World [Ok VNone] true (Some "maintenance at noon")
                            Missing Writes))).
Proof.
  exact (proj1 (proj2 (proj2
           (update_with_message "maintenance at noon"
              (World [Ok VNone] true (Some "maintenance at noon") Missing Writes)))
           eq_refl)).
Defined.

(** X16: [dismiss] ends in one of two ways, never with an uncaught
    exception: it returns, and then the state file held an object and now
    holds it with [dismissed] true; or it exits with status 1, and then it
    has written nothing.  After an exit the state file is as it was, with
    one exception: a file that held an object is left without its content
    when the write failed after the file was opened for writing. *)
Theorem dismiss_writes_only_on_success :
  forall (w : world),
    let r := Manager.dismiss w in
    (result r = Return tt /\
     exists d,
       announcement_json w = Json (VDict d) /\
       final r = holding (Json (VDict (dict_set "dismissed" (VBool true) d))) w) \/
    (result r = Exit 1 /\
     (forall content, ~ In (WriteState content) (events r)) /\
     ((final r = w /\ ~ In TruncateState (events r)) \/
      (yn_answer w = true /\
       (exists d, announcement_json w = Json (VDict d)) /\
       state_write w = WriteFails /\
       final r = holding Unparseable w /\
       In TruncateState (events r)))).
Proof.
  intros [srv yn ed js wr] r. subst r.
  destruct yn.
  - destruct js as [| | |v].
    + right. split; [reflexivity|]. split; [|left; split; [reflexivity|]];
        simpl; intuition discriminate.
    + right. split; [reflexivity|]. split; [|left; split; [reflexivity|]];
        simpl; intuition discriminate.
    + right. split; [reflexivity|]. split; [|left; split; [reflexivity|]];
        simpl; intuition discriminate.
    + destruct v as [| | | | | |d];
        try (right; split; [reflexivity|];
             split; [|left; split; [reflexivity|]];
             simpl; intuition discriminate).
      destruct wr.
      * left. split; [reflexivity|]. exists d. split; reflexivity.
      * right. split; [reflexivity|]. split; [|left; split; [reflexivity|]];
          simpl; intuition discriminate.
      * right. split; [reflexivity|]. split; [simpl; intuition discriminate|].
        right. split; [reflexivity|]. split; [exists d; reflexivity|].
        split; [reflexivity|]. split; [reflexivity|].
        simpl. tauto.
  - right. split; [reflexivity|]. split; [|left; split; [reflexivity|]];
      simpl; intuition discriminate.
Qed.

(** X17: the ways [dismiss] gives up.  After a no nothing is read.  After a
    yes, a state file that holds JSON other than an object (a list, a text,
    a number, null) is reported with the error of the assignment, not as
    missing; a state file that holds an object but cannot be opened for
    writing is reported as if no announcement had been seen, and so is a
    write that fails after the file is opened, which leaves the file without
    its content.  Each time the exit status is 1. *)
Theorem dismiss_gives_up :
  forall (w : world),
    (yn_answer w = false ->
     Manager.dismiss w = Run [AskYn; PrintInfo "Cancelled."] w (Exit 1)) /\
    (forall v e,
        yn_answer w = true ->
        announcement_json w = Json v ->
        setitem v "dismissed" (VBool true) = Err e ->
        e = TypeError /\
        Manager.dismiss w = Run [AskYn; ReadState; PrintError TypeError] w (Exit 1)) /\
    (forall d,
        yn_answer w = true ->
        announcement_json w = Json (VDict d) ->
        state_write w = OpenFails ->
        Manager.dismiss w
        = Run [AskYn; ReadState; PrintFail "No announcements seen yet."] w (Exit 1)) /\
    (forall d,
        yn_answer w = true ->
        announcement_json w = Json (VDict d) ->
        state_write w = WriteFails ->
        Manager.dismiss w
        = Run [ AskYn; ReadState; TruncateState;
                PrintFail "No announcements seen yet." ]
              (holding Unparseable w) (Exit 1)).
Proof.
  intros w. split; [|split; [|split]].
  - intros Hno. unfold Manager.dismiss, bind, ask_yn. rewrite Hno. reflexivity.
  - intros v e Hyes Hfile Hset.
    assert (He : e = TypeError) by (destruct v; simpl in Hset; congruence).
    subst e. split; [reflexivity|].
    unfold Manager.dismiss, try_except, bind, ask_yn, load_state.
    rewrite Hyes. cbn [negb]. rewrite Hfile, Hset. reflexivity.
  - intros d Hyes Hfile Hwr. destruct w as [srv yn ed js wr].
    simpl in Hyes, Hfile, Hwr. subst. reflexivity.
  - intros d Hyes Hfile Hwr. destruct w as [srv yn ed js wr].
    simpl in Hyes, Hfile, Hwr. subst. reflexivity.
Qed.

Lemma dismiss_gives_up_witness :
  Manager.dismiss (World [] true None (Json (VList [])) Writes)
  = Run [AskYn; ReadState; PrintError TypeError]
        (World [] true None (Json (VList [])) Writes) (Exit 1).
Proof.
  exact (proj2 (proj1 (proj2
           (dismiss_gives_up (World [] true None (Json (VList [])) Writes)))
           (VList []) TypeError eq_refl eq_refl eq_refl)).
Defined.

Lemma dict_set_twice (k : string) (v : pyval) (d : list (string * pyval)) :
  dict_set k v (dict_set k v d) = dict_set k v d.
Proof.
  induction d as [|[k' v'] d IH]; simpl.
  - now rewrite String.eqb_refl.
  - destruct (String.eqb k k') eqn:E; simpl.
    + now rewrite String.eqb_refl.
    + now rewrite E, IH.
Qed.

(** X18: dismissing twice is dismissing once: after a [dismiss] that
    succeeded, a second one succeeds too and leaves the state file exactly
    as the first one left it. *)
Theorem dismiss_twice :
  forall (w : world) (d : list (string * pyval)),
    yn_answer w = true ->
    announcement_json w = Json (VDict d) ->
    state_write w = Writes ->
    let w1 := final (Manager.dismiss w) in
    result (Manager.dismiss w1) = Return tt /\
    final (Manager.dismiss w1) = w1.
Proof.
  intros [srv yn ed js wr] d Hyes Hfile Hwr. simpl in Hyes, Hfile, Hwr. subst.
  unfold Manager.dismiss, try_except, bind, ask_yn, load_state, dump_state.
  simpl. rewrite dict_set_twice. split; reflexivity.
Qed.

Lemma dismiss_twice_witness :
  final (Manager.dismiss (final (Manager.dismiss seen_world)))
  = final (Manager.dismiss seen_world).
Proof.
  exact (proj2 (dismiss_twice seen_world
                  [("id", VInt 7); ("dismissed", VBool false)]
                  eq_refl eq_refl eq_refl)).
Defined.

(** ** [manager status] and [announcement delete] *)

(** X19: [status] prints one table with the [status] and the
    [active_sessions] of the reply under the headers Status and Active
    Sessions.  Its subscripts are inside the [try]: a reply without one of
    the two keys is reported like a failing call, by the error printed after
    the session is closed and exit status 1. *)
Theorem status_table_or_error :
  forall (w : world) (rest : list (res pyval)),
    (forall resp st active,
        server w = Ok resp :: rest ->
        getitem resp "status" = Ok st ->
        getitem resp "active_sessions" = Ok active ->
        ManagerRest.status w
        = Run [ SessionOpen; Call ManagerStatus;
                PrintTable [[st; active]] ["Status"; "Active Sessions"];
                SessionClose ]
              (answered w rest) (Return tt)) /\
    (forall e,
        server w = Err e :: rest ->
        ManagerRest.status w
        = Run [SessionOpen; Call ManagerStatus; SessionClose; PrintError e]
              (answered w rest) (Exit 1)) /\
    (forall resp e,
        server w = Ok resp :: rest ->
        (getitem resp "status" = Err e \/
         exists st, getitem resp "status" = Ok st /\
                    getitem resp "active_sessions" = Err e) ->
        ManagerRest.status w
        = Run [SessionOpen; Call ManagerStatus; SessionClose; PrintError e]
              (answered w rest) (Exit 1)).
Proof.
  intros w rest. split; [|split].
  - intros resp st active Hsrv Hst Hact.
    unfold ManagerRest.status, try_except, with_session, bind, call.
    rewrite Hsrv, Hst. cbn [lift ret]. rewrite Hact. reflexivity.
  - intros e Hsrv.
    unfold ManagerRest.status, try_except, with_session, bind, call.
    rewrite Hsrv. reflexivity.
  - intros resp e Hsrv [Hst | (st & Hst & Hact)];
      unfold ManagerRest.status, try_except, with_session, bind, call;
      rewrite Hsrv, Hst; cbn [lift ret raise]; [reflexivity|].
    rewrite Hact. reflexivity.
Qed.

Lemma status_table_or_error_witness :
  ManagerRest.status
    (World [Ok (VDict [("status", VStr "frozen")])] true None Missing Writes)
  = Run [ SessionOpen; Call ManagerStatus; SessionClose;
          PrintError (KeyError (VStr "active_sessions")) ]
        (World [] true None Missing Writes) (Exit 1).
Proof.
  refine (proj2 (proj2 (status_table_or_error
            (World [Ok (VDict [("status", VStr "frozen")])] true None Missing Writes)
            []))
            (VDict [("status", VStr "frozen")])
            (KeyError (VStr "active_sessions")) eq_refl _).
  right. exists (VStr "frozen"). split; reflexivity.
Defined.

(** X20: [announcement delete] asks first: after a no it prints the
    cancellation and exits with status 1 without a session or a call; after
    a yes it posts [enabled=False] with no message and reports the deletion
    after the session is closed, or the error of a failing call with exit
    status 1. *)
Theorem delete_announcement_asks_first :
  forall (w : world),
    (yn_answer w = false ->
     ManagerRest.delete w = Run [AskYn; PrintInfo "Cancelled."] w (Exit 1)) /\
    (forall reply rest,
        yn_answer w = true ->
        server w = Ok reply :: rest ->
        ManagerRest.delete w
        = Run [ AskYn; SessionOpen;
                Call (ManagerUpdateAnnouncement false None);
                SessionClose; PrintDone "Deleted announcement." ]
              (answered w rest) (Return tt)) /\
    (forall e rest,
        yn_answer w = true ->
        server w = Err e :: rest ->
        ManagerRest.delete w
        = Run [ AskYn; SessionOpen;
                Call (ManagerUpdateAnnouncement false None);
                SessionClose; PrintError e ]
              (answered w rest) (Exit 1)).
Proof.
  intros w. split; [|split].
  - intros Hno. unfold ManagerRest.delete, bind, ask_yn. rewrite Hno. reflexivity.
  - intros reply rest Hyes Hsrv.
    unfold ManagerRest.delete, try_except, with_session, bind, ask_yn, call.
    rewrite Hyes. cbn [negb]. rewrite Hsrv. reflexivity.
  - intros e rest Hyes Hsrv.
    unfold ManagerRest.delete, try_except, with_session, bind, ask_yn, call.
    rewrite Hyes. cbn [negb]. rewrite Hsrv. reflexivity.
Qed.

Lemma delete_announcement_asks_first_witness :
  ManagerRest.delete (World [Ok VNone] false None Missing Writes)
  = Run [AskYn; PrintInfo "Cancelled."]
        (World [Ok VNone] false None Missing Writes) (Exit 1).
Proof.
  exact (proj1 (delete_announcement_asks_first
                  (World [Ok VNone] false None Missing Writes)) eq_refl).
Defined.

(** ** [unfreeze], the scheduler commands and [announcement get] *)

Ltac run_more Hsrv :=
  unfold more_call_failed, more_try, more_session, more_bind, more_call_,
         more_fail, core, say, fail_with, bind, emit, exit;
  rewrite Hsrv; reflexivity.

(** X21: [unfreeze], [include-agents] and [exclude-agents] make one call and
    ignore what it returns.  The scheduler commands pass their agent ids on
    unchanged, in order, under the operation names [include-agents] and
    [exclude-agents], also when no id is given.  [unfreeze] confirms inside
    the session, the scheduler commands after it is closed; a failing call
    is reported after the session is closed, with exit status 1. *)
Theorem manager_single_calls :
  forall (w : world) (rest : list (res pyval)),
    (forall reply,
        server w = Ok reply :: rest ->
        unfreeze w
        = Trace [ Core SessionOpen; CallMore ManagerUnfreeze;
                  Core (Print "Manager is successfully unfrozen.");
                  Core SessionClose ]
                (answered w rest) (Returns tt) /\
        (forall agent_ids,
            include_agents agent_ids w
            = Trace [ Core SessionOpen;
                      CallMore (ManagerSchedulerOp "include-agents" agent_ids);
                      Core SessionClose;
                      Core (PrintDone "The given agents now accepts new sessions.") ]
                    (answered w rest) (Returns tt)) /\
        (forall agent_ids,
            exclude_agents agent_ids w
            = Trace [ Core SessionOpen;
                      CallMore (ManagerSchedulerOp "exclude-agents" agent_ids);
                      Core SessionClose;
                      Core (PrintDone
                              "The given agents will no longer start new sessions.") ]
                    (answered w rest) (Returns tt))) /\
    (forall e,
        server w = Err e :: rest ->
        unfreeze w = more_call_failed ManagerUnfreeze e w rest /\
        (forall agent_ids,
            include_agents agent_ids w
            = more_call_failed (ManagerSchedulerOp "include-agents" agent_ids)
                               e w rest) /\
        (forall agent_ids,
            exclude_agents agent_ids w
            = more_call_failed (ManagerSchedulerOp "exclude-agents" agent_ids)
                               e w rest)).
Proof.
  intros w rest. split; intros x Hsrv; repeat split; intros.
  - unfold unfreeze. run_more Hsrv.
  - unfold include_agents. run_more Hsrv.
  - unfold exclude_agents. run_more Hsrv.
  - unfold unfreeze. run_more Hsrv.
  - unfold include_agents. run_more Hsrv.
  - unfold exclude_agents. run_more Hsrv.
Qed.

Lemma manager_single_calls_witness :
  exclude_agents [] (World [Ok VNone] true None Missing Writes)
  = Trace [ Core SessionOpen; CallMore (ManagerSchedulerOp "exclude-agents" []);
            Core SessionClose;
            Core (PrintDone "The given agents will no longer start new sessions.") ]
          (World [] true None Missing Writes) (Returns tt).
Proof.
  exact (proj2 (proj2 (proj1 (manager_single_calls
                                (World [Ok VNone] true None Missing Writes) [])
                         VNone eq_refl)) []).
Defined.

Ltac run_get Hsrv :=
  unfold get, announced, more_call_failed, more_try, more_session, more_bind,
         more_call_, more_fail, core, say, fail_with, bind, emit, exit, lift;
  rewrite Hsrv; cbn [get_default ret raise].

(** X22: [announcement get] shows the [message] of the reply only when its
    [enabled] is true.  Without [enabled], or with a false one, it prints
    that there are no announcements, even when a message is there; an
    enabled reply without [message] prints [None].  A reply that is not a
    mapping is reported as an error, with exit status 1. *)
Theorem get_announcement_cases :
  forall (w : world) (rest : list (res pyval)),
    (forall d enabled,
        server w = Ok (VDict d) :: rest ->
        dict_get "enabled" d = Some enabled ->
        truthy enabled = true ->
        get w = announced (match dict_get "message" d with
                           | Some msg => str msg
                           | None => "None"
                           end) w rest) /\
    (forall d,
        server w = Ok (VDict d) :: rest ->
        (dict_get "enabled" d = None \/
         exists enabled, dict_get "enabled" d = Some enabled /\
                         truthy enabled = false) ->
        get w = announced "No announcements." w rest) /\
    (forall v,
        server w = Ok v :: rest ->
        get_default v "enabled" (VBool false) = Err AttributeError ->
        get w = more_call_failed ManagerGetAnnouncement AttributeError w rest).
Proof.
  intros w rest. split; [|split].
  - intros d enabled Hsrv Hen Htrue. run_get Hsrv.
    rewrite Hen. cbn [ret]. rewrite Htrue.
    destruct (dict_get "message" d); reflexivity.
  - intros d Hsrv [Hnone | (enabled & Hen & Hfalse)]; run_get Hsrv.
    + rewrite Hnone. reflexivity.
    + rewrite Hen. cbn [ret]. rewrite Hfalse. reflexivity.
  - intros v Hsrv Hbad.
    unfold get, more_call_failed, more_try, more_session, more_bind,
           more_call_, more_fail, core, say, fail_with, bind, emit, exit, lift.
    rewrite Hsrv, Hbad. reflexivity.
Qed.

Lemma get_announcement_cases_witness :
  get (World [Ok (VDict [("message", VStr "maintenance at noon")])]
             true None Missing Writes)
  = Trace [ Core SessionOpen; CallMore ManagerGetAnnouncement;
            Core (Print "No announcements."); Core SessionClose ]
          (World [] true None Missing Writes) (Returns tt).
Proof.
  refine (proj1 (proj2 (get_announcement_cases
            (World [Ok (VDict [("message", VStr "maintenance at noon")])]
                   true None Missing Writes) []))
            [("message", VStr "maintenance at noon")] eq_refl _).
  left. reflexivity.
Defined.

(** ** [get-resources] *)

(** X23: [get-resources] has no handler of its own.  With an endpoint type
    other than [session] it warns and aborts before a session is opened or a
    call is made; a call that fails is not reported by the command: the
    session is closed and the exception goes on to the caller. *)
Theorem get_resources_unhandled :
  forall (scaling_group group : string) (all : bool) (w : world),
    (forall endpoint_type,
        endpoint_type <> "session" ->
        get_resources endpoint_type scaling_group group all w
        = Trace [PrintWarn endpoint_warning] w Aborts) /\
    (forall e rest,
        server w = Err e :: rest ->
        get_resources "session" scaling_group group all w
        = Trace [ Core SessionOpen;
                  CallMore (ResourceGetAvailableResources scaling_group group);
                  Core SessionClose ]
                (answered w rest) (Raises e)).
Proof.
  intros scaling_group group all w. split.
  - intros endpoint_type Hne. unfold get_resources.
    destruct (String.eqb_spec endpoint_type "session"); [contradiction|].
    reflexivity.
  - intros e rest Hsrv.
    unfold get_resources, more_session, more_bind, more_call_.
    cbn [String.eqb Ascii.eqb Bool.eqb negb]. rewrite Hsrv. reflexivity.
Qed.

Lemma get_resources_unhandled_witness :
  get_resources "api" "default" "default" false
    (World [Ok VNone] true None Missing Writes)
  = Trace [PrintWarn endpoint_warning]
          (World [Ok VNone] true None Missing Writes) Aborts.
Proof.
  refine (proj1 (get_resources_unhandled "default" "default" false
                   (World [Ok VNone] true None Missing Writes)) "api" _).
  discriminate.
Defined.

Lemma say_run (s : string) (w : world) :
  say s w = Trace [Core (Print s)] w (Returns tt).
Proof. reflexivity. Qed.

Lemma say_at_run (label : string) (ret : pyval) (ks : list string)
      (x : pyval) (w : world) :
  path ret ks = Ok x ->
  say_at label ret ks w = Trace [Core (Print (label ++ " " ++ str x))] w (Returns tt).
Proof.
  intros H. unfold say_at, more_bind, core, lift. rewrite H. reflexivity.
Qed.

Lemma scaling_group_lookup
      (groups : list (string * ((pyval * pyval) * (pyval * pyval))))
      (g : string * ((pyval * pyval) * (pyval * pyval))) :
  NoDup (map fst groups) ->
  In g groups ->
  dict_get (fst g) (map (fun g => (fst g, scaling_group_entry (snd g))) groups)
  = Some (scaling_group_entry (snd g)).
Proof.
  induction groups as [|h groups IH]; intros Hnd Hin; [destruct Hin|].
  inversion Hnd as [|? ? Hnotin Hnd']; subst. simpl.
  destruct Hin as [<-|Hin].
  - now rewrite String.eqb_refl.
  - destruct (String.eqb_spec (fst g) (fst h)) as [Heq|_]; [|now apply IH].
    elim Hnotin. rewrite <- Heq. now apply in_map.
Qed.

Lemma scaling_group_paths
      (total : pyval * pyval)
      (groups : list (string * ((pyval * pyval) * (pyval * pyval))))
      (limits used remaining : pyval * pyval)
      (g : string * ((pyval * pyval) * (pyval * pyval))) :
  NoDup (map fst groups) ->
  In g groups ->
  let ret := resources_reply total groups limits used remaining in
  path ret ["scaling_groups"; fst g; "using"; "cpu"] = Ok (fst (fst (snd g))) /\
  path ret ["scaling_groups"; fst g; "using"; "mem"] = Ok (snd (fst (snd g))) /\
  path ret ["scaling_groups"; fst g; "remaining"; "cpu"] = Ok (fst (snd (snd g))) /\
  path ret ["scaling_groups"; fst g; "remaining"; "mem"] = Ok (snd (snd (snd g))).
Proof.
  intros Hnd Hin ret.
  pose proof (scaling_group_lookup groups g Hnd Hin) as Hget.
  subst ret. unfold resources_reply.
  repeat split; simpl; rewrite Hget; reflexivity.
Qed.

Ltac say_steps :=
  repeat (first [ rewrite say_run
                | erewrite say_at_run by eassumption ];
          cbv beta iota).

Lemma scaling_group_block_run
      (total : pyval * pyval)
      (groups : list (string * ((pyval * pyval) * (pyval * pyval))))
      (limits used remaining : pyval * pyval)
      (g : string * ((pyval * pyval) * (pyval * pyval))) (w : world) :
  NoDup (map fst groups) ->
  In g groups ->
  scaling_group_block (resources_reply total groups limits used remaining) (fst g) w
  = Trace (said (resources_block g)) w (Returns tt).
Proof.
  intros Hnd Hin.
  destruct (scaling_group_paths total groups limits used remaining g Hnd Hin)
    as (H1 & H2 & H3 & H4).
  unfold scaling_group_block, more_bind. say_steps. reflexivity.
Qed.

Lemma scaling_group_blocks_run
      (total : pyval * pyval)
      (groups : list (string * ((pyval * pyval) * (pyval * pyval))))
      (limits used remaining : pyval * pyval) :
  NoDup (map fst groups) ->
  forall (gs : list (string * ((pyval * pyval) * (pyval * pyval)))) (w : world),
    incl gs groups ->
    more_each (map fst gs)
      (scaling_group_block (resources_reply total groups limits used remaining)) w
    = Trace (said (flat_map resources_block gs)) w (Returns tt).
Proof.
  intros Hnd gs. induction gs as [|g gs IH]; intros w Hincl; [reflexivity|].
  cbn [map more_each flat_map]. unfold more_bind.
  rewrite (scaling_group_block_run total groups limits used remaining g w Hnd)
    by (apply Hincl; now left).
  rewrite IH by (intros x Hx; apply Hincl; now right).
  unfold said. now rewrite map_app.
Qed.

Lemma resources_paths (total : pyval * pyval)
      (groups : list (string * ((pyval * pyval) * (pyval * pyval))))
      (limits used remaining : pyval * pyval) :
  let ret := resources_reply total groups limits used remaining in
  (path ret ["scaling_group_remaining"; "cpu"] = Ok (fst total) /\
   path ret ["scaling_group_remaining"; "mem"] = Ok (snd total)) /\
  (path ret ["group_limits"; "cpu"] = Ok (fst limits) /\
   path ret ["group_limits"; "mem"] = Ok (snd limits)) /\
  (path ret ["group_using"; "cpu"] = Ok (fst used) /\
   path ret ["group_using"; "mem"] = Ok (snd used)) /\
  (path ret ["group_remaining"; "cpu"] = Ok (fst remaining) /\
   path ret ["group_remaining"; "mem"] = Ok (snd remaining)).
Proof. repeat split. Qed.

Lemma scaling_group_keys
      (groups : list (string * ((pyval * pyval) * (pyval * pyval)))) :
  dict_keys (map (fun g => (fst g, scaling_group_entry (snd g))) groups)
  = map fst groups.
Proof. unfold dict_keys. rewrite map_map. reflexivity. Qed.

(** X24: on a reply that holds the total, the scaling groups by name and the
    three figures of the group, [get-resources] prints the total of the
    scaling group asked for, then with [--all] the seven lines of every
    scaling group in the order of the reply, and without it the seven lines
    of the scaling group asked for only, then the limits, the use and the
    rest of the group; it returns after closing the session. *)
Theorem get_resources_report :
  forall (scaling_group group : string) (total : pyval * pyval)
         (groups : list (string * ((pyval * pyval) * (pyval * pyval))))
         (limits used remaining : pyval * pyval)
         (w : world) (rest : list (res pyval)),
    NoDup (map fst groups) ->
    server w = Ok (resources_reply total groups limits used remaining) :: rest ->
    get_resources "session" scaling_group group true w
    = Trace (Core SessionOpen
             :: CallMore (ResourceGetAvailableResources scaling_group group)
             :: said (resources_head scaling_group total
                      ++ flat_map resources_block groups
                      ++ resources_foot limits used remaining)
             ++ [Core SessionClose])%list
            (answered w rest) (Returns tt) /\
    (forall ur,
        In (scaling_group, ur) groups ->
        get_resources "session" scaling_group group false w
        = Trace (Core SessionOpen
                 :: CallMore (ResourceGetAvailableResources scaling_group group)
                 :: said (resources_head scaling_group total
                          ++ resources_block (scaling_group, ur)
                          ++ resources_foot limits used remaining)
                 ++ [Core SessionClose])%list
                (answered w rest) (Returns tt)).
Proof.
  intros scaling_group group total groups limits used remaining w rest Hnd Hsrv.
  destruct (resources_paths total groups limits used remaining)
    as ((T1 & T2) & (L1 & L2) & (U1 & U2) & (R1 & R2)).
  split.
  - unfold get_resources, more_session.
    cbn [String.eqb Ascii.eqb Bool.eqb negb].
    unfold more_bind at 1. unfold more_call_. rewrite Hsrv. cbv beta iota.
    unfold more_bind. say_steps.
    unfold core at 1, lift. cbn [getitem resources_reply dict_get String.eqb
                                 Ascii.eqb Bool.eqb ret map]. cbv beta iota.
    unfold core at 1, lift. cbn [keys ret map]. cbv beta iota.
    rewrite scaling_group_keys.
    rewrite (scaling_group_blocks_run total groups limits used remaining Hnd
               groups _ (incl_refl groups)).
    cbv beta iota. say_steps.
    unfold said. rewrite !map_app. cbn [map app resources_head resources_foot].
    rewrite <- !app_assoc. reflexivity.
  - intros ur Hin.
    unfold get_resources, more_session.
    cbn [String.eqb Ascii.eqb Bool.eqb negb].
    unfold more_bind at 1. unfold more_call_. rewrite Hsrv. cbv beta iota.
    unfold more_bind. say_steps.
    rewrite (scaling_group_block_run total groups limits used remaining
               (scaling_group, ur) _ Hnd Hin).
    cbv beta iota. say_steps.
    unfold said. rewrite !map_app. cbn [map app resources_head resources_foot
                                        resources_block].
    reflexivity.
Qed.

Lemma get_resources_report_witness :
  get_resources "session" "gpu" "default" false resources_world
  = Trace (Core SessionOpen
           :: CallMore (ResourceGetAvailableResources "gpu" "default")
           :: said [ "Total remaining resources of scaling group [gpu]:";
                     "  CPU: 6"; "  Memory: 24g";
                     "Each resources of scaling groups:";
                     "  [gpu]"; "    Using:"; "      CPU: 0"; "      Memory: 0g";
                     "    Remaining:"; "      CPU: 4"; "      Memory: 16g";
                     "Group limits:"; "  CPU: 8"; "  Memory: 32g";
                     "Group using:"; "  CPU: 2"; "  Memory: 8g";
                     "Group remaining:"; "  CPU: 6"; "  Memory: 24g" ]
           ++ [Core SessionClose])%list
          (World [] true None Missing Writes) (Returns tt).
Proof.
  refine (proj2 (get_resources_report "gpu" "default" (VInt 6, VStr "24g")
            [ ("default", ((VInt 2, VStr "8g"), (VInt 6, VStr "24g")));
              ("gpu", ((VInt 0, VStr "0g"), (VInt 4, VStr "16g"))) ]
            (VInt 8, VStr "32g") (VInt 2, VStr "8g") (VInt 6, VStr "24g")
            resources_world [] _ eq_refl)
            ((VInt 0, VStr "0g"), (VInt 4, VStr "16g")) _).
  - repeat constructor; simpl; intuition discriminate.
  - right. left. reflexivity.
Defined.

Lemma say_at_fails (label : string) (ret : pyval) (ks : list string)
      (e : exn) (w : world) :
  path ret ks = Err e ->
  say_at label ret ks w = Trace [] w (Raises e).
Proof.
  intros H. unfold say_at, more_bind, core, lift. rewrite H. reflexivity.
Qed.

Lemma scaling_group_missing
      (groups : list (string * ((pyval * pyval) * (pyval * pyval))))
      (x : string) :
  ~ In x (map fst groups) ->
  dict_get x (map (fun g => (fst g, scaling_group_entry (snd g))) groups) = None.
Proof.
  induction groups as [|h groups IH]; intros Hout; [reflexivity|].
  simpl in *. destruct (String.eqb_spec x (fst h)) as [->|_].
  - elim Hout. now left.
  - apply IH. tauto.
Qed.

(** X25: without [--all], a scaling group that the reply does not list
    stops [get-resources] in the middle of its report: the total and the
    two opening lines of the group are printed, then the lookup of the group
    raises; the session is closed and the exception goes on to the caller,
    with nothing printed about the group limits. *)
Theorem get_resources_unknown_scaling_group :
  forall (scaling_group group : string) (total : pyval * pyval)
         (groups : list (string * ((pyval * pyval) * (pyval * pyval))))
         (limits used remaining : pyval * pyval)
         (w : world) (rest : list (res pyval)),
    server w = Ok (resources_reply total groups limits used remaining) :: rest ->
    ~ In scaling_group (map fst groups) ->
    get_resources "session" scaling_group group false w
    = Trace (Core SessionOpen
             :: CallMore (ResourceGetAvailableResources scaling_group group)
             :: said (resources_head scaling_group total
                      ++ resources_block_opening scaling_group)
             ++ [Core SessionClose])%list
            (answered w rest) (Raises (KeyError (VStr scaling_group))).
Proof.
  intros scaling_group group total groups limits used remaining w rest Hsrv Hout.
  destruct (resources_paths total groups limits used remaining)
    as ((T1 & T2) & _).
  assert (Hbad : path (resources_reply total groups limits used remaining)
                      ["scaling_groups"; scaling_group; "using"; "cpu"]
                 = Err (KeyError (VStr scaling_group))).
  { unfold resources_reply. simpl.
    rewrite (scaling_group_missing groups scaling_group Hout). reflexivity. }
  unfold get_resources, more_session.
  cbn [String.eqb Ascii.eqb Bool.eqb negb].
  unfold more_bind at 1. unfold more_call_. rewrite Hsrv. cbv beta iota.
  unfold scaling_group_block, more_bind. say_steps.
  rewrite (say_at_fails _ _ _ _ _ Hbad). reflexivity.
Qed.

Lemma get_resources_unknown_scaling_group_witness :
  ended (get_resources "session" "tpu" "default" false resources_world)
  = Raises (KeyError (VStr "tpu")).
Proof.
  rewrite (get_resources_unknown_scaling_group "tpu" "default"
             (VInt 6, VStr "24g")
             [ ("default", ((VInt 2, VStr "8g"), (VInt 6, VStr "24g")));
               ("gpu", ((VInt 0, VStr "0g"), (VInt 4, VStr "16g"))) ]
             (VInt 8, VStr "32g") (VInt 2, VStr "8g") (VInt 6, VStr "24g")
             resources_world [] eq_refl).
  - reflexivity.
  - simpl. intuition discriminate.
Defined.
